(** * GateKeeper check-in system: credential issuance and validation

    A shallow embedding of the ticket registration route
    (apps/api/src/routes/tickets.ts), the scanner routes for validation
    and statistics (apps/api/src/routes/scanner.ts), the JWT service
    (packages/jwt-core/src/index.ts), the [authenticate] middleware
    (apps/api/src/middleware/auth.ts), the account routes
    (apps/api/src/routes/auth.ts) and the event page
    (apps/api/src/routes/events.ts).

    The handlers are programs over a small set of operations: reading the
    clock, drawing random bytes, and the Prisma calls they [await].  The
    operations are answered by a world that holds the tables, the clock,
    the random source and the log of statements the database received.
    The same handler text is run to completion, for a request served
    alone, or in turns that end at an [await], for requests served
    concurrently.  The account routes run on the user table, which the
    ticket routes only read through its [id], [email] and [fullName].

    Contents: data model; store; handler programs and their two
    semantics; JWT service; routes; a small world to evaluate them in;
    the statistics, access tokens, middleware, accounts and event page;
    lemmas on the store and its invariant; the stages of [validate]; the
    properties of validation, check-in, registration, replay and
    concurrent scans; registration for free events and overlapping
    registrations; statistics; authentication; accounts. *)

From Stdlib Require Import ZArith QArith Lia.
From stdpp Require Import base decidable option list strings.

Local Open Scope string_scope.

(** ** Data model *)

(** shared-types: [TicketStatus]. *)
Inductive TicketStatus := REGISTERED | WAITLISTED | CHECKED_IN | CANCELLED.

#[global] Instance TicketStatus_eq_dec : EqDecision TicketStatus.
Proof. solve_decision. Defined.

(** Template-literal rendering of a status, as in [`Ticket status: ${ticket.status}`]. *)
Definition status_text (s : TicketStatus) : string :=
  match s with
  | REGISTERED => "REGISTERED"
  | WAITLISTED => "WAITLISTED"
  | CHECKED_IN => "CHECKED_IN"
  | CANCELLED => "CANCELLED"
  end.

(** jwt-core: [TicketPayload].  There is no [exp] field. *)
Module TicketPayload.
Record t := mk { sub : string; evt : string; iat : Z; nonce : string }.
End TicketPayload.

(** The columns of a user selected by the routes ([id], [fullName], [email]). *)
Module User.
Record t := mk { id : string; email : string; fullName : string }.
End User.

Module Event.
Record t := mk {
  id : string;
  title : string;
  dateTime : Z;
  price : Q;
  capacity : Z;
  isPrivate : bool;
  inviteToken : option string }.
End Event.

(** The [select: { id, title, dateTime }] projection of an event. *)
Module EventSummary.
Record t := mk { id : string; title : string; dateTime : Z }.
Definition of_event (e : Event.t) : t :=
  mk (Event.id e) (Event.title e) (Event.dateTime e).
End EventSummary.

(** A ticket row (the Check-in Record), with the columns the routes read
    or write; [jwtToken], [nonce] and [checkInTime] are nullable.  The
    timestamps the store keeps for itself ([createdAt], [updatedAt]) are
    named by no route and are left out. *)
Module Ticket.
Record t := mk {
  id : string;
  jwtToken : option string;
  status : TicketStatus;
  nonce : option string;
  checkInTime : option Z;
  userId : string;
  eventId : string }.
End Ticket.

#[global] Instance Ticket_eq_dec : EqDecision Ticket.t.
Proof. solve_decision. Defined.

#[global] Instance User_eq_dec : EqDecision User.t.
Proof. solve_decision. Defined.

(** A ticket together with the relations requested by [include]. *)
Module TicketWithDetails.
Record t := mk {
  ticket : Ticket.t;
  user : option User.t;
  event : option EventSummary.t }.
End TicketWithDetails.

(** The [data] argument of [prisma.ticket.update]: an absent field leaves
    the column untouched. *)
Module TicketUpdate.
Record t := mk {
  status : option TicketStatus;
  checkInTime : option Z;
  nonce : option string;
  jwtToken : option string }.
End TicketUpdate.

(** The [data] argument of [prisma.ticket.create]. *)
Module TicketCreate.
Record t := mk {
  userId : string;
  eventId : string;
  status : TicketStatus;
  jwtToken : option string;
  nonce : option string }.
End TicketCreate.

(** ** The store *)

(** The Prisma schema (packages/database/prisma/schema.prisma) is not among
    the sources.  What the store enforces is taken from the calls the
    routes make ([findUnique] by [id], by [nonce] and by the pair
    [userId_eventId]; [include] of the ticket's user and event) and from
    the specification's data model: one record per (subject, audience)
    pair, a nonce unique across records. *)

(** Errors with which a Prisma call rejects. *)
Inductive PrismaError :=
| RecordNotFound
| UniqueConstraintFailed
| ForeignKeyConstraintFailed.

(** Errors thrown inside a handler: a rejected Prisma call or a property
    read on [null]. *)
Inductive Error :=
| PrismaFailure (e : PrismaError)
| TypeError.

(** Statements sent to the database, kept as an access log. *)
Inductive DbOp :=
| QEventFindUnique (id : string)
| QTicketFindUniqueByNonce (nonce : string)
| QTicketFindUniqueByUserEvent (userId eventId : string)
| QTicketCount (eventId : string) (statuses : list TicketStatus)
| QTicketCreate (data : TicketCreate.t)
| QTicketUpdate (id : string) (data : TicketUpdate.t).

(** The world a handler runs in: the three tables, the wall clock, the
    random source of the process (the successive answers of [randomBytes]),
    the store's generator of primary keys, and the log of the statements
    the database has received. *)
Record World := mkWorld {
  users : list User.t;
  events : list Event.t;
  tickets : list Ticket.t;
  clock : Z;
  entropy : nat -> string;
  drawn : nat;
  keys : nat -> string;
  created : nat;
  queries : list DbOp }.

Definition set_tickets (ts : list Ticket.t) (w : World) : World :=
  mkWorld (users w) (events w) ts (clock w) (entropy w) (drawn w)
          (keys w) (created w) (queries w).

Definition log_query (q : DbOp) (w : World) : World :=
  mkWorld (users w) (events w) (tickets w) (clock w) (entropy w) (drawn w)
          (keys w) (created w) (queries w ++ [q]).

(** The next answer of the random source. *)
Definition draw (w : World) : string * World :=
  (entropy w (drawn w),
   mkWorld (users w) (events w) (tickets w) (clock w) (entropy w)
           (S (drawn w)) (keys w) (created w) (queries w)).

(** The next primary key the store generates. *)
Definition next_key (w : World) : string * World :=
  (keys w (created w),
   mkWorld (users w) (events w) (tickets w) (clock w) (entropy w)
           (drawn w) (keys w) (S (created w)) (queries w)).

(** Time passing between two requests. *)
Definition advance_clock (d : Z) (w : World) : World :=
  mkWorld (users w) (events w) (tickets w) (clock w + d)%Z (entropy w)
          (drawn w) (keys w) (created w) (queries w).

Definition find_user (id : string) (us : list User.t) : option User.t :=
  List.find (fun u => bool_decide (User.id u = id)) us.

Definition find_event (id : string) (es : list Event.t) : option Event.t :=
  List.find (fun e => bool_decide (Event.id e = id)) es.

Definition find_ticket_by_id (id : string) (ts : list Ticket.t) : option Ticket.t :=
  List.find (fun t => bool_decide (Ticket.id t = id)) ts.

Definition find_ticket_by_nonce (n : string) (ts : list Ticket.t) : option Ticket.t :=
  List.find (fun t => bool_decide (Ticket.nonce t = Some n)) ts.

Definition find_ticket_by_user_event (u e : string) (ts : list Ticket.t)
  : option Ticket.t :=
  List.find (fun t => bool_decide (Ticket.userId t = u)
                      && bool_decide (Ticket.eventId t = e)) ts.

(** [include: { user: { select ... }, event: { select ... } }]. *)
Definition with_details (w : World) (t : Ticket.t) : TicketWithDetails.t :=
  TicketWithDetails.mk t
    (find_user (Ticket.userId t) (users w))
    (EventSummary.of_event <$> find_event (Ticket.eventId t) (events w)).

(** [count({ where: { eventId, status: { in: statuses } } })]. *)
Definition count_tickets (e : string) (statuses : list TicketStatus)
    (ts : list Ticket.t) : nat :=
  length (List.filter (fun t => bool_decide (Ticket.eventId t = e)
                                && bool_decide (Ticket.status t ∈ statuses)) ts).

Definition apply_update (d : TicketUpdate.t) (t : Ticket.t) : Ticket.t :=
  Ticket.mk (Ticket.id t)
    (match TicketUpdate.jwtToken d with Some j => Some j | None => Ticket.jwtToken t end)
    (match TicketUpdate.status d with Some s => s | None => Ticket.status t end)
    (match TicketUpdate.nonce d with Some n => Some n | None => Ticket.nonce t end)
    (match TicketUpdate.checkInTime d with Some c => Some c | None => Ticket.checkInTime t end)
    (Ticket.userId t) (Ticket.eventId t).

(** Replace the row whose primary key is [id]. *)
Fixpoint replace_ticket (id : string) (t' : Ticket.t) (ts : list Ticket.t)
  : list Ticket.t :=
  match ts with
  | [] => []
  | t :: rest =>
      if bool_decide (Ticket.id t = id) then t' :: rest
      else t :: replace_ticket id t' rest
  end.

(** Modelled from the spec: the schema is missing; the data model makes
    the nonce unique across all records, and [findUnique] is keyed by it.
    Does another row than [id] already hold the nonce [n]? *)
Definition nonce_taken (id : string) (n : option string) (ts : list Ticket.t) : bool :=
  match n with
  | None => false
  | Some v =>
      existsb (fun t => bool_decide (Ticket.nonce t = Some v)
                        && negb (bool_decide (Ticket.id t = id))) ts
  end.

(** [prisma.ticket.update({ where: { id }, data })]: it rejects when no
    row has the key or when the new nonce would break the unique column,
    and otherwise writes [data] into the row.  The only condition on the
    row is its primary key. *)
Definition ticket_update (id : string) (d : TicketUpdate.t) (w : World)
  : (PrismaError + TicketWithDetails.t) * World :=
  match find_ticket_by_id id (tickets w) with
  | None => (inl RecordNotFound, w)
  | Some t =>
      if nonce_taken id (TicketUpdate.nonce d) (tickets w)
      then (inl UniqueConstraintFailed, w)
      else
        let t' := apply_update d t in
        let w' := set_tickets (replace_ticket id t' (tickets w)) w in
        (inr (with_details w' t'), w')
  end.

(** The answer of [prisma.ticket.create]: the new row and, when the call
    has an [include], its user and its event. *)
Module CreatedTicket.
Record t := mk {
  ticket : Ticket.t;
  user : option User.t;
  event : option Event.t }.
End CreatedTicket.

(** Modelled from the spec: the schema is missing; the Ledger's
    [createRecord] fails with a conflict when the (subject, audience) pair
    already has a record, and nonces are unique.
    [prisma.ticket.create({ data, include? })]: the store generates the
    primary key, enforces the foreign keys and the unique columns, and
    leaves [checkInTime] empty. *)
Definition ticket_create (d : TicketCreate.t) (include : bool) (w : World)
  : (PrismaError + CreatedTicket.t) * World :=
  let (new_id, w1) := next_key w in
  match find_user (TicketCreate.userId d) (users w1),
        find_event (TicketCreate.eventId d) (events w1) with
  | Some u, Some e =>
      match find_ticket_by_id new_id (tickets w1),
            find_ticket_by_user_event (TicketCreate.userId d)
                                      (TicketCreate.eventId d) (tickets w1) with
      | None, None =>
          if nonce_taken new_id (TicketCreate.nonce d) (tickets w1)
          then (inl UniqueConstraintFailed, w1)
          else
            let t := Ticket.mk new_id (TicketCreate.jwtToken d)
                       (TicketCreate.status d) (TicketCreate.nonce d) None
                       (TicketCreate.userId d) (TicketCreate.eventId d) in
            (inr (if include then CreatedTicket.mk t (Some u) (Some e)
                  else CreatedTicket.mk t None None),
             set_tickets (tickets w1 ++ [t]) w1)
      | _, _ => (inl UniqueConstraintFailed, w1)
      end
  | _, _ => (inl ForeignKeyConstraintFailed, w1)
  end.

(** The store's queries are kept folded when a handler is simplified. *)
Arguments find_user : simpl never.
Arguments find_event : simpl never.
Arguments find_ticket_by_id : simpl never.
Arguments find_ticket_by_nonce : simpl never.
Arguments find_ticket_by_user_event : simpl never.
Arguments count_tickets : simpl never.
Arguments ticket_update : simpl never.
Arguments ticket_create : simpl never.

(** ** Handler programs *)

(** The operations at which a handler talks to its environment.  The
    Prisma calls are the handler's [await] points. *)
Inductive Eff : Type -> Type :=
| DateNow : Eff Z
| RandomBytesHex : Eff string
| EventFindUnique (id : string) : Eff (option Event.t)
| TicketFindUniqueByNonce (nonce : string) : Eff (option TicketWithDetails.t)
| TicketFindUniqueByUserEvent (userId eventId : string) : Eff (option Ticket.t)
| TicketCountIn (eventId : string) (statuses : list TicketStatus) : Eff nat
| TicketCreateRow (data : TicketCreate.t) (include : bool)
    : Eff (PrismaError + CreatedTicket.t)
| TicketUpdateById (id : string) (data : TicketUpdate.t)
    : Eff (PrismaError + TicketWithDetails.t).

Inductive Prog (A : Type) : Type :=
| Ret (a : A)
| Throw (e : Error)
| Vis {X : Type} (op : Eff X) (k : X -> Prog A).

Arguments Ret {A} a.
Arguments Throw {A} e.
Arguments Vis {A X} op k.

Fixpoint bind {A B} (p : Prog A) (f : A -> Prog B) : Prog B :=
  match p with
  | Ret a => f a
  | Throw e => Throw e
  | Vis op k => Vis op (fun x => bind (k x) f)
  end.

(** [try { p } catch (error) { h }]. *)
Fixpoint try_catch {A} (p : Prog A) (h : Error -> Prog A) : Prog A :=
  match p with
  | Ret a => Ret a
  | Throw e => h e
  | Vis op k => Vis op (fun x => try_catch (k x) h)
  end.

Notation "x <- p ;; q" := (bind p (fun x => q))
  (at level 100, p at next level, right associativity).

Definition perform {X} (op : Eff X) : Prog X := Vis op Ret.

(** [await] of a Prisma call that may reject. *)
Definition await {X} (op : Eff (PrismaError + X)) : Prog X :=
  Vis op (fun r => match r with
                   | inr x => Ret x
                   | inl e => Throw (PrismaFailure e)
                   end).

(** The environment's answer to one operation. *)
Definition handle {X} (op : Eff X) (w : World) : X * World :=
  match op in Eff X return X * World with
  | DateNow => (clock w, w)
  | RandomBytesHex => draw w
  | EventFindUnique id =>
      (find_event id (events w), log_query (QEventFindUnique id) w)
  | TicketFindUniqueByNonce n =>
      (with_details w <$> find_ticket_by_nonce n (tickets w),
       log_query (QTicketFindUniqueByNonce n) w)
  | TicketFindUniqueByUserEvent u e =>
      (find_ticket_by_user_event u e (tickets w),
       log_query (QTicketFindUniqueByUserEvent u e) w)
  | TicketCountIn e statuses =>
      (count_tickets e statuses (tickets w), log_query (QTicketCount e statuses) w)
  | TicketCreateRow d include =>
      ticket_create d include (log_query (QTicketCreate d) w)
  | TicketUpdateById id d => ticket_update id d (log_query (QTicketUpdate id d) w)
  end.

(** A request served alone: the handler runs to completion. *)
Fixpoint run {A} (p : Prog A) (w : World) : (Error + A) * World :=
  match p with
  | Ret a => (inr a, w)
  | Throw e => (inl e, w)
  | Vis op k => let (x, w') := handle op w in run (k x) w'
  end.

(** The statement an operation sends to the database; [None] for what a
    handler does on its own (reading the clock, drawing random bytes). *)
Definition statement {X} (op : Eff X) : option DbOp :=
  match op with
  | DateNow | RandomBytesHex => None
  | EventFindUnique id => Some (QEventFindUnique id)
  | TicketFindUniqueByNonce n => Some (QTicketFindUniqueByNonce n)
  | TicketFindUniqueByUserEvent u e => Some (QTicketFindUniqueByUserEvent u e)
  | TicketCountIn e statuses => Some (QTicketCount e statuses)
  | TicketCreateRow d _ => Some (QTicketCreate d)
  | TicketUpdateById id d => Some (QTicketUpdate id d)
  end.

(** Requests served concurrently.  Every request in flight is a program
    over the shared world.  A handler runs without interruption until it
    awaits the store, so one turn takes a request through its own
    operations up to and including its next statement. *)
Fixpoint turn {A} (p : Prog A) (w : World) : Prog A * World :=
  match p with
  | Vis op k =>
      let (x, w') := handle op w in
      match statement op with
      | Some _ => (k x, w')
      | None => turn (k x) w'
      end
  | _ => (p, w)
  end.

Record Sys (A : Type) := mkSys { world : World; threads : list (Prog A) }.
Arguments mkSys {A} world threads.
Arguments world {A} s.
Arguments threads {A} s.

(** What a schedule is made of: a turn of request [i], or time passing. *)
Inductive Action := Turn (i : nat) | Tick (d : Z).

Definition step {A} (a : Action) (s : Sys A) : Sys A :=
  match a with
  | Tick d => mkSys (advance_clock d (world s)) (threads s)
  | Turn i =>
      match threads s !! i with
      | Some p =>
          let (p', w') := turn p (world s) in
          mkSys w' (<[i := p']> (threads s))
      | None => s
      end
  end.

Definition exec {A} (schedule : list Action) (s : Sys A) : Sys A :=
  fold_left (fun s a => step a s) schedule s.

(** The outcome of a request, once its program has finished. *)
Definition outcome {A} (p : Prog A) : option A :=
  match p with Ret a => Some a | _ => None end.

(** The statement a request in flight will send in its next turn. *)
Fixpoint next_statement {A} (p : Prog A) (w : World) : option DbOp :=
  match p with
  | Vis op k =>
      match statement op with
      | Some q => Some q
      | None => let (x, w') := handle op w in next_statement (k x) w'
      end
  | _ => None
  end.

(** ** Platform functions *)

(** The functions of the platform the code calls and this repository does
    not define: [jwt.sign] and [jwt.verify] of the jsonwebtoken package
    (given the payload or token, the key and, for [verify], the clock it
    reads; [None] stands for a thrown verification error), and
    [Date.prototype.toLocaleTimeString]. *)
Class Platform := {
  jwt_sign : TicketPayload.t -> string -> string;
  jwt_verify : string -> string -> Z -> option TicketPayload.t;
  toLocaleTimeString : Z -> string }.

(** ** jwt-core: JWTService *)

Record JWTService := mkJWTService { privateKey : string; publicKey : string }.

Section JWTService.
Context `{Platform}.
Variable this : JWTService.

(** [randomBytes(32).toString('hex')]. *)
Definition generateNonce : Prog string := perform RandomBytesHex.

Definition generateTicketToken (userId eventId : string) : Prog (string * string) :=
  nonce <- generateNonce ;;
  now <- perform DateNow ;;
  let payload := TicketPayload.mk userId eventId (now / 1000)%Z nonce in
  let token := jwt_sign payload (privateKey this) in
  Ret (token, nonce).

(** [jwt.verify] reads the clock; the caller passes the reading. *)
Definition verifyTicketToken (token : string) (now : Z) : option TicketPayload.t :=
  jwt_verify token (publicKey this) now.

Definition rotateNonce : Prog string := generateNonce.
End JWTService.

(** ** HTTP responses *)

Inductive Color := green | yellow | red.

#[global] Instance Color_eq_dec : EqDecision Color.
Proof. solve_decision. Defined.

(** shared-types: [ValidationResult]. *)
Module ValidationResult.
Record t := mk {
  valid : bool;
  color : Color;
  message : string;
  reason : option string;
  ticket : option TicketWithDetails.t }.
End ValidationResult.

(** What [res.status(code).json(body)] sends. *)
Module Response.
Record t (B : Type) := mk { code : nat; body : B }.
Arguments mk {B} code body.
Arguments code {B} _.
Arguments body {B} _.
End Response.

(** shared-types: [ValidateTicketInput]; a field missing from the request
    body is [None]. *)
Module ValidateTicketInput.
Record t := mk { token : option string; eventId : option string }.
End ValidateTicketInput.

(** shared-types: [RegisterTicketInput]. *)
Module RegisterTicketInput.
Record t := mk { eventId : string; inviteToken : option string }.
End RegisterTicketInput.

(** The JSON bodies of POST /api/tickets/register. *)
Inductive RegisterBody :=
| RegisterError (error : string) (message : option string) (ticket : option Ticket.t)
| RegisterPaid (ticket : Ticket.t) (requiresPayment : bool)
    (paymentClientSecret : string) (amount : Q)
| RegisterFree (ticket : CreatedTicket.t) (requiresPayment : bool).

(** JavaScript's [!s] on an optional string. *)
Definition falsy (s : option string) : bool :=
  match s with
  | None => true
  | Some v => bool_decide (v = "")
  end.

(** [a !== b] between the nullable column [event.inviteToken] and the
    optional body field [inviteToken] ([null] and [undefined] differ). *)
Definition invite_differs (stored given : option string) : bool :=
  match stored, given with
  | Some a, Some b => negb (bool_decide (a = b))
  | _, _ => true
  end.

(** ** The routes *)

Section Routes.
Context `{Platform}.
Variable jwtService : JWTService.

Definition reject (code : nat) (message reason : string)
  : Response.t ValidationResult.t :=
  Response.mk code
    (ValidationResult.mk false red message (Some reason) None).

(** scanner.ts: POST /api/scanner/validate.  Console output and the
    latency bookkeeping are left out; the clock read that [jwt.verify]
    makes is written out. *)
Definition validate (body : ValidateTicketInput.t)
  : Prog (Response.t ValidationResult.t) :=
  try_catch
    (if falsy (ValidateTicketInput.token body)
        || falsy (ValidateTicketInput.eventId body) then
       Ret (reject 400 "Missing token or eventId" "Invalid request")
     else
       let token := default "" (ValidateTicketInput.token body) in
       let eventId := default "" (ValidateTicketInput.eventId body) in
       (* Step 1: verify JWT signature *)
       now <- perform DateNow ;;
       match verifyTicketToken jwtService token now with
       | None =>
           Ret (reject 200 "Invalid or counterfeit ticket"
                       "JWT signature verification failed")
       | Some payload =>
           (* Step 2: check event match *)
           if negb (bool_decide (TicketPayload.evt payload = eventId)) then
             Ret (reject 200 "Ticket is for a different event" "Event ID mismatch")
           else
             (* Step 3: verify nonce exists in database *)
             found <- perform (TicketFindUniqueByNonce (TicketPayload.nonce payload)) ;;
             match found with
             | None =>
                 Ret (reject 200 "Ticket not found or counterfeit"
                             "Nonce not found in database")
             | Some ticket =>
                 let row := TicketWithDetails.ticket ticket in
                 (* Step 4: check if already checked in *)
                 if bool_decide (Ticket.status row = CHECKED_IN) then
                   Ret (Response.mk 200
                          (ValidationResult.mk false yellow
                             ("Already checked in at " +:+
                              match Ticket.checkInTime row with
                              | Some c => toLocaleTimeString c
                              | None => "undefined"
                              end)
                             (Some "Duplicate check-in attempt")
                             (Some ticket)))
                 (* Step 5: verify status is REGISTERED *)
                 else if negb (bool_decide (Ticket.status row = REGISTERED)) then
                   Ret (reject 200
                          ("Ticket status: " +:+ status_text (Ticket.status row))
                          ("Invalid status: " +:+ status_text (Ticket.status row)))
                 else
                   (* Step 6: update status, check-in time, and rotate nonce *)
                   newNonce <- rotateNonce ;;
                   checkInTime <- perform DateNow ;;
                   updatedTicket <- await (TicketUpdateById (Ticket.id row)
                                      (TicketUpdate.mk (Some CHECKED_IN)
                                         (Some checkInTime) (Some newNonce) None)) ;;
                   match TicketWithDetails.user updatedTicket with
                   | None => Throw TypeError
                   | Some user =>
                       Ret (Response.mk 200
                              (ValidationResult.mk true green
                                 ("Welcome, " +:+ User.fullName user +:+ "!")
                                 (Some "Successfully checked in")
                                 (Some updatedTicket)))
                   end
             end
       end)
    (fun _ => Ret (reject 500 "System error during validation"
                          "Internal server error")).

(** tickets.ts: POST /api/tickets/register, after the [authenticate]
    middleware has put the caller's [userId] on the request. *)
Definition register (userId : string) (body : RegisterTicketInput.t)
  : Prog (Response.t RegisterBody) :=
  let eventId := RegisterTicketInput.eventId body in
  try_catch
    (found <- perform (EventFindUnique eventId) ;;
     match found with
     | None => Ret (Response.mk 404 (RegisterError "Event not found" None None))
     | Some event =>
         if Event.isPrivate event
            && invite_differs (Event.inviteToken event)
                              (RegisterTicketInput.inviteToken body) then
           Ret (Response.mk 403
                  (RegisterError "Invalid invite token for private event" None None))
         else
           existingTicket <- perform (TicketFindUniqueByUserEvent userId eventId) ;;
           match existingTicket with
           | Some existing =>
               Ret (Response.mk 409
                      (RegisterError "Already registered"
                         (Some "You already have a ticket for this event")
                         (Some existing)))
           | None =>
               (* Check capacity to determine status *)
               ticketCount <- perform (TicketCountIn eventId [REGISTERED; CHECKED_IN]) ;;
               let status :=
                 if (Event.capacity event <=? Z.of_nat ticketCount)%Z
                 then WAITLISTED else REGISTERED in
               let requiresPayment := negb (Qle_bool (Event.price event) 0) in
               if requiresPayment then
                 created <- await (TicketCreateRow
                              (TicketCreate.mk userId eventId REGISTERED None None)
                              false) ;;
                 Ret (Response.mk 200
                        (RegisterPaid (CreatedTicket.ticket created) true
                           "demo_client_secret" (Event.price event)))
               else
                 issued <- generateTicketToken jwtService userId eventId ;;
                 let '(token, nonce) := issued in
                 created <- await (TicketCreateRow
                              (TicketCreate.mk userId eventId status
                                 (Some token) (Some nonce))
                              true) ;;
                 Ret (Response.mk 201 (RegisterFree created false))
           end
     end)
    (fun _ => Ret (Response.mk 500
                     (RegisterError "Failed to register for event" None None))).
End Routes.

(** ** Named parts of [validate] *)

(** A request body carrying both fields. *)
Definition presented (tok e : string) : ValidateTicketInput.t :=
  ValidateTicketInput.mk (Some tok) (Some e).

(** The statement of step 3. *)
Definition lookup_of (payload : TicketPayload.t) : DbOp :=
  QTicketFindUniqueByNonce (TicketPayload.nonce payload).

(** The [data] written by step 6. *)
Definition check_in_data (now : Z) (newNonce : string) : TicketUpdate.t :=
  TicketUpdate.mk (Some CHECKED_IN) (Some now) (Some newNonce) None.

Definition system_error : Response.t ValidationResult.t :=
  Response.mk 500
    (ValidationResult.mk false red "System error during validation"
       (Some "Internal server error") None).

Definition duplicate_response `{Platform} (t : TicketWithDetails.t)
  : Response.t ValidationResult.t :=
  Response.mk 200
    (ValidationResult.mk false yellow
       ("Already checked in at " +:+
        match Ticket.checkInTime (TicketWithDetails.ticket t) with
        | Some c => toLocaleTimeString c
        | None => "undefined"
        end)
       (Some "Duplicate check-in attempt") (Some t)).

Definition accept_response (t : TicketWithDetails.t) (u : User.t)
  : Response.t ValidationResult.t :=
  Response.mk 200
    (ValidationResult.mk true green ("Welcome, " +:+ User.fullName u +:+ "!")
       (Some "Successfully checked in") (Some t)).

(** The ways a [validate] request can end: the response sent and the
    world left behind, one constructor per [return] of the handler (the
    last three share the write of step 6). *)
Inductive validate_exit `{Platform} (svc : JWTService)
    (body : ValidateTicketInput.t) (w : World)
  : Response.t ValidationResult.t -> World -> Prop :=
| exit_missing :
    falsy (ValidateTicketInput.token body)
    || falsy (ValidateTicketInput.eventId body) = true ->
    validate_exit svc body w
      (reject 400 "Missing token or eventId" "Invalid request") w
| exit_signature tok e :
    body = presented tok e -> tok <> "" -> e <> "" ->
    verifyTicketToken svc tok (clock w) = None ->
    validate_exit svc body w
      (reject 200 "Invalid or counterfeit ticket"
              "JWT signature verification failed") w
| exit_event tok e payload :
    body = presented tok e -> tok <> "" -> e <> "" ->
    verifyTicketToken svc tok (clock w) = Some payload ->
    TicketPayload.evt payload <> e ->
    validate_exit svc body w
      (reject 200 "Ticket is for a different event" "Event ID mismatch") w
| exit_unknown tok e payload :
    body = presented tok e -> tok <> "" -> e <> "" ->
    verifyTicketToken svc tok (clock w) = Some payload ->
    TicketPayload.evt payload = e ->
    find_ticket_by_nonce (TicketPayload.nonce payload) (tickets w) = None ->
    validate_exit svc body w
      (reject 200 "Ticket not found or counterfeit" "Nonce not found in database")
      (log_query (lookup_of payload) w)
| exit_duplicate tok e payload t :
    body = presented tok e -> tok <> "" -> e <> "" ->
    verifyTicketToken svc tok (clock w) = Some payload ->
    TicketPayload.evt payload = e ->
    find_ticket_by_nonce (TicketPayload.nonce payload) (tickets w) = Some t ->
    Ticket.status t = CHECKED_IN ->
    validate_exit svc body w
      (duplicate_response (with_details w t)) (log_query (lookup_of payload) w)
| exit_status tok e payload t :
    body = presented tok e -> tok <> "" -> e <> "" ->
    verifyTicketToken svc tok (clock w) = Some payload ->
    TicketPayload.evt payload = e ->
    find_ticket_by_nonce (TicketPayload.nonce payload) (tickets w) = Some t ->
    Ticket.status t <> CHECKED_IN -> Ticket.status t <> REGISTERED ->
    validate_exit svc body w
      (reject 200 ("Ticket status: " +:+ status_text (Ticket.status t))
              ("Invalid status: " +:+ status_text (Ticket.status t)))
      (log_query (lookup_of payload) w)
| exit_write tok e payload t result w' :
    body = presented tok e -> tok <> "" -> e <> "" ->
    verifyTicketToken svc tok (clock w) = Some payload ->
    TicketPayload.evt payload = e ->
    find_ticket_by_nonce (TicketPayload.nonce payload) (tickets w) = Some t ->
    Ticket.status t = REGISTERED ->
    ticket_update (Ticket.id t)
      (check_in_data (clock w) (entropy w (drawn w)))
      (log_query (QTicketUpdate (Ticket.id t)
                    (check_in_data (clock w) (entropy w (drawn w))))
         (draw (log_query (lookup_of payload) w)).2)
    = (result, w') ->
    validate_exit svc body w
      (match result with
       | inl _ => system_error
       | inr updated =>
           match TicketWithDetails.user updated with
           | None => system_error
           | Some u => accept_response updated u
           end
       end) w'.

(** ** What the schema guarantees of a stored table *)

(** Modelled from the spec: the schema is missing; these are the
    uniqueness invariants of the specification's data model and the
    relations the routes [include].  [id] is the primary key. *)
Definition primary_keys_unique (ts : list Ticket.t) : bool :=
  bool_decide (NoDup (map Ticket.id ts)).

(** A user holds at most one ticket per event. *)
Definition pairs_unique (ts : list Ticket.t) : bool :=
  bool_decide (NoDup (map (fun t => (Ticket.userId t, Ticket.eventId t)) ts)).

(** [nonce] is a unique column (several rows may have none). *)
Definition nonces_unique (ts : list Ticket.t) : bool :=
  bool_decide (NoDup (omap Ticket.nonce ts)).

(** Every ticket belongs to a stored user and a stored event. *)
Definition foreign_keys_hold (w : World) : bool :=
  forallb (fun t => bool_decide (is_Some (find_user (Ticket.userId t) (users w)))
                    && bool_decide (is_Some (find_event (Ticket.eventId t) (events w))))
          (tickets w).

Definition schema_holds (w : World) : bool :=
  primary_keys_unique (tickets w) && pairs_unique (tickets w)
  && nonces_unique (tickets w) && foreign_keys_hold w.

(** The next answer of the random source is not the nonce of any row:
    what a 32-byte draw is relied on for. *)
Definition next_random_unused (w : World) : bool :=
  negb (existsb (fun t => bool_decide (Ticket.nonce t = Some (entropy w (drawn w))))
                (tickets w)).

(** What the handlers rely on from jsonwebtoken for a ticket token: it is
    a non-empty string, and since the payload has no [exp] claim and
    [verify] is given no [maxAge], it verifies under the public key at any
    time. *)
Definition verifies_at_any_time `{Platform} (svc : JWTService) (tok : string)
    (p : TicketPayload.t) : Prop :=
  tok <> "" /\ forall now, verifyTicketToken svc tok now = Some p.

(** ** A small world to run the handlers in *)

Module Demo.
Definition alice : User.t := User.mk "u-alice" "alice@example.com" "Alice".
Definition bob : User.t := User.mk "u-bob" "bob@example.com" "Bob".

(** A free event with room, and a paid event that is already full
    (capacity 0). *)
Definition gala : Event.t :=
  Event.mk "e-gala" "Gala" 1700600000000 0 2 false None.
Definition expo : Event.t :=
  Event.mk "e-expo" "Expo" 1700700000000 (25 # 1) 0 false None.

Definition source (n : nat) : string :=
  match n with
  | 0 => "rnd-0" | 1 => "rnd-1" | 2 => "rnd-2" | 3 => "rnd-3" | _ => "rnd-4"
  end%nat.

Definition key_source (n : nat) : string :=
  match n with
  | 0 => "tkt-0" | 1 => "tkt-1" | 2 => "tkt-2" | _ => "tkt-3"
  end%nat.

Definition payload_alice : TicketPayload.t :=
  TicketPayload.mk "u-alice" "e-gala" 1700000000 "rnd-0".

(** A stand-in for jsonwebtoken: a token is valid when it was signed
    with the private key for one of the payloads in [issued]. *)
Definition issued : list TicketPayload.t := [payload_alice].

Definition platform : Platform := {|
  jwt_sign p key :=
    if bool_decide (key = "PRIVATE") then "jwt." +:+ TicketPayload.nonce p
    else "unsigned";
  jwt_verify token key now :=
    if bool_decide (key = "PUBLIC")
    then List.find (fun p => bool_decide (token = "jwt." +:+ TicketPayload.nonce p))
                   issued
    else None;
  toLocaleTimeString t := "10:00:00 AM" |}.

Definition svc : JWTService := mkJWTService "PRIVATE" "PUBLIC".

Definition w0 : World :=
  mkWorld [alice; bob] [gala; expo] [] 1700000000123 source 0 key_source 0 [].

(** Alice registers for the free event and receives her credential. *)
Definition registered : World :=
  (run (register (H := platform) svc "u-alice"
          (RegisterTicketInput.mk "e-gala" None)) w0).2.

Definition credential : string := "jwt.rnd-0".

Definition scan : Prog (Response.t ValidationResult.t) :=
  validate (H := platform) svc (presented credential "e-gala").

(** The same credential scanned once, and the world afterwards. *)
Definition checked_in : World := (run scan registered).2.

(** Two scanners reading the same credential at the same time: both
    requests perform their lookup before either performs its write, and
    a quarter of a second passes between the two writes. *)
Definition two_scans : Sys (Response.t ValidationResult.t) :=
  mkSys registered [scan; scan].

Definition both_read_first : list Action :=
  [Turn 0; Turn 1; Turn 0; Tick 250; Turn 1].

(** The same schedule, stopped when only the second write is left. *)
Definition first_has_written : list Action :=
  [Turn 0; Turn 1; Turn 0; Tick 250].

Definition one_after_the_other : list Action :=
  [Turn 0; Turn 0; Tick 250; Turn 1; Turn 1].
End Demo.

(** ** Named parts of [register] *)

Definition register_failed : Response.t RegisterBody :=
  Response.mk 500 (RegisterError "Failed to register for event" None None).

(** The world once the three reads of [register] are logged: the event,
    the caller's existing ticket, the count of sold tickets. *)
Definition after_reads (userId eventId : string) (w : World) : World :=
  log_query (QTicketCount eventId [REGISTERED; CHECKED_IN])
    (log_query (QTicketFindUniqueByUserEvent userId eventId)
       (log_query (QEventFindUnique eventId) w)).

(** The tickets that count against the capacity of an event. *)
Definition sold (eventId : string) (ts : list Ticket.t) : nat :=
  count_tickets eventId [REGISTERED; CHECKED_IN] ts.

(** The payload [generateTicketToken] signs when it is called in [w]. *)
Definition payload_issued_in (userId eventId : string) (w : World) : TicketPayload.t :=
  TicketPayload.mk userId eventId (clock w / 1000)%Z (entropy w (drawn w)).

(** The [data] of the row created for a paid event, and for a free one. *)
Definition paid_ticket_data (userId eventId : string) : TicketCreate.t :=
  TicketCreate.mk userId eventId REGISTERED None None.

Definition free_ticket_data `{Platform} (svc : JWTService) (userId : string)
    (event : Event.t) (eventId : string) (w : World) : TicketCreate.t :=
  TicketCreate.mk userId eventId
    (if (Event.capacity event <=? Z.of_nat (sold eventId (tickets w)))%Z
     then WAITLISTED else REGISTERED)
    (Some (jwt_sign (payload_issued_in userId eventId w) (privateKey svc)))
    (Some (entropy w (drawn w))).

(** The ways a [register] request can end: the response sent and the
    world left behind, one constructor per [return] of the handler (a
    rejected [create] is caught and answered 500). *)
Inductive register_exit `{Platform} (svc : JWTService) (userId : string)
    (body : RegisterTicketInput.t) (w : World)
  : Response.t RegisterBody -> World -> Prop :=
| exit_no_event :
    find_event (RegisterTicketInput.eventId body) (events w) = None ->
    register_exit svc userId body w
      (Response.mk 404 (RegisterError "Event not found" None None))
      (log_query (QEventFindUnique (RegisterTicketInput.eventId body)) w)
| exit_invite event :
    find_event (RegisterTicketInput.eventId body) (events w) = Some event ->
    Event.isPrivate event = true ->
    invite_differs (Event.inviteToken event) (RegisterTicketInput.inviteToken body)
    = true ->
    register_exit svc userId body w
      (Response.mk 403
         (RegisterError "Invalid invite token for private event" None None))
      (log_query (QEventFindUnique (RegisterTicketInput.eventId body)) w)
| exit_conflict event existing :
    find_event (RegisterTicketInput.eventId body) (events w) = Some event ->
    Event.isPrivate event
    && invite_differs (Event.inviteToken event) (RegisterTicketInput.inviteToken body)
    = false ->
    find_ticket_by_user_event userId (RegisterTicketInput.eventId body) (tickets w)
    = Some existing ->
    register_exit svc userId body w
      (Response.mk 409
         (RegisterError "Already registered"
            (Some "You already have a ticket for this event") (Some existing)))
      (log_query (QTicketFindUniqueByUserEvent userId
                    (RegisterTicketInput.eventId body))
         (log_query (QEventFindUnique (RegisterTicketInput.eventId body)) w))
| exit_paid event result w' :
    let eventId := RegisterTicketInput.eventId body in
    find_event eventId (events w) = Some event ->
    Event.isPrivate event
    && invite_differs (Event.inviteToken event) (RegisterTicketInput.inviteToken body)
    = false ->
    find_ticket_by_user_event userId eventId (tickets w) = None ->
    Qle_bool (Event.price event) 0 = false ->
    ticket_create (paid_ticket_data userId eventId) false
      (log_query (QTicketCreate (paid_ticket_data userId eventId))
         (after_reads userId eventId w))
    = (result, w') ->
    register_exit svc userId body w
      (match result with
       | inl _ => register_failed
       | inr created =>
           Response.mk 200
             (RegisterPaid (CreatedTicket.ticket created) true
                "demo_client_secret" (Event.price event))
       end) w'
| exit_free event result w' :
    let eventId := RegisterTicketInput.eventId body in
    let data := free_ticket_data svc userId event eventId w in
    find_event eventId (events w) = Some event ->
    Event.isPrivate event
    && invite_differs (Event.inviteToken event) (RegisterTicketInput.inviteToken body)
    = false ->
    find_ticket_by_user_event userId eventId (tickets w) = None ->
    Qle_bool (Event.price event) 0 = true ->
    ticket_create data true
      (log_query (QTicketCreate data) (draw (after_reads userId eventId w)).2)
    = (result, w') ->
    register_exit svc userId body w
      (match result with
       | inl _ => register_failed
       | inr created => Response.mk 201 (RegisterFree created false)
       end) w'.

(** A request after [n] turns taken one after the other, with nothing
    else served in between. *)
Fixpoint turns {A} (n : nat) (p : Prog A) (w : World) : Prog A * World :=
  match n with
  | O => (p, w)
  | S n' => let (p', w') := turn p w in turns n' p' w'
  end.

(** ** scanner.ts: attendance statistics *)

(** JavaScript's numbers, as far as the statistics compute with them (the
    number a count is, division, multiplication, [Math.round]), and
    [Date.prototype.toISOString]. *)
Class Numbers := {
  number : Type;
  number_of_nat : nat -> number;
  number_div : number -> number -> number;
  number_mul : number -> number -> number;
  Math_round : number -> number;
  toISOString : Z -> string }.

(** shared-types: [AttendanceStats], with the [eventTitle] the route adds. *)
Module AttendanceStats.
Record t (N : Type) := mk {
  eventId : string;
  eventTitle : string;
  totalRegistered : nat;
  totalCheckedIn : nat;
  totalWaitlisted : nat;
  capacity : Z;
  checkInRate : N;
  lastUpdated : string }.
Arguments mk {N} _ _ _ _ _ _ _ _.
Arguments eventId {N} _.
Arguments eventTitle {N} _.
Arguments totalRegistered {N} _.
Arguments totalCheckedIn {N} _.
Arguments totalWaitlisted {N} _.
Arguments capacity {N} _.
Arguments checkInRate {N} _.
Arguments lastUpdated {N} _.
End AttendanceStats.

(** The JSON bodies of GET /api/scanner/stats/:eventId. *)
Inductive StatsBody (N : Type) :=
| StatsError (error : string)
| StatsOk (stats : AttendanceStats.t N).
Arguments StatsError {N} error.
Arguments StatsOk {N} stats.

Section Stats.
Context `{Numbers}.

(** scanner.ts: GET /api/scanner/stats/:eventId.  The three counts are
    started together ([Promise.all]); they are sent here in the order in
    which they are listed. *)
Definition stats (eventId : string) : Prog (Response.t (StatsBody number)) :=
  try_catch
    (found <- perform (EventFindUnique eventId) ;;
     match found with
     | None => Ret (Response.mk 404 (StatsError "Event not found"))
     | Some event =>
         totalRegistered <- perform (TicketCountIn eventId [REGISTERED]) ;;
         totalCheckedIn <- perform (TicketCountIn eventId [CHECKED_IN]) ;;
         totalWaitlisted <- perform (TicketCountIn eventId [WAITLISTED]) ;;
         let totalTickets := (totalRegistered + totalCheckedIn)%nat in
         let checkInRate :=
           if (0 <? totalTickets)%nat
           then number_mul
                  (number_div (number_of_nat totalCheckedIn)
                              (number_of_nat totalTickets))
                  (number_of_nat 100)
           else number_of_nat 0 in
         now <- perform DateNow ;;
         Ret (Response.mk 200
                (StatsOk
                   (AttendanceStats.mk (Event.id event) (Event.title event)
                      totalRegistered totalCheckedIn totalWaitlisted
                      (Event.capacity event)
                      (number_div
                         (Math_round (number_mul checkInRate (number_of_nat 100)))
                         (number_of_nat 100))
                      (toISOString now))))
     end)
    (fun _ => Ret (Response.mk 500 (StatsError "Failed to fetch statistics"))).
End Stats.

(** ** jwt-core: access tokens *)

(** jwt-core: [UserAuthPayload]. *)
Module UserAuthPayload.
Record t := mk { sub : string; email : string; role : string; iat : Z; exp : Z }.
End UserAuthPayload.

(** [jwt.sign] and [jwt.verify] of jsonwebtoken with the HS256 algorithm:
    given the payload or token, the secret and, for [verify], the clock
    it reads ([None] stands for a thrown verification error). *)
Class AccessTokens := {
  jwt_sign_hs256 : UserAuthPayload.t -> string -> string;
  jwt_verify_hs256 : string -> string -> Z -> option UserAuthPayload.t }.

Section AccessTokens.
Context `{AccessTokens}.

(** [process.env.JWT_ACCESS_TOKEN_SECRET]; [None] when it is not set. *)
Variable JWT_ACCESS_TOKEN_SECRET : option string.

(** [process.env.JWT_ACCESS_TOKEN_SECRET || 'fallback_secret_change_in_production']. *)
Definition access_token_secret : string :=
  if falsy JWT_ACCESS_TOKEN_SECRET then "fallback_secret_change_in_production"
  else default "" JWT_ACCESS_TOKEN_SECRET.

(** [Date.now()] is read once for [iat] and once for [exp]; the caller
    passes the two readings. *)
Definition generateAccessToken (userId email role : string) (now_iat now_exp : Z)
  : string :=
  jwt_sign_hs256
    (UserAuthPayload.mk userId email role
       (now_iat / 1000)%Z (now_exp / 1000 + 24 * 60 * 60)%Z)
    access_token_secret.

(** [jwt.verify] reads the clock; the caller passes the reading. *)
Definition verifyAccessToken (token : string) (now : Z) : option UserAuthPayload.t :=
  jwt_verify_hs256 token access_token_secret now.
End AccessTokens.

(** ** middleware/auth.ts *)

(** [AuthRequest.user]. *)
Module AuthUser.
Record t := mk { id : string; email : string; role : string }.
End AuthUser.

(** The JSON body [{ error, message }] of a refused request. *)
Module Refusal.
Record t := mk { error : string; message : string }.
End Refusal.

(** What a middleware does with a request: it answers it, or it calls
    [next()], having put [a] on the request. *)
Inductive Passage (A : Type) :=
| Answered (r : Response.t Refusal.t)
| Next (a : A).
Arguments Answered {A} r.
Arguments Next {A} a.

(** [s.substring(n)]: the string from position [n] to the end. *)
Definition substring_from (n : nat) (s : string) : string :=
  String.substring n (String.length s - n) s.

Section Middleware.
Context `{AccessTokens}.
Variable JWT_ACCESS_TOKEN_SECRET : option string.

(** [authenticate], given the request's [Authorization] header and the
    clock reading of [jwt.verify]. *)
Definition authenticate (authorization : option string) (now : Z)
  : Passage AuthUser.t :=
  if falsy authorization
     || negb (String.prefix "Bearer " (default "" authorization)) then
    Answered (Response.mk 401 (Refusal.mk "Unauthorized" "No token provided"))
  else
    let token := substring_from 7 (default "" authorization) in
    match verifyAccessToken JWT_ACCESS_TOKEN_SECRET token now with
    | None =>
        Answered (Response.mk 401
                    (Refusal.mk "Unauthorized" "Invalid or expired token"))
    | Some payload =>
        Next (AuthUser.mk (UserAuthPayload.sub payload)
                (UserAuthPayload.email payload) (UserAuthPayload.role payload))
    end.
End Middleware.

(** tickets.ts: [router.post('/register', authenticate, ...)], the route
    as the server mounts it: the handler runs on the requests that
    [authenticate] lets through, with [req.user.id] as the caller. *)
Definition post_register `{Platform} `{AccessTokens}
    (JWT_ACCESS_TOKEN_SECRET : option string) (jwtService : JWTService)
    (authorization : option string) (body : RegisterTicketInput.t)
  : Prog (Response.t RegisterBody) :=
  now <- perform DateNow ;;
  match authenticate JWT_ACCESS_TOKEN_SECRET authorization now with
  | Answered r =>
      Ret (Response.mk (Response.code r)
             (RegisterError (Refusal.error (Response.body r))
                (Some (Refusal.message (Response.body r))) None))
  | Next user => register jwtService (AuthUser.id user) body
  end.

(** ** routes/auth.ts: accounts *)

(** shared-types: [UserRole], and the string a role is in a token. *)
Inductive UserRole := ATTENDEE | ORGANIZER | ADMIN.

Definition role_text (r : UserRole) : string :=
  match r with
  | ATTENDEE => "ATTENDEE"
  | ORGANIZER => "ORGANIZER"
  | ADMIN => "ADMIN"
  end.

(** A row of the user table, with the columns the account routes name. *)
Module Account.
Record t := mk {
  id : string;
  email : string;
  passwordHash : string;
  fullName : string;
  role : UserRole;
  createdAt : Z;
  updatedAt : Z }.
End Account.

(** shared-types: [User], what an answer shows of an account: the
    [select] of [create], and the object [login] builds.  The password
    hash is not among its fields. *)
Module Profile.
Record t := mk {
  id : string;
  email : string;
  fullName : string;
  role : UserRole;
  createdAt : Z;
  updatedAt : Z }.
Definition of_account (a : Account.t) : t :=
  mk (Account.id a) (Account.email a) (Account.fullName a) (Account.role a)
     (Account.createdAt a) (Account.updatedAt a).
End Profile.

(** shared-types: [RegisterInput] and [LoginInput]; a field missing from
    the request body is [None]. *)
Module RegisterInput.
Record t := mk {
  email : option string;
  password : option string;
  fullName : option string }.
End RegisterInput.

Module LoginInput.
Record t := mk { email : option string; password : option string }.
End LoginInput.

(** shared-types: [AuthResponse], and the error body [{ error }]. *)
Inductive AuthBody :=
| AuthError (error : string)
| AuthOk (token : string) (user : Profile.t).

(** The bcrypt package: [hash(password, rounds)], given the salt it
    generates, and [compare(password, hash)]. *)
Class Bcrypt := {
  bcrypt_hash : string -> nat -> string -> string;
  bcrypt_compare : string -> string -> bool }.

(** What the account routes run in: the user table, the wall clock, the
    salts bcrypt will generate and the primary keys the store will
    generate. *)
Module Directory.
Record t := mk {
  accounts : list Account.t;
  clock : Z;
  salts : nat -> string;
  salted : nat;
  keys : nat -> string;
  created : nat }.
End Directory.

(** [prisma.user.findUnique({ where: { email } })]. *)
Definition find_account_by_email (email : string) (rows : list Account.t)
  : option Account.t :=
  List.find (fun a => bool_decide (Account.email a = email)) rows.

Definition find_account_by_id (id : string) (rows : list Account.t)
  : option Account.t :=
  List.find (fun a => bool_decide (Account.id a = id)) rows.

(** The salt of the next [bcrypt.hash]. *)
Definition next_salt (d : Directory.t) : string * Directory.t :=
  (Directory.salts d (Directory.salted d),
   Directory.mk (Directory.accounts d) (Directory.clock d) (Directory.salts d)
     (S (Directory.salted d)) (Directory.keys d) (Directory.created d)).

(** [prisma.user.create({ data })].  The schema is not among the sources:
    [email] is taken to be a unique column, since [findUnique] is keyed by
    it; the store generates the primary key and stamps the two timestamps
    with its clock. *)
Definition user_create (email passwordHash fullName : string) (role : UserRole)
    (d : Directory.t) : (PrismaError + Account.t) * Directory.t :=
  let id := Directory.keys d (Directory.created d) in
  let store rows :=
    Directory.mk rows (Directory.clock d) (Directory.salts d) (Directory.salted d)
      (Directory.keys d) (S (Directory.created d)) in
  match find_account_by_email email (Directory.accounts d),
        find_account_by_id id (Directory.accounts d) with
  | None, None =>
      let a := Account.mk id email passwordHash fullName role
                 (Directory.clock d) (Directory.clock d) in
      (inr a, store (Directory.accounts d ++ [a])%list)
  | _, _ => (inl UniqueConstraintFailed, store (Directory.accounts d))
  end.

Arguments find_account_by_email : simpl never.
Arguments find_account_by_id : simpl never.

Section AuthRoutes.
Context `{AccessTokens} `{Bcrypt}.
Variable JWT_ACCESS_TOKEN_SECRET : option string.

(** auth.ts: POST /api/auth/register.  The length of a string is the
    number of its characters. *)
Definition auth_register (body : RegisterInput.t) (d : Directory.t)
  : Response.t AuthBody * Directory.t :=
  if falsy (RegisterInput.email body) || falsy (RegisterInput.password body)
     || falsy (RegisterInput.fullName body) then
    (Response.mk 400 (AuthError "Missing required fields"), d)
  else
    let email := default "" (RegisterInput.email body) in
    let password := default "" (RegisterInput.password body) in
    let fullName := default "" (RegisterInput.fullName body) in
    if (String.length password <? 8)%nat then
      (Response.mk 400 (AuthError "Password must be at least 8 characters"), d)
    else
      (* Check if user already exists *)
      match find_account_by_email email (Directory.accounts d) with
      | Some _ => (Response.mk 409 (AuthError "Email already registered"), d)
      | None =>
          (* Hash password *)
          let (salt, d1) := next_salt d in
          let passwordHash := bcrypt_hash password 10 salt in
          (* Create user *)
          match user_create email passwordHash fullName ATTENDEE d1 with
          | (inl _, d2) => (Response.mk 500 (AuthError "Registration failed"), d2)
          | (inr user, d2) =>
              (* Generate access token *)
              let token :=
                generateAccessToken JWT_ACCESS_TOKEN_SECRET (Account.id user)
                  (Account.email user) (role_text (Account.role user))
                  (Directory.clock d2) (Directory.clock d2) in
              (Response.mk 201 (AuthOk token (Profile.of_account user)), d2)
          end
      end.

(** auth.ts: POST /api/auth/login. *)
Definition auth_login (body : LoginInput.t) (d : Directory.t)
  : Response.t AuthBody * Directory.t :=
  if falsy (LoginInput.email body) || falsy (LoginInput.password body) then
    (Response.mk 400 (AuthError "Missing email or password"), d)
  else
    let email := default "" (LoginInput.email body) in
    let password := default "" (LoginInput.password body) in
    (* Find user *)
    match find_account_by_email email (Directory.accounts d) with
    | None => (Response.mk 401 (AuthError "Invalid credentials"), d)
    | Some user =>
        (* Verify password *)
        if negb (bcrypt_compare password (Account.passwordHash user)) then
          (Response.mk 401 (AuthError "Invalid credentials"), d)
        else
          let token :=
            generateAccessToken JWT_ACCESS_TOKEN_SECRET (Account.id user)
              (Account.email user) (role_text (Account.role user))
              (Directory.clock d) (Directory.clock d) in
          (Response.mk 200 (AuthOk token (Profile.of_account user)), d)
    end.
End AuthRoutes.

(** Time passing between two requests to the account routes. *)
Definition later (dt : Z) (d : Directory.t) : Directory.t :=
  Directory.mk (Directory.accounts d) (Directory.clock d + dt)%Z (Directory.salts d)
    (Directory.salted d) (Directory.keys d) (Directory.created d).

(** ** routes/events.ts: event details *)

(** The JSON bodies of GET /api/events/:id: an error, or the event with
    the availability the route adds ([ticketsSold], [spotsAvailable],
    [isSoldOut]).  The included organizer and the [_count] object, which
    repeats [ticketsSold], are left out. *)
Inductive EventBody :=
| EventError (error : string)
| EventDetails (event : Event.t) (ticketsSold : nat) (spotsAvailable : Z)
    (isSoldOut : bool).

(** events.ts: GET /api/events/:id.  The [_count] of the [include] is
    part of the same [findUnique] call; it is written as the count the
    store performs for it. *)
Definition get_event (id : string) : Prog (Response.t EventBody) :=
  try_catch
    (found <- perform (EventFindUnique id) ;;
     match found with
     | None => Ret (Response.mk 404 (EventError "Event not found"))
     | Some event =>
         count <- perform (TicketCountIn id [REGISTERED; CHECKED_IN]) ;;
         if Event.isPrivate event then
           Ret (Response.mk 403 (EventError "This is a private event"))
         else
           Ret (Response.mk 200
                  (EventDetails event count
                     (Event.capacity event - Z.of_nat count)%Z
                     (Event.capacity event <=? Z.of_nat count)%Z))
     end)
    (fun _ => Ret (Response.mk 500 (EventError "Failed to fetch event"))).

(** ** More worlds to run the routes in *)

Module Tour.
(** The free event of [Demo] with no seat at all, and with a single seat. *)
Definition gala_full : Event.t :=
  Event.mk "e-gala" "Gala" 1700600000000 0 0 false None.
Definition gala_last_seat : Event.t :=
  Event.mk "e-gala" "Gala" 1700600000000 0 1 false None.

Definition sold_out : World :=
  mkWorld [Demo.alice; Demo.bob] [gala_full] [] 1700000000123
          Demo.source 0 Demo.key_source 0 [].

Definition last_seat : World :=
  mkWorld [Demo.alice; Demo.bob] [gala_last_seat] [] 1700000000123
          Demo.source 0 Demo.key_source 0 [].

Definition for_gala : RegisterTicketInput.t := RegisterTicketInput.mk "e-gala" None.

(** Alice takes the last seat. *)
Definition last_seat_taken : World :=
  (run (register (H := Demo.platform) Demo.svc "u-alice" for_gala) last_seat).2.

(** A stand-in for JavaScript's numbers (whole percentages) and dates. *)
Definition numbers : Numbers := {|
  number := Z;
  number_of_nat := Z.of_nat;
  number_div := Z.div;
  number_mul := Z.mul;
  Math_round := fun x => x;
  toISOString := fun _ => "2023-11-14T22:13:20.123Z" |}.

(** Alice's access token, and a stand-in for jsonwebtoken's HS256: a
    token is valid until it expires, when it was signed with the same
    secret for one of the payloads in [signed]. *)
Definition alice_access : UserAuthPayload.t :=
  UserAuthPayload.mk "u-alice" "alice@example.com" "ATTENDEE" 1700000000 1700086400.

Definition signed : list UserAuthPayload.t := [alice_access].

Definition hs256 (p : UserAuthPayload.t) (secret : string) : string :=
  "hs256." +:+ secret +:+ "." +:+ UserAuthPayload.sub p.

Definition access_tokens : AccessTokens := {|
  jwt_sign_hs256 := hs256;
  jwt_verify_hs256 token secret now :=
    List.find (fun p => bool_decide (token = hs256 p secret)
                        && (now / 1000 <? UserAuthPayload.exp p)%Z) signed |}.

Definition secret : option string := Some "s3cret".

(** A stand-in for bcrypt. *)
Definition bcrypt : Bcrypt := {|
  bcrypt_hash password rounds salt := "$2b$" +:+ salt +:+ "$" +:+ password;
  bcrypt_compare password hash :=
    bool_decide (hash = "$2b$" +:+ "salt-0" +:+ "$" +:+ password) |}.

(** A directory with no account yet. *)
Definition empty_directory : Directory.t :=
  Directory.mk [] 1700000000123 (fun _ => "salt-0") 0 (fun _ => "u-alice") 0.

Definition alice_signs_up : RegisterInput.t :=
  RegisterInput.mk (Some "alice@example.com") (Some "correct horse")
    (Some "Alice").
End Tour.

(** ** The store's operations *)

Lemma find_ticket_by_nonce_Some (n : string) (ts : list Ticket.t) (t : Ticket.t) :
  find_ticket_by_nonce n ts = Some t -> In t ts /\ Ticket.nonce t = Some n.
Proof.
  intros [Hin Hn]%find_some. split; [done|].
  by apply bool_decide_eq_true_1 in Hn.
Qed.

Lemma find_ticket_by_id_Some (id : string) (ts : list Ticket.t) (t : Ticket.t) :
  find_ticket_by_id id ts = Some t -> In t ts /\ Ticket.id t = id.
Proof.
  intros [Hin Hn]%find_some. split; [done|].
  by apply bool_decide_eq_true_1 in Hn.
Qed.

(** Under a unique primary key, looking a stored row up by its id gives
    that row back. *)
Lemma find_ticket_by_id_In (ts : list Ticket.t) (t : Ticket.t) :
  NoDup (map Ticket.id ts) -> In t ts -> find_ticket_by_id (Ticket.id t) ts = Some t.
Proof.
  unfold find_ticket_by_id.
  induction ts as [|x ts IH]; cbn; [done|].
  intros Hnd [->|Hin].
  - by rewrite bool_decide_eq_true_2.
  - apply NoDup_cons in Hnd as [Hx Hnd].
    rewrite bool_decide_eq_false_2; [by apply IH|].
    intros Heq. apply Hx. rewrite Heq.
    apply list_elem_of_In, in_map, Hin.
Qed.

Lemma replace_ticket_ids (id : string) (t' : Ticket.t) (ts : list Ticket.t) :
  Ticket.id t' = id ->
  map Ticket.id (replace_ticket id t' ts) = map Ticket.id ts.
Proof.
  intros Hid. induction ts as [|x ts IH]; cbn; [done|].
  case_bool_decide as Hx; cbn; [by rewrite Hid, Hx|by rewrite IH].
Qed.

(** Replacing a row by one for the same user and event keeps the
    (user, event) pairs of the table. *)
Lemma replace_ticket_pairs (id : string) (t' t0 : Ticket.t) (ts : list Ticket.t) :
  find_ticket_by_id id ts = Some t0 ->
  Ticket.userId t' = Ticket.userId t0 ->
  Ticket.eventId t' = Ticket.eventId t0 ->
  map (fun t => (Ticket.userId t, Ticket.eventId t)) (replace_ticket id t' ts)
  = map (fun t => (Ticket.userId t, Ticket.eventId t)) ts.
Proof.
  unfold find_ticket_by_id. intros Hf Hu He.
  induction ts as [|y ts IH]; cbn in *; [done|].
  case_bool_decide as Hy; cbn.
  - injection Hf as ->. by rewrite Hu, He.
  - by rewrite IH.
Qed.


Lemma replace_ticket_In (id : string) (t' : Ticket.t) (ts : list Ticket.t) :
  is_Some (find_ticket_by_id id ts) -> In t' (replace_ticket id t' ts).
Proof.
  unfold find_ticket_by_id.
  induction ts as [|y ts IH]; cbn; [by intros [? ?]|].
  case_bool_decide; [by left|]. intros Hs. right. by apply IH.
Qed.

(** An update touches the ticket table only. *)
Lemma ticket_update_frame (id : string) (d : TicketUpdate.t) (w : World) :
  let w' := (ticket_update id d w).2 in
  users w' = users w /\ events w' = events w /\ clock w' = clock w
  /\ entropy w' = entropy w /\ drawn w' = drawn w /\ queries w' = queries w.
Proof.
  unfold ticket_update.
  destruct (find_ticket_by_id id (tickets w)); [|done].
  by destruct (nonce_taken id (TicketUpdate.nonce d) (tickets w)).
Qed.


Lemma NoDup_omap_In_inj {A B} (f : A -> option B) (l : list A) (x y : A) (b : B) :
  NoDup (omap f l) -> In x l -> In y l -> f x = Some b -> f y = Some b -> x = y.
Proof.
  induction l as [|a l IH]; cbn; [done|].
  assert (forall z, In z l -> f z = Some b -> b ∈ omap f l) as Hmem.
  { intros z Hz Hfz. apply list_elem_of_omap. exists z.
    split; [by apply list_elem_of_In|done]. }
  intros Hnd [->|Hx] [->|Hy] Hfx Hfy; try done.
  - rewrite Hfx in Hnd. apply NoDup_cons in Hnd as [Hb _].
    exfalso. apply Hb. by eapply Hmem.
  - rewrite Hfy in Hnd. apply NoDup_cons in Hnd as [Hb _].
    exfalso. apply Hb. by eapply Hmem.
  - apply IH; try done. destruct (f a); [by apply NoDup_cons in Hnd as [_ ?]|done].
Qed.

Lemma NoDup_omap_intro {A B} (f : A -> option B) (l : list A) :
  NoDup l ->
  (forall x y b, In x l -> In y l -> f x = Some b -> f y = Some b -> x = y) ->
  NoDup (omap f l).
Proof.
  induction l as [|a l IH]; cbn; [constructor|].
  intros [Ha Hnd]%NoDup_cons Hinj.
  assert (NoDup (omap f l)) as Hrest.
  { apply IH; [done|]. intros x y b Hx Hy. apply Hinj; by right. }
  destruct (f a) as [b|] eqn:Hfa; [|done].
  apply NoDup_cons. split; [|done].
  intros (x & Hx & Hfx)%list_elem_of_omap. apply Ha.
  apply list_elem_of_In in Hx.
  rewrite (Hinj a x b); [by apply list_elem_of_In|by left|by right|done..].
Qed.

(** Under a unique primary key a replacement holds the new row and the
    rows with another key. *)
Lemma replace_ticket_inv (id : string) (t' x : Ticket.t) (ts : list Ticket.t) :
  NoDup (map Ticket.id ts) ->
  In x (replace_ticket id t' ts) -> x = t' \/ (In x ts /\ Ticket.id x <> id).
Proof.
  induction ts as [|y ts IH]; cbn; [done|].
  intros [Hy Hnd]%NoDup_cons. case_bool_decide as Hid.
  - intros [<-|Hin]; [by left|]. right. split; [by right|].
    intros Hx. apply Hy. rewrite Hid, <- Hx.
    by apply list_elem_of_In, in_map.
  - intros [<-|Hin]; [right; split; [by left|done]|].
    destruct (IH Hnd Hin) as [->|[Hin' Hne]]; [by left|].
    right. split; [by right|done].
Qed.

Lemma find_replace_ticket (id : string) (t' : Ticket.t) (ts : list Ticket.t) :
  is_Some (find_ticket_by_id id ts) -> Ticket.id t' = id ->
  find_ticket_by_id id (replace_ticket id t' ts) = Some t'.
Proof.
  unfold find_ticket_by_id. intros Hsome Hid.
  induction ts as [|y ts IH]; cbn in *; [by destruct Hsome|].
  case_bool_decide as Hy; cbn.
  - by rewrite bool_decide_eq_true_2.
  - rewrite bool_decide_eq_false_2 by done. by apply IH.
Qed.

Lemma nonce_taken_false (id : string) (n : string) (ts : list Ticket.t) (x : Ticket.t) :
  nonce_taken id (Some n) ts = false ->
  In x ts -> Ticket.nonce x = Some n -> Ticket.id x = id.
Proof.
  unfold nonce_taken. intros Hfree Hx Hn.
  destruct (decide (Ticket.id x = id)) as [|Hne]; [done|exfalso].
  assert (existsb (fun t => bool_decide (Ticket.nonce t = Some n)
                            && negb (bool_decide (Ticket.id t = id))) ts = true)
    as Hex; [|congruence].
  apply existsb_exists. exists x. split; [done|].
  by rewrite bool_decide_eq_true_2, bool_decide_eq_false_2.
Qed.

Lemma nonce_taken_replace (id : string) (n : option string) (t' : Ticket.t)
    (ts : list Ticket.t) :
  Ticket.id t' = id ->
  nonce_taken id n (replace_ticket id t' ts) = nonce_taken id n ts.
Proof.
  intros Hid. destruct n as [v|]; [|done]. cbn.
  induction ts as [|y ts IH]; cbn; [done|].
  case_bool_decide as Hy; cbn.
  - rewrite (bool_decide_eq_true_2 (Ticket.id t' = id)) by done. cbn.
    by rewrite !andb_false_r.
  - by rewrite IH, (bool_decide_eq_false_2 _ Hy).
Qed.

Lemma next_random_unused_not_taken (w : World) (id : string) :
  next_random_unused w = true ->
  nonce_taken id (Some (entropy w (drawn w))) (tickets w) = false.
Proof.
  unfold next_random_unused, nonce_taken. intros Hu%negb_true_iff.
  apply not_true_is_false. intros (x & Hin & Hx)%existsb_exists.
  apply andb_prop in Hx as [Hx _].
  assert (existsb (fun t => bool_decide (Ticket.nonce t = Some (entropy w (drawn w))))
                  (tickets w) = true) as Hex by (apply existsb_exists; eauto).
  congruence.
Qed.

(** What a successful update did. *)
Lemma ticket_update_inr (id : string) (d : TicketUpdate.t) (w w' : World)
    (updated : TicketWithDetails.t) :
  ticket_update id d w = (inr updated, w') ->
  exists t0,
    find_ticket_by_id id (tickets w) = Some t0
    /\ nonce_taken id (TicketUpdate.nonce d) (tickets w) = false
    /\ w' = set_tickets (replace_ticket id (apply_update d t0) (tickets w)) w
    /\ updated = with_details w' (apply_update d t0).
Proof.
  unfold ticket_update.
  destruct (find_ticket_by_id id (tickets w)) as [t0|]; [|done].
  destruct (nonce_taken id (TicketUpdate.nonce d) (tickets w)) eqn:Hn; [done|].
  intros [= <- <-]. by exists t0.
Qed.

Lemma ticket_update_inl (id : string) (d : TicketUpdate.t) (w w' : World)
    (err : PrismaError) :
  ticket_update id d w = (inl err, w') -> w' = w.
Proof.
  unfold ticket_update.
  destruct (find_ticket_by_id id (tickets w)); [|congruence].
  destruct (nonce_taken id (TicketUpdate.nonce d) (tickets w)); congruence.
Qed.

Lemma ticket_update_succeeds (id : string) (d : TicketUpdate.t) (w : World)
    (t0 : Ticket.t) :
  find_ticket_by_id id (tickets w) = Some t0 ->
  nonce_taken id (TicketUpdate.nonce d) (tickets w) = false ->
  ticket_update id d w
  = let w' := set_tickets (replace_ticket id (apply_update d t0) (tickets w)) w in
    (inr (with_details w' (apply_update d t0)), w').
Proof. intros Hf Hn. unfold ticket_update. by rewrite Hf, Hn. Qed.

(** What [create] leaves behind: nothing on failure, one appended row with
    the given columns, a generated id and no check-in time on success. *)
Lemma ticket_create_effect (d : TicketCreate.t) (include : bool) (w : World) :
  let w' := (ticket_create d include w).2 in
  users w' = users w /\ events w' = events w
  /\ match (ticket_create d include w).1 with
     | inl _ => tickets w' = tickets w
     | inr c =>
         tickets w' = (tickets w ++ [CreatedTicket.ticket c])%list
         /\ CreatedTicket.ticket c
            = Ticket.mk (keys w (created w)) (TicketCreate.jwtToken d)
                (TicketCreate.status d) (TicketCreate.nonce d) None
                (TicketCreate.userId d) (TicketCreate.eventId d)
     end.
Proof.
  unfold ticket_create, next_key. lazy beta iota zeta.
  destruct (find_user _ _); [|done].
  destruct (find_event _ _); [|done].
  destruct (find_ticket_by_id _ _); [done|].
  destruct (find_ticket_by_user_event _ _ _); [done|].
  destruct (nonce_taken _ _ _); [done|].
  by destruct include.
Qed.

(** The access log records each statement as it is handled, and nothing
    else. *)
Lemma handle_log {X} (op : Eff X) (w : World) :
  queries (handle op w).2 = (queries w ++ option_list (statement op))%list.
Proof.
  destruct op; cbn [handle statement option_list]; try done.
  - cbn. by rewrite app_nil_r.
  - cbn. by rewrite app_nil_r.
  - unfold ticket_create, next_key. lazy beta iota zeta.
    cbn [users events tickets].
    destruct (find_user _ _); [|done].
    destruct (find_event _ _); [|done].
    destruct (find_ticket_by_id _ _); [done|].
    destruct (find_ticket_by_user_event _ _ _); [done|].
    by destruct (nonce_taken _ _ _).
  - by destruct (ticket_update_frame id data (log_query (QTicketUpdate id data) w))
      as (_ & _ & _ & _ & _ & ->).
Qed.

(** ** The schema is an invariant *)

Lemma schema_holds_elim (w : World) :
  schema_holds w = true ->
  NoDup (map Ticket.id (tickets w))
  /\ NoDup (omap Ticket.nonce (tickets w))
  /\ forall t, In t (tickets w) ->
               is_Some (find_user (Ticket.userId t) (users w))
               /\ is_Some (find_event (Ticket.eventId t) (events w)).
Proof.
  unfold schema_holds, primary_keys_unique, nonces_unique, foreign_keys_hold.
  intros [[[Hid _]%andb_prop Hn]%andb_prop Hfk]%andb_prop.
  apply bool_decide_eq_true_1 in Hid. apply bool_decide_eq_true_1 in Hn.
  split; [done|]. split; [done|].
  intros t Hin. rewrite forallb_forall in Hfk.
  apply Hfk in Hin. apply andb_prop in Hin as [Hu He].
  split; by eapply bool_decide_eq_true_1.
Qed.

Lemma schema_holds_pairs (w : World) :
  schema_holds w = true ->
  NoDup (map (fun t => (Ticket.userId t, Ticket.eventId t)) (tickets w)).
Proof.
  unfold schema_holds, pairs_unique.
  intros [[[_ Hp]%andb_prop _]%andb_prop _]%andb_prop.
  by apply bool_decide_eq_true_1 in Hp.
Qed.

Lemma schema_holds_intro (w : World) :
  NoDup (map Ticket.id (tickets w)) ->
  NoDup (map (fun t => (Ticket.userId t, Ticket.eventId t)) (tickets w)) ->
  NoDup (omap Ticket.nonce (tickets w)) ->
  (forall t, In t (tickets w) ->
             is_Some (find_user (Ticket.userId t) (users w))
             /\ is_Some (find_event (Ticket.eventId t) (events w))) ->
  schema_holds w = true.
Proof.
  intros Hids Hpairs Hn Hfk.
  unfold schema_holds, primary_keys_unique, pairs_unique, nonces_unique,
    foreign_keys_hold.
  rewrite !bool_decide_eq_true_2 by done. cbn.
  apply forallb_forall. intros t [Hu He]%Hfk.
  by rewrite !bool_decide_eq_true_2.
Qed.

(** A store without tickets satisfies the schema. *)
Lemma schema_holds_empty (w : World) : tickets w = [] -> schema_holds w = true.
Proof.
  intros Hnone. apply schema_holds_intro; rewrite Hnone; cbn;
    [constructor..|intros t []].
Qed.

(** A successful update keeps the schema. *)
Lemma ticket_update_schema (id : string) (d : TicketUpdate.t) (w : World) :
  schema_holds w = true -> schema_holds (ticket_update id d w).2 = true.
Proof.
  intros Hschema. unfold ticket_update.
  destruct (find_ticket_by_id id (tickets w)) as [t0|] eqn:Hf0; [|done].
  destruct (nonce_taken id (TicketUpdate.nonce d) (tickets w)) eqn:Hfree; [done|].
  cbn.
  pose proof (schema_holds_pairs w Hschema) as Hpairs.
  pose proof (replace_ticket_pairs id (apply_update d t0) t0 (tickets w) Hf0
                eq_refl eq_refl) as Hsame.
  apply schema_holds_elim in Hschema as (Hids & Hnonces & Hfk).
  apply find_ticket_by_id_Some in Hf0 as [Hin0 Hid0].
  set (t' := apply_update d t0).
  assert (forall x, In x (replace_ticket id t' (tickets w)) ->
                    x = t' \/ (In x (tickets w) /\ Ticket.id x <> id)) as Hinv.
  { intros x. by apply replace_ticket_inv. }
  apply schema_holds_intro; cbn.
  - by rewrite replace_ticket_ids.
  - unfold t'. by rewrite Hsame.
  - apply NoDup_omap_intro.
    { apply (NoDup_fmap_1 Ticket.id). change (NoDup (map Ticket.id (replace_ticket id t' (tickets w)))).
      by rewrite replace_ticket_ids. }
    assert (forall x b, In x (tickets w) -> Ticket.id x <> id ->
                        Ticket.nonce x = Some b -> Ticket.nonce t' = Some b -> False)
      as Hclash.
    { intros x b Hx Hne Hxb Htb. subst t'. cbn in Htb.
      destruct (TicketUpdate.nonce d) as [n|].
      - injection Htb as ->. apply Hne. by eapply nonce_taken_false.
      - apply Hne. rewrite <- Hid0. f_equal.
        by apply (NoDup_omap_In_inj Ticket.nonce (tickets w) x t0 b). }
    intros x y b [->|[Hx Hxne]]%Hinv [->|[Hy Hyne]]%Hinv Hxb Hyb; try done.
    + exfalso. by eapply Hclash.
    + exfalso. by eapply Hclash.
    + by apply (NoDup_omap_In_inj Ticket.nonce (tickets w) x y b).
  - intros x [->|[Hx _]]%Hinv; [|by apply Hfk]. subst t'. cbn. by apply Hfk.
Qed.

(** A successful creation keeps the schema. *)
Lemma ticket_create_schema (d : TicketCreate.t) (include : bool) (w : World) :
  schema_holds w = true -> schema_holds (ticket_create d include w).2 = true.
Proof.
  intros Hschema. unfold ticket_create, next_key. lazy beta iota zeta.
  cbn [users events tickets].
  destruct (find_user _ _) as [u|] eqn:Hu; [|done].
  destruct (find_event _ _) as [e|] eqn:He; [|done].
  destruct (find_ticket_by_id _ _) eqn:Hid; [done|].
  destruct (find_ticket_by_user_event _ _ _) eqn:Hpair; [done|].
  destruct (nonce_taken _ _ _) eqn:Hfree; [done|].
  pose proof (schema_holds_pairs w Hschema) as Hpairs.
  replace (snd _) with
    (set_tickets
       (tickets w ++
        [Ticket.mk (keys w (created w)) (TicketCreate.jwtToken d)
           (TicketCreate.status d) (TicketCreate.nonce d) None
           (TicketCreate.userId d) (TicketCreate.eventId d)])%list
       (next_key w).2) by (by destruct include).
  apply schema_holds_elim in Hschema as (Hids & Hnonces & Hfk).
  assert (forall x, In x (tickets w) -> Ticket.id x <> keys w (created w)) as Hnew.
  { intros x Hx Heq.
    assert (is_Some (find_ticket_by_id (keys w (created w)) (tickets w))) as [? Hs];
      [|unfold find_ticket_by_id in *; cbn in *; congruence].
    unfold find_ticket_by_id.
    destruct (find _ _) eqn:Hnone; [done|exfalso].
    eapply find_none in Hnone; [|done]. cbn in Hnone.
    by apply bool_decide_eq_false_1 in Hnone. }
  apply schema_holds_intro; cbn.
  - rewrite map_app. apply NoDup_app. split; [done|]. split.
    + intros i (x & -> & Hx%list_elem_of_In)%list_elem_of_fmap.
      cbn. intros [Heq|[]%elem_of_nil]%elem_of_cons. by eapply Hnew.
    + cbn. apply NoDup_singleton.
  - rewrite map_app. apply NoDup_app. split; [done|]. split.
    + intros i (x & -> & Hx%list_elem_of_In)%list_elem_of_fmap.
      cbn. intros [[= Hu' He']|[]%elem_of_nil]%elem_of_cons.
      unfold find_ticket_by_user_event in Hpair.
      eapply find_none in Hpair; [|done]. cbn in Hpair.
      by rewrite !bool_decide_eq_true_2 in Hpair.
    + cbn. apply NoDup_singleton.
  - apply NoDup_omap_intro.
    { apply (NoDup_fmap_1 Ticket.id). rewrite fmap_app. apply NoDup_app.
      split; [done|]. split; [|apply NoDup_singleton].
      intros i (x & -> & Hx%list_elem_of_In)%list_elem_of_fmap.
      cbn. intros [Heq|[]%elem_of_nil]%elem_of_cons. by eapply Hnew. }
    assert (forall x b, In x (tickets w) -> Ticket.nonce x = Some b ->
                        TicketCreate.nonce d = Some b -> False) as Hclash.
    { intros x b Hx Hxb Hdb. rewrite Hdb in Hfree.
      apply (Hnew x Hx). by eapply nonce_taken_false. }
    intros x y b [Hx|[<-|[]]]%in_app_or [Hy|[<-|[]]]%in_app_or Hxb Hyb; try done.
    + by apply (NoDup_omap_In_inj Ticket.nonce (tickets w) x y b).
    + exfalso. by eapply Hclash.
    + exfalso. by eapply Hclash.
  - intros x [Hx|[<-|[]]]%in_app_or; [by apply Hfk|]. cbn. by rewrite Hu, He.
Qed.

(** Whatever a handler asks of its environment, the schema survives. *)
Lemma handle_schema {X} (op : Eff X) (w : World) :
  schema_holds w = true -> schema_holds (handle op w).2 = true.
Proof.
  intros Hschema. destruct op; cbn [handle]; try done.
  - by apply ticket_create_schema.
  - by apply ticket_update_schema.
Qed.

(** So it survives a request served alone... *)
Lemma run_schema {A} (p : Prog A) (w : World) :
  schema_holds w = true -> schema_holds (run p w).2 = true.
Proof.
  revert w. induction p as [a|e|X op k IH]; intros w Hschema; cbn; [done..|].
  pose proof (handle_schema op w Hschema) as Hnext.
  destruct (handle op w) as [x w1]. by apply IH.
Qed.

Lemma turn_schema {A} (p : Prog A) (w : World) :
  schema_holds w = true -> schema_holds (turn p w).2 = true.
Proof.
  revert w. induction p as [a|e|X op k IH]; intros w Hschema; cbn; [done..|].
  pose proof (handle_schema op w Hschema) as Hnext.
  destruct (handle op w) as [x w1]. destruct (statement op); [done|by apply IH].
Qed.

(** ... and any interleaving of requests, with any amount of time passing. *)
Lemma exec_schema {A} (schedule : list Action) (s : Sys A) :
  schema_holds (world s) = true -> schema_holds (world (exec schedule s)) = true.
Proof.
  revert s. induction schedule as [|a schedule IH]; intros s Hschema; [done|].
  cbn. apply IH. destruct a as [i|d]; cbn; [|done].
  destruct (threads s !! i) as [p|]; [|done].
  pose proof (turn_schema p (world s) Hschema) as Hturn.
  by destruct (turn p (world s)).
Qed.

(** Serving a request alone is taking its turns one after the other. *)
Lemma run_turn {A} (p : Prog A) (w : World) :
  run p w = run (turn p w).1 (turn p w).2.
Proof.
  revert w. induction p as [a|e|X op k IH]; intros w; cbn; [done..|].
  destruct (handle op w) as [x w1]. destruct (statement op); [done|by apply IH].
Qed.

Lemma exec_app {A} (s1 s2 : list Action) (s : Sys A) :
  exec (s1 ++ s2) s = exec s2 (exec s1 s).
Proof. unfold exec. by rewrite fold_left_app. Qed.

(** One turn each, in order, for requests that all run the same program:
    what holds of the world is carried from turn to turn. *)
Lemma sweep {A} (P : Prog A) (N : nat) (Inv : nat -> World -> Prop)
    (Q : Prog A -> Prop) (w0 : World) :
  (forall j w, j < N -> Inv j w -> Q (turn P w).1 /\ Inv (S j) (turn P w).2) ->
  Inv 0%nat w0 ->
  forall k, k <= N ->
    exists ps wk,
      exec (Turn <$> seq 0 k) (mkSys w0 (replicate N P))
      = mkSys wk (ps ++ replicate (N - k) P)
      /\ length ps = k /\ Forall Q ps /\ Inv k wk.
Proof.
  intros Hturn H0. induction k as [|k IH]; intros Hk.
  { exists [], w0. cbn. by rewrite Nat.sub_0_r. }
  destruct IH as (ps & wk & Hexec & Hlen & HQ & Hinv); [lia|].
  rewrite seq_S, fmap_app, exec_app, Hexec. cbn.
  destruct (Hturn k wk) as [HQk Hinvk]; [lia|done|].
  rewrite lookup_app_r by lia.
  replace (k - length ps) with 0 by lia.
  replace (N - k) with (S (N - S k)) by lia. cbn.
  destruct (turn P wk) as [p' w'] eqn:Hturnk. cbn in *.
  exists (ps ++ [p'])%list, w'. split; [|split; [|split]].
  - f_equal. rewrite <- (Nat.add_0_r k) at 1. rewrite <- Hlen at 1.
    rewrite insert_app_r. cbn. by rewrite <- app_assoc.
  - rewrite length_app. cbn. lia.
  - apply Forall_app. split; [done|]. by constructor.
  - done.
Qed.

(** ** The stages of [validate] *)

Lemma falsy_some (s : string) : s <> "" -> falsy (Some s) = false.
Proof. intros Hs. unfold falsy. by rewrite bool_decide_eq_false. Qed.

Section ValidateStages.
Context `{Platform}.
Variable svc : JWTService.

Lemma validate_missing (body : ValidateTicketInput.t) (w : World) :
  falsy (ValidateTicketInput.token body)
  || falsy (ValidateTicketInput.eventId body) = true ->
  run (validate svc body) w
  = (inr (reject 400 "Missing token or eventId" "Invalid request"), w).
Proof. intros Hf. unfold validate. rewrite Hf. reflexivity. Qed.

Section Presented.
Variables (tok e : string) (w : World).
Hypothesis Htok : tok <> "".
Hypothesis He : e <> "".

Ltac enter :=
  unfold validate, presented;
  cbn [ValidateTicketInput.token ValidateTicketInput.eventId];
  rewrite !falsy_some by done; cbn.

Lemma validate_bad_signature :
  verifyTicketToken svc tok (clock w) = None ->
  run (validate svc (presented tok e)) w
  = (inr (reject 200 "Invalid or counterfeit ticket"
                 "JWT signature verification failed"), w).
Proof. intros Hv. enter. by rewrite Hv. Qed.

Variable payload : TicketPayload.t.
Hypothesis Hverify : verifyTicketToken svc tok (clock w) = Some payload.

Lemma validate_wrong_event :
  TicketPayload.evt payload <> e ->
  run (validate svc (presented tok e)) w
  = (inr (reject 200 "Ticket is for a different event" "Event ID mismatch"), w).
Proof.
  intros Hevt. enter. rewrite Hverify.
  by rewrite (bool_decide_eq_false_2 _ Hevt).
Qed.

Hypothesis Hevt : TicketPayload.evt payload = e.

Lemma validate_unknown_nonce :
  find_ticket_by_nonce (TicketPayload.nonce payload) (tickets w) = None ->
  run (validate svc (presented tok e)) w
  = (inr (reject 200 "Ticket not found or counterfeit"
                 "Nonce not found in database"),
     log_query (lookup_of payload) w).
Proof.
  intros Hnone. enter. rewrite Hverify.
  rewrite (bool_decide_eq_true_2 _ Hevt). cbn. by rewrite Hnone.
Qed.

Variable t : Ticket.t.
Hypothesis Hfound :
  find_ticket_by_nonce (TicketPayload.nonce payload) (tickets w) = Some t.

Lemma validate_duplicate :
  Ticket.status t = CHECKED_IN ->
  run (validate svc (presented tok e)) w
  = (inr (duplicate_response (with_details w t)), log_query (lookup_of payload) w).
Proof.
  intros Hst. enter. rewrite Hverify.
  rewrite (bool_decide_eq_true_2 _ Hevt). cbn. rewrite Hfound. cbn.
  by rewrite (bool_decide_eq_true_2 _ Hst).
Qed.

Lemma validate_invalid_status :
  Ticket.status t <> CHECKED_IN -> Ticket.status t <> REGISTERED ->
  run (validate svc (presented tok e)) w
  = (inr (reject 200
            ("Ticket status: " +:+ status_text (Ticket.status t))
            ("Invalid status: " +:+ status_text (Ticket.status t))),
     log_query (lookup_of payload) w).
Proof.
  intros Hc Hr. enter. rewrite Hverify.
  rewrite (bool_decide_eq_true_2 _ Hevt). cbn. rewrite Hfound. cbn.
  rewrite (bool_decide_eq_false_2 _ Hc).
  by rewrite (bool_decide_eq_false_2 _ Hr).
Qed.

(** With a REGISTERED row in hand the handler goes on to the write,
    whatever the row's status is by then. *)
Lemma validate_transition :
  Ticket.status t = REGISTERED ->
  run (validate svc (presented tok e)) w
  = let w1 := (draw (log_query (lookup_of payload) w)).2 in
    let d := check_in_data (clock w) (entropy w (drawn w)) in
    match ticket_update (Ticket.id t) d
            (log_query (QTicketUpdate (Ticket.id t) d) w1) with
    | (inl _, w2) => (inr system_error, w2)
    | (inr updated, w2) =>
        match TicketWithDetails.user updated with
        | None => (inr system_error, w2)
        | Some u => (inr (accept_response updated u), w2)
        end
    end.
Proof.
  intros Hst. enter. rewrite Hverify.
  rewrite (bool_decide_eq_true_2 _ Hevt). cbn. rewrite Hfound. cbn.
  rewrite Hst.
  rewrite (bool_decide_eq_false_2 (REGISTERED = CHECKED_IN)) by done.
  rewrite (bool_decide_eq_true_2 (REGISTERED = REGISTERED)) by done.
  cbn. unfold check_in_data.
  destruct (ticket_update _ _ _) as [[err|updated] w2]; cbn; [done|].
  by destruct (TicketWithDetails.user updated).
Qed.
End Presented.
End ValidateStages.

Lemma body_presented (body : ValidateTicketInput.t) :
  falsy (ValidateTicketInput.token body)
  || falsy (ValidateTicketInput.eventId body) = false ->
  exists tok e, body = presented tok e /\ tok <> "" /\ e <> "".
Proof.
  destruct body as [[tok|] [e|]]; cbn; try done.
  - intros [Ht He]%orb_false_elim.
    exists tok, e. split; [done|].
    split; by eapply bool_decide_eq_false_1.
  - by rewrite orb_true_r.
Qed.

(** Every request is answered, through one of the handler's exits. *)
Lemma validate_exits `{Platform} (svc : JWTService)
    (body : ValidateTicketInput.t) (w : World) :
  exists r w', run (validate svc body) w = (inr r, w') /\ validate_exit svc body w r w'.
Proof.
  destruct (falsy (ValidateTicketInput.token body)
            || falsy (ValidateTicketInput.eventId body)) eqn:Hf.
  { rewrite (validate_missing svc body w Hf). eexists _, _.
    split; [done|]. by constructor. }
  destruct (body_presented body Hf) as (tok & e & -> & Ht & He).
  destruct (verifyTicketToken svc tok (clock w)) as [payload|] eqn:Hv.
  2:{ rewrite (validate_bad_signature svc tok e w Ht He Hv). eexists _, _.
      split; [done|]. by eapply exit_signature. }
  destruct (decide (TicketPayload.evt payload = e)) as [Hevt|Hevt].
  2:{ rewrite (validate_wrong_event svc tok e w Ht He payload Hv Hevt).
      eexists _, _. split; [done|]. by eapply exit_event. }
  destruct (find_ticket_by_nonce (TicketPayload.nonce payload) (tickets w))
    as [t|] eqn:Hfound.
  2:{ rewrite (validate_unknown_nonce svc tok e w Ht He payload Hv Hevt Hfound).
      eexists _, _. split; [done|]. by eapply exit_unknown. }
  destruct (decide (Ticket.status t = CHECKED_IN)) as [Hc|Hc].
  { rewrite (validate_duplicate svc tok e w Ht He payload Hv Hevt t Hfound Hc).
    eexists _, _. split; [done|]. by eapply exit_duplicate. }
  destruct (decide (Ticket.status t = REGISTERED)) as [Hr|Hr].
  2:{ rewrite (validate_invalid_status svc tok e w Ht He payload Hv Hevt t
                 Hfound Hc Hr).
      eexists _, _. split; [done|]. by eapply exit_status. }
  rewrite (validate_transition svc tok e w Ht He payload Hv Hevt t Hfound Hr).
  cbn zeta.
  destruct (ticket_update _ _ _) as [result w2] eqn:Hu.
  pose proof (exit_write svc (presented tok e) w tok e payload t result w2
                eq_refl Ht He Hv Hevt Hfound Hr Hu) as Hexit.
  destruct result as [err|updated]; [by eexists _, _|].
  destruct (TicketWithDetails.user updated); by eexists _, _.
Qed.

Lemma validate_exit_of_run `{Platform} (svc : JWTService)
    (body : ValidateTicketInput.t) (w w' : World)
    (r : Response.t ValidationResult.t) :
  run (validate svc body) w = (inr r, w') -> validate_exit svc body w r w'.
Proof.
  intros Hrun. destruct (validate_exits svc body w) as (r0 & w0 & Hrun0 & Hexit).
  rewrite Hrun in Hrun0. by injection Hrun0 as <- <-.
Qed.

(** ** The order of the checks *)

Section CheckOrder.
Context `{Platform}.
Variable svc : JWTService.

(** C7: the checks run in the order signature, audience, existence,
    status, write, and the first failure ends the request.  A request
    whose token does not verify is answered with a red, invalid result
    and leaves the world, access log included, exactly as it was. *)
Theorem validate_check_order (body : ValidateTicketInput.t) (w : World) :
  ((forall tok, ValidateTicketInput.token body = Some tok ->
                verifyTicketToken svc tok (clock w) = None) ->
   exists r, run (validate svc body) w = (inr r, w)
             /\ ValidationResult.valid (Response.body r) = false
             /\ ValidationResult.color (Response.body r) = red)
  /\ (forall tok e, body = presented tok e -> tok <> "" -> e <> "" ->
      (verifyTicketToken svc tok (clock w) = None ->
       run (validate svc body) w
       = (inr (reject 200 "Invalid or counterfeit ticket"
                      "JWT signature verification failed"), w))
      /\ (forall payload,
           verifyTicketToken svc tok (clock w) = Some payload ->
           (TicketPayload.evt payload <> e ->
            run (validate svc body) w
            = (inr (reject 200 "Ticket is for a different event"
                           "Event ID mismatch"), w))
           /\ (TicketPayload.evt payload = e ->
               (find_ticket_by_nonce (TicketPayload.nonce payload) (tickets w) = None ->
                run (validate svc body) w
                = (inr (reject 200 "Ticket not found or counterfeit"
                               "Nonce not found in database"),
                   log_query (lookup_of payload) w))
               /\ (forall t,
                    find_ticket_by_nonce (TicketPayload.nonce payload) (tickets w)
                    = Some t ->
                    (Ticket.status t = CHECKED_IN ->
                     run (validate svc body) w
                     = (inr (duplicate_response (with_details w t)),
                        log_query (lookup_of payload) w))
                    /\ (Ticket.status t <> CHECKED_IN ->
                        Ticket.status t <> REGISTERED ->
                        run (validate svc body) w
                        = (inr (reject 200
                                  ("Ticket status: " +:+ status_text (Ticket.status t))
                                  ("Invalid status: " +:+ status_text (Ticket.status t))),
                           log_query (lookup_of payload) w))
                    /\ (Ticket.status t = REGISTERED ->
                        exists r w',
                          run (validate svc body) w = (inr r, w')
                          /\ queries w'
                             = (queries w
                                ++ [lookup_of payload;
                                    QTicketUpdate (Ticket.id t)
                                      (check_in_data (clock w)
                                         (entropy w (drawn w)))])%list))))).
Proof.
  split.
  - intros Hbad.
    destruct (falsy (ValidateTicketInput.token body)
              || falsy (ValidateTicketInput.eventId body)) eqn:Hf.
    + rewrite (validate_missing svc body w Hf). by eexists.
    + destruct (body_presented body Hf) as (tok & e & -> & Ht & He).
      rewrite (validate_bad_signature svc tok e w Ht He (Hbad tok eq_refl)).
      by eexists.
  - intros tok e -> Ht He. split.
    { by apply validate_bad_signature. }
    intros payload Hv. split.
    { by apply validate_wrong_event. }
    intros Hevt. split.
    { by apply validate_unknown_nonce. }
    intros t Hfound. split; [|split].
    + by apply validate_duplicate.
    + by apply validate_invalid_status.
    + intros Hst.
      rewrite (validate_transition svc tok e w Ht He payload Hv Hevt t Hfound Hst).
      cbn zeta.
      match goal with
      | |- context [ticket_update ?i ?d ?w1] =>
          pose proof (ticket_update_frame i d w1) as (_ & _ & _ & _ & _ & Hq);
          destruct (ticket_update i d w1) as [[err|updated] w2]
      end; cbn in Hq.
      * eexists _, _. split; [done|]. by rewrite Hq, <- app_assoc.
      * destruct (TicketWithDetails.user updated);
          (eexists _, _; split; [done|]; by rewrite Hq, <- app_assoc).
Qed.

(** C8: a credential issued for one event and presented at another is
    answered with a red, invalid result whatever the store holds for its
    nonce, and the world is left as it was: no row changes and no
    statement reaches the database. *)
Theorem validate_wrong_audience (tok e2 : string) (payload : TicketPayload.t)
    (w : World) :
  verifyTicketToken svc tok (clock w) = Some payload ->
  TicketPayload.evt payload <> e2 ->
  exists r,
    run (validate svc (presented tok e2)) w = (inr r, w)
    /\ ValidationResult.valid (Response.body r) = false
    /\ ValidationResult.color (Response.body r) = red
    /\ ValidationResult.ticket (Response.body r) = None.
Proof.
  intros Hv Hevt.
  destruct (falsy (Some tok) || falsy (Some e2)) eqn:Hf.
  - rewrite (validate_missing svc (presented tok e2) w Hf). by eexists.
  - destruct (body_presented (presented tok e2) Hf) as (tok' & e' & Heq & Ht & He).
    injection Heq as <- <-.
    rewrite (validate_wrong_event svc tok e2 w Ht He payload Hv Hevt).
    by eexists.
Qed.
End CheckOrder.

(** The forged token ["jwt.forged"] is turned away before the store is
    consulted. *)
Lemma validate_check_order_witness :
  run (validate (H := Demo.platform) Demo.svc (presented "jwt.forged" "e-gala"))
      Demo.registered
  = (inr (reject 200 "Invalid or counterfeit ticket"
                 "JWT signature verification failed"), Demo.registered).
Proof.
  destruct (validate_check_order (H := Demo.platform) Demo.svc
              (presented "jwt.forged" "e-gala") Demo.registered) as [_ Hstages].
  destruct (Hstages "jwt.forged" "e-gala" eq_refl) as [Hsig _]; [done|done|].
  apply Hsig. reflexivity.
Defined.

(** Alice's credential for the gala, presented at the expo while her
    ticket is still REGISTERED. *)
Lemma validate_wrong_audience_witness :
  exists r,
    run (validate (H := Demo.platform) Demo.svc (presented Demo.credential "e-expo"))
        Demo.registered = (inr r, Demo.registered)
    /\ ValidationResult.valid (Response.body r) = false
    /\ ValidationResult.color (Response.body r) = red
    /\ ValidationResult.ticket (Response.body r) = None.
Proof.
  apply (validate_wrong_audience (H := Demo.platform) Demo.svc
           Demo.credential "e-expo" Demo.payload_alice Demo.registered).
  - reflexivity.
  - discriminate.
Defined.

(** ** A successful check-in *)

Section Accept.
Context `{Platform}.
Variable svc : JWTService.

(** Only the last stage answers with a valid result. *)
Lemma validate_accept_inv (body : ValidateTicketInput.t) (w w' : World)
    (r : Response.t ValidationResult.t) :
  run (validate svc body) w = (inr r, w') ->
  ValidationResult.valid (Response.body r) = true ->
  exists tok e payload t updated u,
    body = presented tok e /\ tok <> "" /\ e <> ""
    /\ verifyTicketToken svc tok (clock w) = Some payload
    /\ TicketPayload.evt payload = e
    /\ find_ticket_by_nonce (TicketPayload.nonce payload) (tickets w) = Some t
    /\ Ticket.status t = REGISTERED
    /\ ticket_update (Ticket.id t)
         (check_in_data (clock w) (entropy w (drawn w)))
         (log_query (QTicketUpdate (Ticket.id t)
                       (check_in_data (clock w) (entropy w (drawn w))))
            (draw (log_query (lookup_of payload) w)).2)
       = (inr updated, w')
    /\ TicketWithDetails.user updated = Some u
    /\ r = accept_response updated u.
Proof.
  intros Hrun Hvalid.
  destruct (validate_exit_of_run svc body w w' r Hrun)
    as [| | | | | |tok e payload t [err|updated] w' -> Ht He Hv Hevt Hfound Hst Hupd];
    try discriminate Hvalid.
  destruct (TicketWithDetails.user updated) as [u|] eqn:Hu;
    [|discriminate Hvalid].
  by exists tok, e, payload, t, updated, u.
Qed.
End Accept.

Section RoundTrip.
Context `{Platform}.
Variable svc : JWTService.

(** Issuance draws the nonce, reads the clock and signs. *)
Lemma generateTicketToken_run (U E : string) (w : World) :
  run (generateTicketToken svc U E) w
  = (inr (jwt_sign (TicketPayload.mk U E (clock w / 1000) (entropy w (drawn w)))
                   (privateKey svc),
          entropy w (drawn w)),
     (draw w).2).
Proof. reflexivity. Qed.

(** The write of step 6 on a store that satisfies its schema. *)
Lemma validate_accepts (tok e : string) (payload : TicketPayload.t)
    (t : Ticket.t) (w : World) :
  tok <> "" -> e <> "" ->
  verifyTicketToken svc tok (clock w) = Some payload ->
  TicketPayload.evt payload = e ->
  find_ticket_by_nonce (TicketPayload.nonce payload) (tickets w) = Some t ->
  Ticket.status t = REGISTERED ->
  schema_holds w = true ->
  next_random_unused w = true ->
  exists u ev,
    find_user (Ticket.userId t) (users w) = Some u
    /\ let d := check_in_data (clock w) (entropy w (drawn w)) in
       let t' := apply_update d t in
       run (validate svc (presented tok e)) w
       = (inr (accept_response (TicketWithDetails.mk t' (Some u) ev) u),
          set_tickets (replace_ticket (Ticket.id t) t' (tickets w))
            (log_query (QTicketUpdate (Ticket.id t) d)
               (draw (log_query (lookup_of payload) w)).2)).
Proof.
  intros Ht He Hv Hevt Hfound Hst Hschema Hfresh.
  apply schema_holds_elim in Hschema as (Hids & _ & Hfk).
  destruct (find_ticket_by_nonce_Some _ _ _ Hfound) as [Hin _].
  destruct (Hfk t Hin) as [[u Hu] _].
  exists u, (EventSummary.of_event <$> find_event (Ticket.eventId t) (events w)).
  split; [done|]. cbn zeta.
  rewrite (validate_transition svc tok e w Ht He payload Hv Hevt t Hfound Hst).
  cbn zeta.
  rewrite (ticket_update_succeeds (Ticket.id t) _ _ t);
    [ | cbn; by apply find_ticket_by_id_In
      | cbn; by apply (next_random_unused_not_taken w) ].
  unfold with_details, find_user in *. cbn. rewrite !Hu. reflexivity.
Qed.

End RoundTrip.


(** ** What a check-in writes *)

Section CheckIn.
Context `{Platform}.
Variable svc : JWTService.

(** A valid result means: one stored row, found by the presented nonce
    while REGISTERED, was replaced by its checked-in version, and that
    version is what the response carries. *)
Lemma validate_accept_effect (body : ValidateTicketInput.t) (w w' : World)
    (r : Response.t ValidationResult.t) :
  run (validate svc body) w = (inr r, w') ->
  ValidationResult.valid (Response.body r) = true ->
  schema_holds w = true ->
  exists t n,
    In t (tickets w) /\ Ticket.nonce t = Some n /\ Ticket.status t = REGISTERED
    /\ let t' := apply_update (check_in_data (clock w) (entropy w (drawn w))) t in
       tickets w' = replace_ticket (Ticket.id t) t' (tickets w)
       /\ In t' (tickets w')
       /\ users w' = users w /\ events w' = events w
       /\ TicketWithDetails.ticket <$> ValidationResult.ticket (Response.body r)
          = Some t'.
Proof.
  intros Hrun Hvalid Hschema.
  destruct (validate_accept_inv svc body w w' r Hrun Hvalid)
    as (tok & e & payload & t & updated & u & -> & Ht & He & Hv & Hevt
        & Hfound & Hst & Hupd & Hu & ->).
  apply schema_holds_elim in Hschema as (Hids & _ & _).
  destruct (find_ticket_by_nonce_Some _ _ _ Hfound) as [Hin Hn].
  apply ticket_update_inr in Hupd as (t0 & Hf0 & _ & -> & ->).
  change (find_ticket_by_id (Ticket.id t) (tickets w) = Some t0) in Hf0.
  rewrite (find_ticket_by_id_In _ _ Hids Hin) in Hf0.
  injection Hf0 as <-.
  exists t, (TicketPayload.nonce payload). do 3 (split; [done|]).
  cbn. split; [done|]. split; [|done].
  apply replace_ticket_In. by rewrite (find_ticket_by_id_In _ _ Hids Hin).
Qed.

End CheckIn.


(** ** What the responses show *)

Section Responses.
Context `{Platform}.
Variable svc : JWTService.

(** Every request is answered, in one of three shapes. *)
Lemma validate_outcome (body : ValidateTicketInput.t) (w : World) :
  exists r w',
    run (validate svc body) w = (inr r, w')
    /\ let v := Response.body r in
       (ValidationResult.color v = green /\ ValidationResult.valid v = true
        /\ is_Some (ValidationResult.ticket v))
       \/ (ValidationResult.color v = yellow /\ ValidationResult.valid v = false
           /\ is_Some (ValidationResult.ticket v))
       \/ (ValidationResult.color v = red /\ ValidationResult.valid v = false
           /\ ValidationResult.ticket v = None).
Proof.
  destruct (validate_exits svc body w) as (r & w' & Hrun & Hexit).
  exists r, w'. split; [done|].
  destruct Hexit as [| | | | | |tok e payload t [err|updated] w' _ _ _ _ _ _ _ _];
    cbn; try (by right; right); try (by right; left).
  destruct (TicketWithDetails.user updated); cbn; [by left|by right; right].
Qed.

(** C4, as the code has it: two requests that both end in a red result
    agree on [valid], on the colour and on carrying no ticket.  The
    [message] and [reason] fields are outside this agreement: they are
    written per check. *)
Theorem hard_rejects_agree_on_class (body1 body2 : ValidateTicketInput.t)
    (w1 w1' w2 w2' : World) (r1 r2 : Response.t ValidationResult.t) :
  run (validate svc body1) w1 = (inr r1, w1') ->
  run (validate svc body2) w2 = (inr r2, w2') ->
  ValidationResult.color (Response.body r1) = red ->
  ValidationResult.color (Response.body r2) = red ->
  ValidationResult.valid (Response.body r1) = false
  /\ ValidationResult.valid (Response.body r2) = false
  /\ ValidationResult.ticket (Response.body r1) = None
  /\ ValidationResult.ticket (Response.body r2) = None.
Proof.
  intros Hrun1 Hrun2 Hred1 Hred2.
  destruct (validate_outcome body1 w1) as (r1' & w1'' & Hr1 & Hc1).
  destruct (validate_outcome body2 w2) as (r2' & w2'' & Hr2 & Hc2).
  rewrite Hrun1 in Hr1. rewrite Hrun2 in Hr2.
  injection Hr1 as <- <-. injection Hr2 as <- <-. cbn zeta in Hc1, Hc2.
  destruct Hc1 as [(Hg & _)|[(Hy & _)|(_ & Hv1 & Ht1)]]; [congruence..|].
  destruct Hc2 as [(Hg & _)|[(Hy & _)|(_ & Hv2 & Ht2)]]; [congruence..|].
  done.
Qed.

(** C5, as the code has it: the accepted response carries the updated
    row as stored, so its [nonce] is the freshly drawn one.  No token is
    signed for that nonce: the row's [jwtToken] is the one it had. *)
Theorem accept_returns_updated_row (body : ValidateTicketInput.t)
    (w w' : World) (r : Response.t ValidationResult.t) :
  run (validate svc body) w = (inr r, w') ->
  ValidationResult.valid (Response.body r) = true ->
  schema_holds w = true ->
  exists t t',
    In t (tickets w)
    /\ TicketWithDetails.ticket <$> ValidationResult.ticket (Response.body r)
       = Some t'
    /\ In t' (tickets w')
    /\ Ticket.id t' = Ticket.id t
    /\ Ticket.nonce t' = Some (entropy w (drawn w))
    /\ Ticket.jwtToken t' = Ticket.jwtToken t.
Proof.
  intros Hrun Hvalid Hschema.
  destruct (validate_accept_effect svc body w w' r Hrun Hvalid Hschema)
    as (t & n & Hin & _ & _ & _ & Hin' & _ & _ & Hresp).
  by eexists t, _.
Qed.
End Responses.

(** C4 fails as stated: in a store without tickets, a forged token and a
    properly signed token whose nonce is unknown are both turned away in
    red, with different [message] and [reason] fields. *)
Lemma hard_rejects_distinguishable :
  let forged :=
    run (validate (H := Demo.platform) Demo.svc (presented "jwt.forged" "e-gala"))
        Demo.w0 in
  let unknown :=
    run (validate (H := Demo.platform) Demo.svc (presented Demo.credential "e-gala"))
        Demo.w0 in
  forged = (inr (reject 200 "Invalid or counterfeit ticket"
                        "JWT signature verification failed"), Demo.w0)
  /\ unknown = (inr (reject 200 "Ticket not found or counterfeit"
                            "Nonce not found in database"),
                log_query (QTicketFindUniqueByNonce "rnd-0") Demo.w0)
  /\ forged.1 <> unknown.1.
Proof. cbn zeta. split; [reflexivity|]. split; [reflexivity|]. discriminate. Qed.

Lemma hard_rejects_agree_on_class_witness :
  ValidationResult.valid
    (Response.body (reject 200 "Invalid or counterfeit ticket"
                           "JWT signature verification failed")) = false
  /\ ValidationResult.valid
       (Response.body (reject 200 "Ticket not found or counterfeit"
                              "Nonce not found in database")) = false
  /\ ValidationResult.ticket
       (Response.body (reject 200 "Invalid or counterfeit ticket"
                              "JWT signature verification failed")) = None
  /\ ValidationResult.ticket
       (Response.body (reject 200 "Ticket not found or counterfeit"
                              "Nonce not found in database")) = None.
Proof.
  apply (hard_rejects_agree_on_class (H := Demo.platform) Demo.svc
           (presented "jwt.forged" "e-gala") (presented Demo.credential "e-gala")
           Demo.w0 Demo.w0 Demo.w0
           (log_query (QTicketFindUniqueByNonce "rnd-0") Demo.w0)).
  - reflexivity.
  - reflexivity.
  - reflexivity.
  - reflexivity.
Defined.

(** C5 fails as stated: the response to Alice's check-in carries the row
    with the nonce ["rnd-1"] drawn during the request, the value now
    stored in place of ["rnd-0"]. *)
Lemma accept_response_shows_new_nonce :
  exists r t',
    run Demo.scan Demo.registered = (inr r, Demo.checked_in)
    /\ ValidationResult.valid (Response.body r) = true
    /\ TicketWithDetails.ticket <$> ValidationResult.ticket (Response.body r)
       = Some t'
    /\ Ticket.nonce <$> find_ticket_by_id "tkt-0" (tickets Demo.registered)
       = Some (Some "rnd-0")
    /\ entropy Demo.registered (drawn Demo.registered) = "rnd-1"
    /\ Ticket.nonce t' = Some "rnd-1"
    /\ find_ticket_by_id "tkt-0" (tickets Demo.checked_in) = Some t'.
Proof. eexists _, _. split; [reflexivity|]. repeat split. Qed.

Lemma accept_returns_updated_row_witness :
  exists t t',
    In t (tickets Demo.registered)
    /\ TicketWithDetails.ticket
       <$> ValidationResult.ticket
             (Response.body
                (accept_response
                   (TicketWithDetails.mk
                      (Ticket.mk "tkt-0" (Some "jwt.rnd-0") CHECKED_IN (Some "rnd-1")
                         (Some 1700000000123%Z) "u-alice" "e-gala")
                      (Some Demo.alice)
                      (Some (EventSummary.of_event Demo.gala)))
                   Demo.alice))
       = Some t'
    /\ In t' (tickets Demo.checked_in)
    /\ Ticket.id t' = Ticket.id t
    /\ Ticket.nonce t' = Some (entropy Demo.registered (drawn Demo.registered))
    /\ Ticket.jwtToken t' = Ticket.jwtToken t.
Proof.
  apply (accept_returns_updated_row (H := Demo.platform) Demo.svc
           (presented Demo.credential "e-gala") Demo.registered Demo.checked_in).
  - reflexivity.
  - reflexivity.
  - reflexivity.
Defined.

(** ** Registration for a paid event *)

Section PaidEvent.
Context `{Platform}.
Variable svc : JWTService.

End PaidEvent.

Section RegisterPaid.
Context `{Platform}.
Variable svc : JWTService.

End RegisterPaid.


(** ** The same credential presented again *)

Section Replay.
Context `{Platform}.
Variable svc : JWTService.

(** Once a check-in has rotated the nonce, the nonce of the presented
    credential resolves to no row. *)
Lemma rotated_nonce_is_gone (body : ValidateTicketInput.t) (w w' : World)
    (r : Response.t ValidationResult.t) :
  run (validate svc body) w = (inr r, w') ->
  ValidationResult.valid (Response.body r) = true ->
  schema_holds w = true ->
  next_random_unused w = true ->
  exists tok e payload,
    body = presented tok e /\ tok <> "" /\ e <> ""
    /\ verifyTicketToken svc tok (clock w) = Some payload
    /\ TicketPayload.evt payload = e
    /\ find_ticket_by_nonce (TicketPayload.nonce payload) (tickets w') = None.
Proof.
  intros Hrun Hvalid Hschema Hfresh.
  destruct (validate_accept_inv svc body w w' r Hrun Hvalid)
    as (tok & e & payload & t & updated & u & -> & Ht & He & Hv & Hevt
        & Hfound & Hst & Hupd & Hu & ->).
  exists tok, e, payload. do 5 (split; [done|]).
  apply schema_holds_elim in Hschema as (Hids & Hnonces & _).
  destruct (find_ticket_by_nonce_Some _ _ _ Hfound) as [Hin Hn].
  apply ticket_update_inr in Hupd as (t0 & Hf0 & _ & -> & _).
  change (find_ticket_by_id (Ticket.id t) (tickets w) = Some t0) in Hf0.
  rewrite (find_ticket_by_id_In _ _ Hids Hin) in Hf0. injection Hf0 as <-.
  apply eq_None_not_Some. intros [x Hx].
  apply find_ticket_by_nonce_Some in Hx as [Hxin Hxn]. cbn in Hxin.
  apply replace_ticket_inv in Hxin as [->|[Hxin Hne]]; [| |done].
  - cbn in Hxn. injection Hxn as Heq.
    unfold next_random_unused in Hfresh. apply negb_true_iff in Hfresh.
    assert (existsb (fun x => bool_decide
                       (Ticket.nonce x = Some (entropy w (drawn w))))
                    (tickets w) = true) as Hex; [|congruence].
    apply existsb_exists. exists t. split; [done|].
    apply bool_decide_eq_true_2. by rewrite Hn, Heq.
  - apply Hne. f_equal.
    by apply (NoDup_omap_In_inj Ticket.nonce (tickets w) x t
                (TicketPayload.nonce payload)).
Qed.

(** C2, as the code behaves: after a credential has been accepted, the
    same request presented again, at any later time at which the token
    still verifies, does not reach the duplicate branch.  It is turned
    away in red at the existence check, since the accepted check-in
    rotated the nonce the credential carries. *)
Theorem replay_rejected_as_unknown (body : ValidateTicketInput.t)
    (w w' later : World) (r : Response.t ValidationResult.t) :
  run (validate svc body) w = (inr r, w') ->
  ValidationResult.valid (Response.body r) = true ->
  schema_holds w = true ->
  next_random_unused w = true ->
  tickets later = tickets w' ->
  (forall tok, ValidateTicketInput.token body = Some tok ->
               verifyTicketToken svc tok (clock later)
               = verifyTicketToken svc tok (clock w)) ->
  exists n,
    run (validate svc body) later
    = (inr (reject 200 "Ticket not found or counterfeit"
                   "Nonce not found in database"),
       log_query (QTicketFindUniqueByNonce n) later).
Proof.
  intros Hrun Hvalid Hschema Hfresh Hsame Hstill.
  destruct (rotated_nonce_is_gone body w w' r Hrun Hvalid Hschema Hfresh)
    as (tok & e & payload & -> & Ht & He & Hv & Hevt & Hgone).
  exists (TicketPayload.nonce payload).
  apply validate_unknown_nonce; try done.
  - by rewrite (Hstill tok eq_refl).
  - by rewrite Hsame.
Qed.
End Replay.

(** Alice's credential scanned a second time, an hour after her check-in. *)
Lemma replay_rejected_as_unknown_witness :
  exists n,
    run Demo.scan (advance_clock 3600000 Demo.checked_in)
    = (inr (reject 200 "Ticket not found or counterfeit"
                   "Nonce not found in database"),
       log_query (QTicketFindUniqueByNonce n) (advance_clock 3600000 Demo.checked_in)).
Proof.
  apply (replay_rejected_as_unknown (H := Demo.platform) Demo.svc
           (presented Demo.credential "e-gala") Demo.registered Demo.checked_in
           (advance_clock 3600000 Demo.checked_in)
           (accept_response
              (TicketWithDetails.mk
                 (Ticket.mk "tkt-0" (Some "jwt.rnd-0") CHECKED_IN (Some "rnd-1")
                    (Some 1700000000123%Z) "u-alice" "e-gala")
                 (Some Demo.alice)
                 (Some (EventSummary.of_event Demo.gala)))
              Demo.alice)).
  - reflexivity.
  - reflexivity.
  - reflexivity.
  - reflexivity.
  - reflexivity.
  - intros tok _. reflexivity.
Defined.

(** ** Two scanners, one credential *)

(** The race, step by step: when both requests have read the REGISTERED
    row before either writes, the second write finds the row CHECKED_IN,
    with the first request's nonce and check-in time, and is carried out
    all the same. *)
Lemma double_check_in_trace :
  let before := exec Demo.first_has_written Demo.two_scans in
  let after := step (Turn 1) before in
  tickets (world before)
  = [Ticket.mk "tkt-0" (Some "jwt.rnd-0") CHECKED_IN (Some "rnd-1")
       (Some 1700000000123%Z) "u-alice" "e-gala"]
  /\ outcome <$> threads before !! 0%nat
     = Some (Some (accept_response
                     (TicketWithDetails.mk
                        (Ticket.mk "tkt-0" (Some "jwt.rnd-0") CHECKED_IN
                           (Some "rnd-1") (Some 1700000000123%Z) "u-alice" "e-gala")
                        (Some Demo.alice) (Some (EventSummary.of_event Demo.gala)))
                     Demo.alice))
  /\ (fun p => next_statement p (world before)) <$> threads before !! 1%nat
     = Some (Some (QTicketUpdate "tkt-0"
                     (check_in_data 1700000000373 "rnd-2")))
  /\ tickets (world after)
     = [Ticket.mk "tkt-0" (Some "jwt.rnd-0") CHECKED_IN (Some "rnd-2")
          (Some 1700000000373%Z) "u-alice" "e-gala"]
  /\ outcome <$> threads after !! 1%nat
     = Some (Some (accept_response
                     (TicketWithDetails.mk
                        (Ticket.mk "tkt-0" (Some "jwt.rnd-0") CHECKED_IN
                           (Some "rnd-2") (Some 1700000000373%Z) "u-alice" "e-gala")
                        (Some Demo.alice) (Some (EventSummary.of_event Demo.gala)))
                     Demo.alice)).
Proof. cbn zeta. repeat split; reflexivity. Qed.

(** Two requests with Alice's credential: if both read before either
    writes, both are accepted; if one runs after the other, the second is
    turned away in red because the nonce is no longer found.  Neither
    schedule produces a duplicate result. *)
Lemma two_concurrent_scans :
  let colour p := ValidationResult.color <$> (Response.body <$> outcome p) in
  let reason p := ValidationResult.reason <$> (Response.body <$> outcome p) in
  colour <$> threads (exec Demo.both_read_first Demo.two_scans)
  = [Some green; Some green]
  /\ colour <$> threads (exec Demo.one_after_the_other Demo.two_scans)
     = [Some green; Some red]
  /\ reason <$> threads (exec Demo.one_after_the_other Demo.two_scans)
     = [Some (Some "Successfully checked in");
        Some (Some "Nonce not found in database")].
Proof. cbn zeta. repeat split; reflexivity. Qed.

(** ** A write prepared from a stale read *)

Section StaleRead.
Context `{Platform}.
Variable svc : JWTService.
Variables (tok e : string) (payload : TicketPayload.t) (t : Ticket.t) (w : World).
Hypothesis Htok : tok <> "".
Hypothesis He : e <> "".
Hypothesis Hverify : verifyTicketToken svc tok (clock w) = Some payload.
Hypothesis Hevt : TicketPayload.evt payload = e.
Hypothesis Hfound :
  find_ticket_by_nonce (TicketPayload.nonce payload) (tickets w) = Some t.
Hypothesis Hst : Ticket.status t = REGISTERED.

(** The first turn of the request is its lookup. *)
Lemma validate_first_turn :
  (turn (validate svc (presented tok e)) w).2 = log_query (lookup_of payload) w.
Proof.
  unfold validate, presented.
  cbn [ValidateTicketInput.token ValidateTicketInput.eventId].
  rewrite !falsy_some by done. cbn. rewrite Hverify.
  by rewrite (bool_decide_eq_true_2 _ Hevt).
Qed.

(** The second turn is the write, in whatever world it is taken: it asks
    for the row by id, and nothing about the row's status by then. *)
Lemma validate_second_turn (w1 : World) (t0 : Ticket.t) (u : User.t) :
  find_ticket_by_id (Ticket.id t) (tickets w1) = Some t0 ->
  nonce_taken (Ticket.id t) (Some (entropy w1 (drawn w1))) (tickets w1) = false ->
  find_user (Ticket.userId t0) (users w1) = Some u ->
  let d := check_in_data (clock w1) (entropy w1 (drawn w1)) in
  let w2 := set_tickets (replace_ticket (Ticket.id t) (apply_update d t0) (tickets w1))
              (log_query (QTicketUpdate (Ticket.id t) d) (draw w1).2) in
  turn (turn (validate svc (presented tok e)) w).1 w1
  = (Ret (accept_response (with_details w2 (apply_update d t0)) u), w2).
Proof.
  intros Hrow Hfree Hu.
  unfold validate, presented.
  cbn [ValidateTicketInput.token ValidateTicketInput.eventId].
  rewrite !falsy_some by done. cbn. rewrite Hverify.
  rewrite (bool_decide_eq_true_2 _ Hevt). cbn. rewrite Hfound. cbn.
  rewrite Hst.
  rewrite (bool_decide_eq_false_2 (REGISTERED = CHECKED_IN)) by done.
  rewrite (bool_decide_eq_true_2 (REGISTERED = REGISTERED)) by done.
  cbn.
  rewrite (ticket_update_succeeds (Ticket.id t) _ _ t0) by done.
  cbn. by rewrite Hu.
Qed.
End StaleRead.

Section StaleWrite.
Context `{Platform}.
Variable svc : JWTService.

(** C1, as the code behaves: a request that has read its row as
    REGISTERED goes on to write even if, by the time of the write, another
    request has checked the row in.  The store carries the write out (the
    update is keyed by id alone), the row's check-in time is overwritten
    and its nonce rotated once more, and the request is answered as a
    successful check-in, not as a duplicate. *)
Theorem stale_write_is_not_rejected (tok e : string) (payload : TicketPayload.t)
    (t t0 : Ticket.t) (u : User.t) (w w1 : World) :
  tok <> "" -> e <> "" ->
  verifyTicketToken svc tok (clock w) = Some payload ->
  TicketPayload.evt payload = e ->
  find_ticket_by_nonce (TicketPayload.nonce payload) (tickets w) = Some t ->
  Ticket.status t = REGISTERED ->
  find_ticket_by_id (Ticket.id t) (tickets w1) = Some t0 ->
  Ticket.status t0 = CHECKED_IN ->
  nonce_taken (Ticket.id t) (Some (entropy w1 (drawn w1))) (tickets w1) = false ->
  find_user (Ticket.userId t0) (users w1) = Some u ->
  exists r w2 t2,
    turn (turn (validate svc (presented tok e)) w).1 w1 = (Ret r, w2)
    /\ ValidationResult.valid (Response.body r) = true
    /\ ValidationResult.color (Response.body r) = green
    /\ queries w2
       = (queries w1
          ++ [QTicketUpdate (Ticket.id t)
                (check_in_data (clock w1) (entropy w1 (drawn w1)))])%list
    /\ find_ticket_by_id (Ticket.id t) (tickets w2) = Some t2
    /\ Ticket.status t2 = CHECKED_IN
    /\ Ticket.checkInTime t2 = Some (clock w1)
    /\ Ticket.nonce t2 = Some (entropy w1 (drawn w1)).
Proof.
  intros Htok He Hv Hevt Hfound Hst Hrow Hst0 Hfree Hu.
  rewrite (validate_second_turn svc tok e payload t w Htok He Hv Hevt Hfound Hst
             w1 t0 u Hrow Hfree Hu).
  cbn zeta.
  eexists _, _,
    (apply_update (check_in_data (clock w1) (entropy w1 (drawn w1))) t0).
  split; [done|]. do 3 (split; [done|]).
  split; [|done]. cbn [tickets set_tickets].
  apply find_replace_ticket; [by rewrite Hrow|].
  by apply find_ticket_by_id_Some in Hrow as [_ Hid].
Qed.
End StaleWrite.

(** A request that read Alice's row before her check-in writes after it. *)
Lemma stale_write_is_not_rejected_witness :
  exists r w2 t2,
    turn (turn Demo.scan Demo.registered).1 Demo.checked_in = (Ret r, w2)
    /\ ValidationResult.valid (Response.body r) = true
    /\ ValidationResult.color (Response.body r) = green
    /\ queries w2
       = (queries Demo.checked_in
          ++ [QTicketUpdate "tkt-0" (check_in_data 1700000000123 "rnd-2")])%list
    /\ find_ticket_by_id "tkt-0" (tickets w2) = Some t2
    /\ Ticket.status t2 = CHECKED_IN
    /\ Ticket.checkInTime t2 = Some 1700000000123%Z
    /\ Ticket.nonce t2 = Some "rnd-2".
Proof.
  apply (stale_write_is_not_rejected (H := Demo.platform) Demo.svc
           Demo.credential "e-gala" Demo.payload_alice
           (Ticket.mk "tkt-0" (Some "jwt.rnd-0") REGISTERED (Some "rnd-0") None
              "u-alice" "e-gala")
           (Ticket.mk "tkt-0" (Some "jwt.rnd-0") CHECKED_IN (Some "rnd-1")
              (Some 1700000000123%Z) "u-alice" "e-gala")
           Demo.alice Demo.registered Demo.checked_in).
  - discriminate.
  - discriminate.
  - reflexivity.
  - reflexivity.
  - reflexivity.
  - reflexivity.
  - reflexivity.
  - reflexivity.
  - reflexivity.
  - reflexivity.
Defined.

(** ** Any number of scanners *)

Section AnyNumber.
Context `{Platform}.
Variable svc : JWTService.
Variables (tok e : string) (payload : TicketPayload.t) (t : Ticket.t) (w : World).
Variable N : nat.
Hypothesis Htok : tok <> "".
Hypothesis He : e <> "".
Hypothesis Hverify : verifyTicketToken svc tok (clock w) = Some payload.
Hypothesis Hevt : TicketPayload.evt payload = e.
Hypothesis Hfound :
  find_ticket_by_nonce (TicketPayload.nonce payload) (tickets w) = Some t.
Hypothesis Hst : Ticket.status t = REGISTERED.
Hypothesis Hschema : schema_holds w = true.
Hypothesis Hfresh :
  forall k, k < N ->
    nonce_taken (Ticket.id t) (Some (entropy w (drawn w + k))) (tickets w) = false.

(** What a request goes on with after its lookup depends on the tables
    and the clock it saw, not on the access log. *)
Lemma validate_first_turn_any (w' : World) :
  users w' = users w -> events w' = events w -> tickets w' = tickets w ->
  clock w' = clock w ->
  turn (validate svc (presented tok e)) w'
  = ((turn (validate svc (presented tok e)) w).1, log_query (lookup_of payload) w').
Proof.
  intros Hus Hev Hts Hclk.
  unfold validate, presented.
  cbn [ValidateTicketInput.token ValidateTicketInput.eventId].
  rewrite !falsy_some by done. cbn. rewrite Hclk, Hverify.
  rewrite (bool_decide_eq_true_2 _ Hevt). cbn.
  rewrite Hts, Hfound. cbn. unfold with_details. by rewrite Hus, Hev.
Qed.

(** C3, as the code behaves: of [N] concurrent requests with the same
    credential, each taking its first turn (the lookup) before any takes
    its second (the write), every one is answered as a successful
    check-in; none is answered as a duplicate. *)
Theorem all_concurrent_scans_accepted :
  let final :=
    exec ((Turn <$> seq 0 N) ++ (Turn <$> seq 0 N))
         (mkSys w (replicate N (validate svc (presented tok e)))) in
  length (threads final) = N
  /\ Forall (fun p => exists r, p = Ret r
                                /\ ValidationResult.valid (Response.body r) = true
                                /\ ValidationResult.color (Response.body r) = green)
            (threads final).
Proof.
  cbn zeta. rewrite exec_app.
  set (V := validate svc (presented tok e)).
  set (P1 := (turn V w).1).
  (* the lookups *)
  destruct (sweep V N
              (fun _ w' => users w' = users w /\ events w' = events w
                           /\ tickets w' = tickets w /\ clock w' = clock w
                           /\ entropy w' = entropy w /\ drawn w' = drawn w)
              (fun p => P1 = p) w) with (k := N)
    as (ps & wN & -> & Hlen & Hps & Hus & Hev & Hts & Hclk & Hent & Hdr);
    [|done|lia|].
  { intros j w' _ (Hus & Hev & Hts & Hclk & Hent & Hdr).
    subst V. rewrite validate_first_turn_any by done. cbn. by rewrite Hts. }
  rewrite Nat.sub_diag, app_nil_r.
  assert (ps = replicate N P1) as ->.
  { symmetry. by apply replicate_as_Forall. }
  (* the writes *)
  apply schema_holds_elim in Hschema as (Hids & _ & Hfk).
  destruct (find_ticket_by_nonce_Some _ _ _ Hfound) as [Hin _].
  destruct (Hfk t Hin) as [[u Hu] _].
  destruct (sweep P1 N
              (fun j w' => users w' = users w /\ entropy w' = entropy w
                           /\ drawn w' = drawn w + j
                           /\ (exists tj, find_ticket_by_id (Ticket.id t) (tickets w')
                                          = Some tj
                                          /\ Ticket.userId tj = Ticket.userId t)
                           /\ forall n, nonce_taken (Ticket.id t) (Some n) (tickets w')
                                        = nonce_taken (Ticket.id t) (Some n) (tickets w))
              (fun p => exists r, p = Ret r
                                  /\ ValidationResult.valid (Response.body r) = true
                                  /\ ValidationResult.color (Response.body r) = green)
              wN) with (k := N)
    as (rs & wf & -> & Hlenr & Hrs & _); [| |lia|].
  { intros j w' Hj (Hus' & Hent' & Hdr' & (tj & Htj & Huid) & Htaken).
    subst P1 V.
    rewrite (validate_second_turn svc tok e payload t w Htok He Hverify Hevt
               Hfound Hst w' tj u).
    - cbn zeta. cbn [fst snd]. split; [by eexists|].
      cbn [users entropy drawn tickets set_tickets log_query draw fst snd].
      do 2 (split; [done|]). split; [lia|]. split.
      + eexists. split.
        * apply find_replace_ticket; [by rewrite Htj|].
          by apply find_ticket_by_id_Some in Htj as [_ ?].
        * exact Huid.
      + intros n. rewrite nonce_taken_replace; [apply Htaken|].
        by apply find_ticket_by_id_Some in Htj as [_ ?].
    - done.
    - rewrite Htaken, Hent', Hdr'. by apply Hfresh.
    - by rewrite Huid, Hus'. }
  { do 2 (split; [done|]). split; [lia|]. split; [|by intros; rewrite Hts].
    exists t. split; [|done]. rewrite Hts. by apply find_ticket_by_id_In. }
  rewrite Nat.sub_diag, app_nil_r. cbn. by split.
Qed.
End AnyNumber.

(** Two scanners reading Alice's credential at the same time. *)
Lemma all_concurrent_scans_accepted_witness :
  let final :=
    exec ((Turn <$> seq 0 2) ++ (Turn <$> seq 0 2))
         (mkSys Demo.registered (replicate 2 Demo.scan)) in
  length (threads final) = 2%nat
  /\ Forall (fun p => exists r, p = Ret r
                                /\ ValidationResult.valid (Response.body r) = true
                                /\ ValidationResult.color (Response.body r) = green)
            (threads final).
Proof.
  apply (all_concurrent_scans_accepted (H := Demo.platform) Demo.svc
           Demo.credential "e-gala" Demo.payload_alice
           (Ticket.mk "tkt-0" (Some "jwt.rnd-0") REGISTERED (Some "rnd-0") None
              "u-alice" "e-gala")
           Demo.registered 2).
  - discriminate.
  - discriminate.
  - reflexivity.
  - reflexivity.
  - reflexivity.
  - reflexivity.
  - reflexivity.
  - intros [|[|k]] Hk; [reflexivity|reflexivity|lia].
Defined.

(** ** Registration for a free event *)

Lemma ticket_create_inr (d : TicketCreate.t) (include : bool) (w w' : World)
    (c : CreatedTicket.t) :
  ticket_create d include w = (inr c, w') ->
  exists u e,
    find_user (TicketCreate.userId d) (users w) = Some u
    /\ find_event (TicketCreate.eventId d) (events w) = Some e
    /\ find_ticket_by_id (keys w (created w)) (tickets w) = None
    /\ find_ticket_by_user_event (TicketCreate.userId d) (TicketCreate.eventId d)
         (tickets w) = None
    /\ nonce_taken (keys w (created w)) (TicketCreate.nonce d) (tickets w) = false
    /\ let t := Ticket.mk (keys w (created w)) (TicketCreate.jwtToken d)
                  (TicketCreate.status d) (TicketCreate.nonce d) None
                  (TicketCreate.userId d) (TicketCreate.eventId d) in
       c = (if include then CreatedTicket.mk t (Some u) (Some e)
            else CreatedTicket.mk t None None)
       /\ w' = set_tickets (tickets w ++ [t]) (next_key w).2.
Proof.
  unfold ticket_create. cbn.
  destruct (find_user _ _) as [u|]; [|discriminate].
  destruct (find_event _ _) as [e|]; [|discriminate].
  destruct (find_ticket_by_id _ _); [discriminate|].
  destruct (find_ticket_by_user_event _ _ _); [discriminate|].
  destruct (nonce_taken _ _ _); [discriminate|].
  intros [= <- <-]. by exists u, e.
Qed.

Lemma ticket_create_inl (d : TicketCreate.t) (include : bool) (w w' : World)
    (err : PrismaError) :
  ticket_create d include w = (inl err, w') ->
  tickets w' = tickets w /\ users w' = users w /\ events w' = events w.
Proof.
  intros Hc. pose proof (ticket_create_effect d include w) as (Hu & He & Ht).
  rewrite Hc in Hu, He, Ht. by cbn in *.
Qed.

Lemma find_ticket_by_user_event_Some (u e : string) (ts : list Ticket.t) (t : Ticket.t) :
  find_ticket_by_user_event u e ts = Some t ->
  In t ts /\ Ticket.userId t = u /\ Ticket.eventId t = e.
Proof.
  unfold find_ticket_by_user_event. intros Hf.
  apply find_some in Hf as [Hin Hb]. split; [done|].
  apply andb_prop in Hb as [Hu He].
  apply bool_decide_eq_true in Hu, He. done.
Qed.

Lemma find_ticket_by_user_event_new (u e : string) (ts : list Ticket.t) (t : Ticket.t) :
  find_ticket_by_user_event u e ts = None ->
  Ticket.userId t = u -> Ticket.eventId t = e ->
  find_ticket_by_user_event u e (ts ++ [t]) = Some t.
Proof.
  unfold find_ticket_by_user_event. intros Hnone Hu He.
  induction ts as [|x ts IH]; cbn in *.
  - by rewrite !bool_decide_eq_true_2 by done.
  - destruct (bool_decide (Ticket.userId x = u) && bool_decide (Ticket.eventId x = e));
      [discriminate|]. by apply IH.
Qed.

Lemma find_ticket_by_nonce_new (n : string) (ts : list Ticket.t) (t : Ticket.t) :
  find_ticket_by_id (Ticket.id t) ts = None ->
  nonce_taken (Ticket.id t) (Some n) ts = false ->
  Ticket.nonce t = Some n ->
  find_ticket_by_nonce n (ts ++ [t]) = Some t.
Proof.
  unfold find_ticket_by_id, find_ticket_by_nonce. intros Hid Htaken Hn.
  induction ts as [|x ts IH]; cbn in *.
  - by rewrite bool_decide_eq_true_2 by done.
  - destruct (bool_decide (Ticket.id x = Ticket.id t)) eqn:Hx; [discriminate|].
    cbn in Htaken. apply orb_false_elim in Htaken as [Hhead Htail].
    rewrite andb_true_r in Hhead. rewrite Hhead. by apply IH.
Qed.

Lemma count_tickets_app (e : string) (statuses : list TicketStatus)
    (ts us : list Ticket.t) :
  count_tickets e statuses (ts ++ us)
  = (count_tickets e statuses ts + count_tickets e statuses us)%nat.
Proof. unfold count_tickets. by rewrite List.filter_app, length_app. Qed.

Section RegisterExits.
Context `{Platform}.
Variable svc : JWTService.

Lemma register_exits (userId : string) (body : RegisterTicketInput.t) (w : World) :
  exists r w',
    run (register svc userId body) w = (inr r, w')
    /\ register_exit svc userId body w r w'.
Proof.
  unfold register. cbn.
  destruct (find_event _ _) as [event|] eqn:Hevent; cbn.
  2:{ eexists _, _. split; [done|]. by constructor. }
  destruct (Event.isPrivate event && invite_differs _ _) eqn:Hinvite; cbn.
  { apply andb_prop in Hinvite as [? ?].
    eexists _, _. split; [done|]. by eapply exit_invite. }
  destruct (find_ticket_by_user_event _ _ _) as [existing|] eqn:Hexisting; cbn.
  { eexists _, _. split; [done|]. by eapply exit_conflict. }
  destruct (Qle_bool (Event.price event) 0) eqn:Hprice; cbn.
  - destruct (ticket_create _ _ _) as [result w'] eqn:Hcreate.
    eexists _, w'. split; [|by eapply (exit_free svc userId body w event result w')].
    by destruct result.
  - destruct (ticket_create _ _ _) as [result w'] eqn:Hcreate.
    eexists _, w'. split; [|by eapply (exit_paid svc userId body w event result w')].
    by destruct result.
Qed.

Lemma register_exit_of_run (userId : string) (body : RegisterTicketInput.t)
    (w w' : World) (r : Response.t RegisterBody) :
  run (register svc userId body) w = (inr r, w') -> register_exit svc userId body w r w'.
Proof.
  intros Hrun. destruct (register_exits userId body w) as (r0 & w0 & Hrun0 & Hexit).
  congruence.
Qed.
End RegisterExits.

Section Registration.
Context `{Platform}.
Variable svc : JWTService.

(** X2: a registration request is always answered.  It leaves the users,
    the events and every stored ticket as they were.  When it answers 200
    or 201 it has added exactly one ticket, for the caller and the
    requested event, REGISTERED or WAITLISTED and not checked in; with
    any other answer (403, 404, 409, 500) the ticket table is unchanged. *)
Theorem register_adds_at_most_one (userId : string) (body : RegisterTicketInput.t)
    (w : World) :
  exists r w',
    run (register svc userId body) w = (inr r, w')
    /\ users w' = users w /\ events w' = events w
    /\ ((In (Response.code r) [200; 201]%nat
         /\ exists t,
              tickets w' = (tickets w ++ [t])%list
              /\ Ticket.userId t = userId
              /\ Ticket.eventId t = RegisterTicketInput.eventId body
              /\ Ticket.checkInTime t = None
              /\ In (Ticket.status t) [REGISTERED; WAITLISTED])
        \/ (In (Response.code r) [403; 404; 409; 500]%nat
            /\ tickets w' = tickets w)).
Proof.
  destruct (register_exits svc userId body w) as (r & w' & Hrun & Hexit).
  exists r, w'. split; [done|].
  destruct Hexit as [| | |event result w' eventId _ _ _ _ Hcreate
                     |event result w' eventId data _ _ _ _ Hcreate];
    try (cbn; by intuition).
  - pose proof (ticket_create_effect (paid_ticket_data userId eventId) false
                  (log_query (QTicketCreate (paid_ticket_data userId eventId))
                     (after_reads userId eventId w))) as (Hu & He & Hc).
    rewrite Hcreate in Hu, He, Hc. cbn in Hu, He, Hc.
    do 2 (split; [done|]).
    destruct result as [err|created]; [right; cbn; by intuition|].
    left. split; [cbn; by intuition|].
    destruct Hc as [-> ->]. eexists. split; [done|]. cbn. by intuition.
  - pose proof (ticket_create_effect data true
                  (log_query (QTicketCreate data)
                     (draw (after_reads userId eventId w)).2)) as (Hu & He & Hc).
    rewrite Hcreate in Hu, He, Hc. cbn in Hu, He, Hc.
    do 2 (split; [done|]).
    destruct result as [err|created]; [right; cbn; by intuition|].
    left. split; [cbn; by intuition|].
    destruct Hc as [-> ->]. eexists. split; [done|]. cbn.
    do 3 (split; [done|]). destruct (_ <=? _)%Z; by intuition.
Qed.
(** What a request that was answered 201 found and wrote. *)
Lemma register_created_inv (userId : string) (body : RegisterTicketInput.t)
    (w w1 : World) (c : CreatedTicket.t) (b : bool) :
  let eventId := RegisterTicketInput.eventId body in
  run (register svc userId body) w = (inr (Response.mk 201 (RegisterFree c b)), w1) ->
  exists event u,
    let data := free_ticket_data svc userId event eventId w in
    let t := Ticket.mk (keys w (created w)) (TicketCreate.jwtToken data)
               (TicketCreate.status data) (TicketCreate.nonce data) None
               userId eventId in
    find_event eventId (events w) = Some event
    /\ find_user userId (users w) = Some u
    /\ Qle_bool (Event.price event) 0 = true
    /\ find_ticket_by_id (Ticket.id t) (tickets w) = None
    /\ find_ticket_by_user_event userId eventId (tickets w) = None
    /\ nonce_taken (Ticket.id t) (Some (entropy w (drawn w))) (tickets w) = false
    /\ c = CreatedTicket.mk t (Some u) (Some event)
    /\ b = false
    /\ tickets w1 = (tickets w ++ [t])%list
    /\ users w1 = users w /\ events w1 = events w
    /\ entropy w1 = entropy w /\ drawn w1 = S (drawn w) /\ clock w1 = clock w.
Proof.
  intros eventId Hrun. apply register_exit_of_run in Hrun.
  inversion Hrun as [| | |event result w' eid _ _ _ _ Hcreate Hr
                     |event result w' eid data Hevent _ Hnone Hfree Hcreate Hr];
    subst.
  - by destruct result.
  - destruct result as [err|c']; [discriminate|]. injection Hr as -> <-.
    apply ticket_create_inr in Hcreate as (u & e & Hu & He & Hid & Hpair & Hn & -> & ->).
    cbn in *. exists event, u.
    assert (e = event) as -> by congruence.
    by repeat split.
Qed.
(** X1: registration for an event whose price is not positive either ends
    in an error that creates nothing, or creates one ticket and answers
    201 with it, together with the caller's user row and the event.  The
    ticket is WAITLISTED exactly when the event's REGISTERED and
    CHECKED_IN tickets already reach its capacity; its nonce is the one
    just drawn and its token is the signature of the payload made of the
    caller, the event, the clock in seconds and that nonce. *)
Theorem register_free_event (userId : string) (body : RegisterTicketInput.t)
    (event : Event.t) (w : World) :
  let eventId := RegisterTicketInput.eventId body in
  find_event eventId (events w) = Some event ->
  (Event.price event <= 0)%Q ->
  exists r w',
    run (register svc userId body) w = (inr r, w')
    /\ ((In (Response.code r) [403; 409; 500]%nat /\ tickets w' = tickets w)
        \/ exists t u,
             r = Response.mk 201
                   (RegisterFree (CreatedTicket.mk t (Some u) (Some event)) false)
             /\ tickets w' = (tickets w ++ [t])%list
             /\ find_user userId (users w) = Some u
             /\ Ticket.status t
                = (if (Event.capacity event <=? Z.of_nat (sold eventId (tickets w)))%Z
                   then WAITLISTED else REGISTERED)
             /\ Ticket.nonce t = Some (entropy w (drawn w))
             /\ Ticket.jwtToken t
                = Some (jwt_sign (payload_issued_in userId eventId w) (privateKey svc))
             /\ Ticket.checkInTime t = None
             /\ Ticket.userId t = userId
             /\ Ticket.eventId t = eventId).
Proof.
  intros eventId Hevent Hprice.
  apply Qle_bool_iff in Hprice.
  destruct (register_exits svc userId body w) as (r & w' & Hrun & Hexit).
  exists r, w'. split; [done|].
  destruct Hexit as [Hnone| | |event' result w' eid Hevent' _ _ Hpaid _
                     |event' result w' eid data Hevent' _ _ _ Hcreate];
    try (left; cbn; by intuition).
  - subst eventId. congruence.
  - subst eventId eid. congruence.
  - destruct result as [err|c].
    + apply ticket_create_inl in Hcreate as [Hts _]. left. cbn in *. by intuition.
    + pose proof Hrun as Hinv.
      apply register_created_inv in Hinv
        as (ev & u & Hev & Hu & _ & _ & _ & _ & -> & _ & Hts & _).
      assert (ev = event) as -> by (subst eventId; congruence).
      right. eexists _, u. split; [done|]. by repeat split.
Qed.
(** X3: the token a free registration stored with a REGISTERED ticket is
    accepted by [validate] for that event at any later time, and checks
    that ticket in.  This relies on jsonwebtoken verifying what it signed,
    on a non-empty event id, on a store that satisfies its schema and on
    the nonce drawn for the check-in being new. *)
Theorem registered_credential_accepted (userId : string)
    (body : RegisterTicketInput.t) (w w1 : World) (c : CreatedTicket.t) (d : Z) :
  let eventId := RegisterTicketInput.eventId body in
  let payload := payload_issued_in userId eventId w in
  let token := jwt_sign payload (privateKey svc) in
  run (register svc userId body) w
  = (inr (Response.mk 201 (RegisterFree c false)), w1) ->
  Ticket.status (CreatedTicket.ticket c) = REGISTERED ->
  verifies_at_any_time svc token payload ->
  eventId <> "" ->
  schema_holds w = true ->
  next_random_unused w1 = true ->
  Ticket.jwtToken (CreatedTicket.ticket c) = Some token
  /\ exists r w2,
       run (validate svc (presented token eventId)) (advance_clock d w1) = (inr r, w2)
       /\ Response.code r = 200%nat
       /\ ValidationResult.valid (Response.body r) = true
       /\ ValidationResult.color (Response.body r) = green
       /\ exists t',
            TicketWithDetails.ticket <$> ValidationResult.ticket (Response.body r)
            = Some t'
            /\ In t' (tickets w2)
            /\ Ticket.id t' = Ticket.id (CreatedTicket.ticket c)
            /\ Ticket.status t' = CHECKED_IN
            /\ Ticket.checkInTime t' = Some (clock w + d)%Z.
Proof.
  intros eventId payload token Hrun Hstatus [Htok Hverify] He Hschema Hfresh.
  pose proof (run_schema (register svc userId body) w Hschema) as Hschema1.
  rewrite Hrun in Hschema1. cbn in Hschema1.
  apply register_created_inv in Hrun
    as (event & u & Hevent & Hu & _ & Hid & _ & Hn & -> & _ & Hts & _ & _ & _ & _ & Hclock).
  cbn in Hstatus, Hid, Hn |- *. split; [done|].
  set (t := Ticket.mk _ _ _ _ _ _ _) in *.
  assert (find_ticket_by_nonce (TicketPayload.nonce payload)
            (tickets (advance_clock d w1)) = Some t) as Hfound.
  { cbn. rewrite Hts. by apply find_ticket_by_nonce_new. }
  destruct (validate_accepts svc token eventId payload t (advance_clock d w1))
    as (u' & ev & Hu' & Haccept); try done.
  cbv zeta in Haccept. rewrite Haccept.
  eexists _, _. split; [done|]. cbn. do 3 (split; [done|]).
  eexists. split; [done|]. split.
  - apply replace_ticket_In.
    change (is_Some (find_ticket_by_id (Ticket.id t) (tickets w1))).
    apply schema_holds_elim in Hschema1 as (Hids & _ & _).
    rewrite (find_ticket_by_id_In (tickets w1) t Hids); [done|].
    rewrite Hts. apply in_or_app. right. by left.
  - by rewrite Hclock.
Qed.

(** X4: a free registration that put the caller on the waiting list has
    issued a token all the same; presented to [validate] it is turned
    away in red with the status WAITLISTED named in the answer, after the
    one lookup and without any write. *)
Theorem waitlisted_credential_rejected (userId : string)
    (body : RegisterTicketInput.t) (w w1 : World) (c : CreatedTicket.t) (d : Z) :
  let eventId := RegisterTicketInput.eventId body in
  let payload := payload_issued_in userId eventId w in
  let token := jwt_sign payload (privateKey svc) in
  run (register svc userId body) w
  = (inr (Response.mk 201 (RegisterFree c false)), w1) ->
  Ticket.status (CreatedTicket.ticket c) = WAITLISTED ->
  verifies_at_any_time svc token payload ->
  eventId <> "" ->
  Ticket.jwtToken (CreatedTicket.ticket c) = Some token
  /\ run (validate svc (presented token eventId)) (advance_clock d w1)
     = (inr (reject 200 "Ticket status: WAITLISTED" "Invalid status: WAITLISTED"),
        log_query (QTicketFindUniqueByNonce (entropy w (drawn w)))
          (advance_clock d w1)).
Proof.
  intros eventId payload token Hrun Hstatus [Htok Hverify] He.
  apply register_created_inv in Hrun
    as (event & u & Hevent & Hu & _ & Hid & _ & Hn & -> & _ & Hts & _).
  cbn in Hstatus, Hid, Hn |- *. split; [done|].
  set (t := Ticket.mk _ _ _ _ _ _ _) in *.
  assert (find_ticket_by_nonce (TicketPayload.nonce payload)
            (tickets (advance_clock d w1)) = Some t) as Hfound.
  { cbn. rewrite Hts. by apply find_ticket_by_nonce_new. }
  assert (Ticket.status t = WAITLISTED) as Hst by exact Hstatus.
  rewrite (validate_invalid_status svc token eventId (advance_clock d w1) Htok He
             payload (Hverify _) eq_refl t Hfound); by rewrite Hst.
Qed.

(** X5: once a registration has created a ticket, the same request
    repeated at any later time is answered 409 with that ticket in the
    body, and creates nothing. *)
Theorem second_registration_conflicts (userId : string)
    (body : RegisterTicketInput.t) (w w1 : World) (r : Response.t RegisterBody)
    (d : Z) :
  run (register svc userId body) w = (inr r, w1) ->
  In (Response.code r) [200; 201]%nat ->
  exists t w2,
    tickets w1 = (tickets w ++ [t])%list
    /\ run (register svc userId body) (advance_clock d w1)
       = (inr (Response.mk 409
                 (RegisterError "Already registered"
                    (Some "You already have a ticket for this event") (Some t))),
          w2)
    /\ tickets w2 = tickets w1.
Proof.
  intros Hrun Hcode. apply register_exit_of_run in Hrun.
  assert (exists event data include c,
            find_event (RegisterTicketInput.eventId body) (events w) = Some event
            /\ Event.isPrivate event
               && invite_differs (Event.inviteToken event)
                    (RegisterTicketInput.inviteToken body) = false
            /\ find_ticket_by_user_event userId (RegisterTicketInput.eventId body)
                 (tickets w) = None
            /\ TicketCreate.userId data = userId
            /\ TicketCreate.eventId data = RegisterTicketInput.eventId body
            /\ exists w0, tickets w0 = tickets w /\ events w0 = events w
                 /\ ticket_create data include w0 = (inr c, w1))
    as (event & data & include & c & Hevent & Hinvite & Hnone & Hdu & Hde
        & w0 & Hts0 & Hes0 & Hcreate).
  { destruct Hrun as [| | |event [err|c] w1 eventId Hevent Hinvite Hnone _ Hcreate
                      |event [err|c] w1 eventId data Hevent Hinvite Hnone _ Hcreate];
      cbn in Hcode; try (exfalso; by intuition).
    - exists event, (paid_ticket_data userId eventId), false, c.
      do 5 (split; [done|]).
      refine (ex_intro _ _ (conj _ (conj _ Hcreate))); reflexivity.
    - exists event, data, true, c.
      do 5 (split; [done|]).
      refine (ex_intro _ _ (conj _ (conj _ Hcreate))); reflexivity. }
  pose proof (ticket_create_effect data include w0) as (_ & He1 & Hc).
  rewrite Hcreate in He1, Hc. cbn in He1, Hc. destruct Hc as [Hts1 Hrow].
  rewrite Hts0 in Hts1. rewrite Hes0 in He1.
  exists (CreatedTicket.ticket c). eexists. split; [done|].
  unfold register. cbn. rewrite He1, Hevent. cbn. rewrite Hinvite. cbn.
  rewrite Hts1.
  rewrite (find_ticket_by_user_event_new userId (RegisterTicketInput.eventId body)
             (tickets w) (CreatedTicket.ticket c) Hnone);
    [|by rewrite Hrow|by rewrite Hrow].
  cbn. split; [done|]. done.
Qed.
(** X6: served alone, a registration for an event whose price is not
    positive never takes the number of REGISTERED and CHECKED_IN tickets
    of that event above the larger of what it was and the capacity: an
    event that is not overbooked stays so. *)
Theorem free_registration_keeps_capacity (userId : string)
    (body : RegisterTicketInput.t) (event : Event.t) (w w' : World)
    (r : Response.t RegisterBody) :
  let eventId := RegisterTicketInput.eventId body in
  find_event eventId (events w) = Some event ->
  (Event.price event <= 0)%Q ->
  run (register svc userId body) w = (inr r, w') ->
  (Z.of_nat (sold eventId (tickets w'))
   <= Z.max (Z.of_nat (sold eventId (tickets w))) (Event.capacity event))%Z.
Proof.
  intros eventId Hevent Hprice Hrun. subst eventId.
  apply Qle_bool_iff in Hprice.
  apply register_exit_of_run in Hrun.
  destruct Hrun as [Hnone| | |event' result w' eid Hevent' _ _ Hpaid _
                    |event' result w' eid data Hevent' _ _ _ Hcreate];
    try (cbn; lia).
  - subst eid. congruence.
  - subst eid. assert (event' = event) as -> by congruence.
    destruct result as [err|c].
    { apply ticket_create_inl in Hcreate as [-> _]. cbn. lia. }
    apply ticket_create_inr in Hcreate as (_ & _ & _ & _ & _ & _ & _ & _ & ->).
    cbn [tickets set_tickets next_key log_query draw after_reads snd].
    unfold sold at 1. rewrite count_tickets_app. fold (sold (RegisterTicketInput.eventId body) (tickets w)).
    unfold data, free_ticket_data. cbn [TicketCreate.status TicketCreate.eventId].
    destruct (Z.leb_spec (Event.capacity event)
                (Z.of_nat (sold (RegisterTicketInput.eventId body) (tickets w))))
      as [Hfull|Hroom].
    + unfold count_tickets. cbn.
      replace (bool_decide (WAITLISTED ∈ [REGISTERED; CHECKED_IN])) with false
        by reflexivity.
      rewrite andb_false_r. cbn. lia.
    + unfold count_tickets. cbn.
      destruct (_ && _); cbn; lia.
Qed.
End Registration.

(** Alice registers for the free gala of [Demo]: one seat of two is taken. *)
Lemma register_free_event_witness :
  exists r w',
    run (register (H := Demo.platform) Demo.svc "u-alice" Tour.for_gala) Demo.w0
    = (inr r, w')
    /\ exists t u,
         r = Response.mk 201
               (RegisterFree (CreatedTicket.mk t (Some u) (Some Demo.gala)) false)
         /\ tickets w' = [t]
         /\ Ticket.status t = REGISTERED
         /\ Ticket.nonce t = Some "rnd-0"
         /\ Ticket.jwtToken t = Some "jwt.rnd-0".
Proof.
  destruct (register_free_event (H := Demo.platform) Demo.svc "u-alice" Tour.for_gala
              Demo.gala Demo.w0)
    as (r & w' & Hrun & [[_ Hnone]|(t & u & Hr & Hts & _ & Hst & Hn & Hj & _)]).
  - vm_compute. reflexivity.
  - discriminate.
  - exfalso. vm_compute in Hrun. injection Hrun as _ <-. discriminate Hnone.
  - exists r, w'. split; [exact Hrun|]. exists t, u. repeat split; assumption.
Defined.

(** The token Alice received is accepted at the door a day later. *)
Lemma registered_credential_accepted_witness :
  exists r w2,
    run (validate (H := Demo.platform) Demo.svc (presented "jwt.rnd-0" "e-gala"))
        (advance_clock 86400000 Demo.registered) = (inr r, w2)
    /\ ValidationResult.valid (Response.body r) = true
    /\ ValidationResult.color (Response.body r) = green.
Proof.
  destruct (registered_credential_accepted (H := Demo.platform) Demo.svc "u-alice"
              Tour.for_gala Demo.w0 Demo.registered
              (CreatedTicket.mk
                 (Ticket.mk "tkt-0" (Some "jwt.rnd-0") REGISTERED (Some "rnd-0") None
                    "u-alice" "e-gala")
                 (Some Demo.alice) (Some Demo.gala))
              86400000)
    as (_ & r & w2 & Hrun & _ & Hvalid & Hcolor & _).
  - vm_compute. reflexivity.
  - vm_compute. reflexivity.
  - split; [discriminate|]. intros now. reflexivity.
  - discriminate.
  - vm_compute. reflexivity.
  - vm_compute. reflexivity.
  - exists r, w2. repeat split; assumption.
Defined.

(** With no seat left Alice is put on the waiting list, and her token is
    turned away at the door. *)
Lemma waitlisted_credential_rejected_witness :
  run (validate (H := Demo.platform) Demo.svc (presented "jwt.rnd-0" "e-gala"))
      (advance_clock 86400000
         (run (register (H := Demo.platform) Demo.svc "u-alice" Tour.for_gala)
              Tour.sold_out).2)
  = (inr (reject 200 "Ticket status: WAITLISTED" "Invalid status: WAITLISTED"),
     log_query (QTicketFindUniqueByNonce "rnd-0")
       (advance_clock 86400000
          (run (register (H := Demo.platform) Demo.svc "u-alice" Tour.for_gala)
               Tour.sold_out).2)).
Proof.
  apply (waitlisted_credential_rejected (H := Demo.platform) Demo.svc "u-alice"
           Tour.for_gala Tour.sold_out _
           (CreatedTicket.mk
              (Ticket.mk "tkt-0" (Some "jwt.rnd-0") WAITLISTED (Some "rnd-0") None
                 "u-alice" "e-gala")
              (Some Demo.alice) (Some Tour.gala_full))
           86400000).
  - vm_compute. reflexivity.
  - vm_compute. reflexivity.
  - split; [discriminate|]. intros now. reflexivity.
  - discriminate.
Defined.

(** Alice asks for a second ticket to the gala. *)
Lemma second_registration_conflicts_witness :
  exists t w2,
    tickets Demo.registered = [t]
    /\ run (register (H := Demo.platform) Demo.svc "u-alice" Tour.for_gala)
           (advance_clock 1000 Demo.registered)
       = (inr (Response.mk 409
                 (RegisterError "Already registered"
                    (Some "You already have a ticket for this event") (Some t))),
          w2)
    /\ tickets w2 = tickets Demo.registered.
Proof.
  apply (second_registration_conflicts (H := Demo.platform) Demo.svc "u-alice"
           Tour.for_gala Demo.w0 Demo.registered
           (Response.mk 201
              (RegisterFree
                 (CreatedTicket.mk
                    (Ticket.mk "tkt-0" (Some "jwt.rnd-0") REGISTERED (Some "rnd-0") None
                       "u-alice" "e-gala")
                    (Some Demo.alice) (Some Demo.gala))
                 false))
           1000).
  - vm_compute. reflexivity.
  - right. left. reflexivity.
Defined.

(** Bob asks for the seat Alice has taken: he is put on the waiting
    list, and the gala stays at its capacity. *)
Lemma free_registration_keeps_capacity_witness :
  (Z.of_nat (sold "e-gala"
               (tickets (run (register (H := Demo.platform) Demo.svc "u-bob"
                                Tour.for_gala) Tour.last_seat_taken).2))
   <= Z.max (Z.of_nat (sold "e-gala" (tickets Tour.last_seat_taken)))
            (Event.capacity Tour.gala_last_seat))%Z.
Proof.
  apply (free_registration_keeps_capacity (H := Demo.platform) Demo.svc "u-bob"
           Tour.for_gala Tour.gala_last_seat Tour.last_seat_taken _
           (Response.mk 201
              (RegisterFree
                 (CreatedTicket.mk
                    (Ticket.mk "tkt-1" (Some "jwt.rnd-1") WAITLISTED (Some "rnd-1") None
                       "u-bob" "e-gala")
                    (Some Demo.bob) (Some Tour.gala_last_seat))
                 false))).
  - vm_compute. reflexivity.
  - discriminate.
  - vm_compute. reflexivity.
Defined.

(** ** Registrations that overlap *)

(** [create] is rejected when the pair of user and event has a row. *)
Lemma ticket_create_conflict (d : TicketCreate.t) (include : bool) (w : World)
    (t0 : Ticket.t) :
  find_ticket_by_user_event (TicketCreate.userId d) (TicketCreate.eventId d) (tickets w)
  = Some t0 ->
  exists err, ticket_create d include w = (inl err, (next_key w).2).
Proof.
  intros Hdup. unfold ticket_create. cbn. rewrite Hdup.
  destruct (find_user _ _); [|by eexists].
  destruct (find_event _ _); [|by eexists].
  destruct (find_ticket_by_id _ _); by eexists.
Qed.

Lemma ticket_create_succeeds (d : TicketCreate.t) (include : bool) (w : World)
    (u : User.t) (e : Event.t) :
  find_user (TicketCreate.userId d) (users w) = Some u ->
  find_event (TicketCreate.eventId d) (events w) = Some e ->
  find_ticket_by_id (keys w (created w)) (tickets w) = None ->
  find_ticket_by_user_event (TicketCreate.userId d) (TicketCreate.eventId d) (tickets w)
  = None ->
  nonce_taken (keys w (created w)) (TicketCreate.nonce d) (tickets w) = false ->
  ticket_create d include w
  = let t := Ticket.mk (keys w (created w)) (TicketCreate.jwtToken d)
               (TicketCreate.status d) (TicketCreate.nonce d) None
               (TicketCreate.userId d) (TicketCreate.eventId d) in
    (inr (if include then CreatedTicket.mk t (Some u) (Some e)
          else CreatedTicket.mk t None None),
     set_tickets (tickets w ++ [t]) (next_key w).2).
Proof.
  intros Hu He Hid Hpair Hn. unfold ticket_create.
  cbn [next_key fst snd users events tickets keys created].
  by rewrite Hu, He, Hid, Hpair, Hn.
Qed.

(** A request whose reads, taken from [w], found the event, accepted
    the invite and found no ticket of the caller. *)
Section RegisterRace.
Context `{Platform}.
Variable svc : JWTService.
Variables (userId : string) (body : RegisterTicketInput.t) (event : Event.t)
  (w : World).
Let eventId := RegisterTicketInput.eventId body.
Hypothesis Hevent : find_event eventId (events w) = Some event.
Hypothesis Hinvite :
  Event.isPrivate event
  && invite_differs (Event.inviteToken event) (RegisterTicketInput.inviteToken body)
  = false.
Hypothesis Hnone : find_ticket_by_user_event userId eventId (tickets w) = None.

(** The first three turns are the three reads. *)
Lemma register_reads :
  (turns 3 (register svc userId body) w).2 = after_reads userId eventId w.
Proof.
  unfold register. cbn. fold eventId. rewrite Hevent. cbn. rewrite Hinvite. cbn.
  rewrite Hnone. cbn.
  destruct (Qle_bool (Event.price event) 0); reflexivity.
Qed.

(** The fourth turn is the [create], in whatever world it is taken: the
    status was decided from the count read in [w], the nonce and the
    token are made in the world of the turn. *)
Lemma register_create_turn_free (w1 : World) :
  Qle_bool (Event.price event) 0 = true ->
  turn (turns 3 (register svc userId body) w).1 w1
  = let data :=
      TicketCreate.mk userId eventId
        (if (Event.capacity event <=? Z.of_nat (sold eventId (tickets w)))%Z
         then WAITLISTED else REGISTERED)
        (Some (jwt_sign (payload_issued_in userId eventId w1) (privateKey svc)))
        (Some (entropy w1 (drawn w1))) in
    match ticket_create data true (log_query (QTicketCreate data) (draw w1).2) with
    | (inl _, w2) => (Ret register_failed, w2)
    | (inr c, w2) => (Ret (Response.mk 201 (RegisterFree c false)), w2)
    end.
Proof.
  intros Hfree.
  unfold register. cbn. fold eventId. rewrite Hevent. cbn. rewrite Hinvite. cbn.
  rewrite Hnone. cbn. rewrite Hfree. cbn.
  by destruct (ticket_create _ _ _) as [[err|c] w2].
Qed.

Lemma register_create_turn_paid (w1 : World) :
  Qle_bool (Event.price event) 0 = false ->
  turn (turns 3 (register svc userId body) w).1 w1
  = let data := paid_ticket_data userId eventId in
    match ticket_create data false (log_query (QTicketCreate data) w1) with
    | (inl _, w2) => (Ret register_failed, w2)
    | (inr c, w2) =>
        (Ret (Response.mk 200
                (RegisterPaid (CreatedTicket.ticket c) true "demo_client_secret"
                   (Event.price event))), w2)
    end.
Proof.
  intros Hpaid.
  unfold register. cbn. fold eventId. rewrite Hevent. cbn. rewrite Hinvite. cbn.
  rewrite Hnone. cbn. rewrite Hpaid. cbn.
  by destruct (ticket_create _ _ _) as [[err|c] w2].
Qed.
(** X7: a registration that has done its three reads and found no ticket
    of the caller for the event sends its [create] whatever has happened
    since.  If by then the caller has a ticket for the event (a second
    request of theirs got there first), the store rejects the row and the
    request is answered 500, not 409; the table is unchanged. *)
Theorem late_duplicate_registration_fails (w1 : World) (t0 : Ticket.t) :
  find_ticket_by_user_event userId eventId (tickets w1) = Some t0 ->
  exists w2 data,
    turn (turns 3 (register svc userId body) w).1 w1 = (Ret register_failed, w2)
    /\ tickets w2 = tickets w1
    /\ queries w2 = (queries w1 ++ [QTicketCreate data])%list
    /\ TicketCreate.userId data = userId
    /\ TicketCreate.eventId data = eventId.
Proof.
  intros Hdup.
  destruct (Qle_bool (Event.price event) 0) eqn:Hprice.
  - rewrite (register_create_turn_free w1 Hprice). cbv zeta.
    match goal with
    | |- context [ticket_create ?d ?i ?v] =>
        destruct (ticket_create_conflict d i v t0) as (err & ->); [exact Hdup|];
        exists (next_key v).2, d
    end.
    by repeat split.
  - rewrite (register_create_turn_paid w1 Hprice). cbv zeta.
    match goal with
    | |- context [ticket_create ?d ?i ?v] =>
        destruct (ticket_create_conflict d i v t0) as (err & ->); [exact Hdup|];
        exists (next_key v).2, d
    end.
    by repeat split.
Qed.

(** X8: a registration for a free event decides between REGISTERED and
    WAITLISTED from the count it read.  If it counted a free seat, the row
    it creates later is REGISTERED however many tickets have been sold in
    between, so the REGISTERED and CHECKED_IN tickets grow by one even
    when the event is full by then. *)
Theorem stale_count_oversells (w1 : World) (u : User.t) :
  (Event.price event <= 0)%Q ->
  (Z.of_nat (sold eventId (tickets w)) < Event.capacity event)%Z ->
  find_user userId (users w1) = Some u ->
  find_event eventId (events w1) = Some event ->
  find_ticket_by_id (keys w1 (created w1)) (tickets w1) = None ->
  find_ticket_by_user_event userId eventId (tickets w1) = None ->
  next_random_unused w1 = true ->
  exists t w2,
    turn (turns 3 (register svc userId body) w).1 w1
    = (Ret (Response.mk 201
              (RegisterFree (CreatedTicket.mk t (Some u) (Some event)) false)), w2)
    /\ Ticket.status t = REGISTERED
    /\ tickets w2 = (tickets w1 ++ [t])%list
    /\ sold eventId (tickets w2) = S (sold eventId (tickets w1)).
Proof.
  intros Hprice%Qle_bool_iff Hroom Hu Hev Hid Hpair Hfresh.
  rewrite (register_create_turn_free w1 Hprice). cbv zeta.
  apply Z.leb_gt in Hroom. rewrite Hroom.
  rewrite (ticket_create_succeeds _ true _ u event); try done.
  2:{ apply (next_random_unused_not_taken w1 _ Hfresh). }
  cbv zeta. eexists _, _. split; [done|]. split; [done|]. split; [done|].
  cbn. unfold sold. rewrite count_tickets_app. unfold count_tickets at 2. cbn.
  rewrite bool_decide_eq_true_2 by done.
  replace (bool_decide (REGISTERED ∈ [REGISTERED; CHECKED_IN])) with true by reflexivity.
  cbn. lia.
Qed.
End RegisterRace.

(** Two requests of Alice for the gala, both past their reads before
    either creates its row: the one that creates second is answered 500. *)
Lemma late_duplicate_registration_fails_witness :
  exists w2 data,
    turn (turns 3 (register (H := Demo.platform) Demo.svc "u-alice" Tour.for_gala)
                Demo.w0).1 Demo.registered
    = (Ret register_failed, w2)
    /\ tickets w2 = tickets Demo.registered
    /\ queries w2 = (queries Demo.registered ++ [QTicketCreate data])%list
    /\ TicketCreate.userId data = "u-alice"
    /\ TicketCreate.eventId data = "e-gala".
Proof.
  apply (late_duplicate_registration_fails (H := Demo.platform) Demo.svc "u-alice"
           Tour.for_gala Demo.gala Demo.w0) with
    (t0 := Ticket.mk "tkt-0" (Some "jwt.rnd-0") REGISTERED (Some "rnd-0") None
             "u-alice" "e-gala").
  - vm_compute. reflexivity.
  - vm_compute. reflexivity.
  - vm_compute. reflexivity.
  - vm_compute. reflexivity.
Defined.

(** Bob counts the tickets while the last seat is free, and creates his
    row after Alice has taken it: two REGISTERED tickets for one seat. *)
Lemma stale_count_oversells_witness :
  exists t w2,
    turn (turns 3 (register (H := Demo.platform) Demo.svc "u-bob" Tour.for_gala)
                Tour.last_seat).1 Tour.last_seat_taken
    = (Ret (Response.mk 201
              (RegisterFree
                 (CreatedTicket.mk t (Some Demo.bob) (Some Tour.gala_last_seat))
                 false)), w2)
    /\ Ticket.status t = REGISTERED
    /\ tickets w2 = (tickets Tour.last_seat_taken ++ [t])%list
    /\ sold "e-gala" (tickets w2) = S (sold "e-gala" (tickets Tour.last_seat_taken)).
Proof.
  apply (stale_count_oversells (H := Demo.platform) Demo.svc "u-bob" Tour.for_gala
           Tour.gala_last_seat Tour.last_seat).
  - vm_compute. reflexivity.
  - vm_compute. reflexivity.
  - vm_compute. reflexivity.
  - discriminate.
  - vm_compute. reflexivity.
  - vm_compute. reflexivity.
  - vm_compute. reflexivity.
  - vm_compute. reflexivity.
  - vm_compute. reflexivity.
  - vm_compute. reflexivity.
Defined.

(** ** Requests that [validate] turns away *)

Section Rejections.
Context `{Platform}.
Variable svc : JWTService.

(** X9: on a store that satisfies its schema, a [validate] request that
    is not answered as valid leaves the users, the events, the tickets and
    the clock as they were. *)
Theorem validate_rejections_write_nothing (body : ValidateTicketInput.t)
    (w w' : World) (r : Response.t ValidationResult.t) :
  run (validate svc body) w = (inr r, w') ->
  schema_holds w = true ->
  ValidationResult.valid (Response.body r) = false ->
  tickets w' = tickets w /\ users w' = users w /\ events w' = events w
  /\ clock w' = clock w.
Proof.
  intros Hrun Hschema Hvalid.
  apply schema_holds_elim in Hschema as (_ & _ & Hfk).
  destruct (validate_exit_of_run svc body w w' r Hrun)
    as [| | | | | |tok e payload t [err|updated] w' _ _ _ _ _ Hfound _ Hupd];
    try done.
  - by apply ticket_update_inl in Hupd as ->.
  - apply ticket_update_inr in Hupd as (t0 & Hf0 & _ & -> & ->).
    apply find_ticket_by_id_Some in Hf0 as [Hin0 _].
    destruct (Hfk t0 Hin0) as [[u Hu] _].
    cbn in Hvalid. unfold apply_update in Hvalid. cbn in Hvalid.
    rewrite Hu in Hvalid. discriminate.
Qed.
End Rejections.

(** A forged token leaves Alice's ticket as it is. *)
Lemma validate_rejections_write_nothing_witness :
  tickets (run (validate (H := Demo.platform) Demo.svc
                  (presented "jwt.forged" "e-gala")) Demo.registered).2
  = tickets Demo.registered.
Proof.
  apply (validate_rejections_write_nothing (H := Demo.platform) Demo.svc
           (presented "jwt.forged" "e-gala") Demo.registered _
           (reject 200 "Invalid or counterfeit ticket"
                   "JWT signature verification failed")).
  - vm_compute. reflexivity.
  - vm_compute. reflexivity.
  - vm_compute. reflexivity.
Defined.


(** ** Attendance statistics *)

Lemma find_event_Some (id : string) (es : list Event.t) (e : Event.t) :
  find_event id es = Some e -> In e es /\ Event.id e = id.
Proof.
  unfold find_event. intros Hf. apply find_some in Hf as [Hin Hb].
  by apply bool_decide_eq_true in Hb.
Qed.

(** The tickets of an event fall into the four statuses. *)
Lemma count_tickets_partition (e : string) (ts : list Ticket.t) :
  (count_tickets e [REGISTERED] ts + count_tickets e [CHECKED_IN] ts
   + count_tickets e [WAITLISTED] ts + count_tickets e [CANCELLED] ts)%nat
  = length (List.filter (fun t => bool_decide (Ticket.eventId t = e)) ts).
Proof.
  unfold count_tickets. induction ts as [|t ts IH]; [done|]. cbn.
  destruct (bool_decide (Ticket.eventId t = e)); cbn; [|exact IH].
  rewrite <- IH.
  destruct (Ticket.status t);
    repeat match goal with
      | |- context [bool_decide (?a ∈ ?l)] =>
          let b := eval vm_compute in (bool_decide (a ∈ l)) in
          change (bool_decide (a ∈ l)) with b
      end; cbn; lia.
Qed.

Lemma count_tickets_one (e : string) (statuses : list TicketStatus) (t : Ticket.t) :
  count_tickets e statuses [t]
  = if bool_decide (Ticket.eventId t = e) && bool_decide (Ticket.status t ∈ statuses)
    then 1%nat else 0%nat.
Proof. unfold count_tickets. cbn. by destruct (_ && _). Qed.

(** Replacing a row changes a count by what the old row and the new row
    contribute to it. *)
Lemma count_tickets_replace (e : string) (statuses : list TicketStatus)
    (id : string) (t0 t' : Ticket.t) (ts : list Ticket.t) :
  let counts t := bool_decide (Ticket.eventId t = e)
                  && bool_decide (Ticket.status t ∈ statuses) in
  find_ticket_by_id id ts = Some t0 ->
  (count_tickets e statuses (replace_ticket id t' ts) + (if counts t0 then 1 else 0)
   = count_tickets e statuses ts + (if counts t' then 1 else 0))%nat.
Proof.
  intros counts. unfold find_ticket_by_id, count_tickets.
  induction ts as [|x ts IH]; [done|]. cbn.
  destruct (bool_decide (Ticket.id x = id)).
  - intros [= ->]. cbn. fold (counts t0). fold (counts t').
    destruct (counts t0), (counts t'); cbn; lia.
  - intros Hf. specialize (IH Hf). cbn. fold (counts x).
    destruct (counts x); cbn; lia.
Qed.

Section StatsProperties.
Context `{Numbers}.

Lemma stats_run (eventId : string) (w : World) :
  run (stats eventId) w
  = match find_event eventId (events w) with
    | None =>
        (inr (Response.mk 404 (StatsError "Event not found")),
         log_query (QEventFindUnique eventId) w)
    | Some event =>
        let registered := count_tickets eventId [REGISTERED] (tickets w) in
        let checkedIn := count_tickets eventId [CHECKED_IN] (tickets w) in
        let waitlisted := count_tickets eventId [WAITLISTED] (tickets w) in
        let rate :=
          if (0 <? registered + checkedIn)%nat
          then number_mul
                 (number_div (number_of_nat checkedIn)
                             (number_of_nat (registered + checkedIn)))
                 (number_of_nat 100)
          else number_of_nat 0 in
        (inr (Response.mk 200
                (StatsOk
                   (AttendanceStats.mk (Event.id event) (Event.title event)
                      registered checkedIn waitlisted (Event.capacity event)
                      (number_div (Math_round (number_mul rate (number_of_nat 100)))
                                  (number_of_nat 100))
                      (toISOString (clock w))))),
         log_query (QTicketCount eventId [WAITLISTED])
           (log_query (QTicketCount eventId [CHECKED_IN])
              (log_query (QTicketCount eventId [REGISTERED])
                 (log_query (QEventFindUnique eventId) w))))
    end.
Proof.
  unfold stats. cbn. by destruct (find_event _ _).
Qed.

(** X11: the statistics request is always answered and changes no table.
    For an unknown event it answers 404 after one statement.  Otherwise
    it answers 200 after four statements, with the event's own id and
    capacity, and its three totals count disjoint tickets of the event:
    together with the CANCELLED ones they are all of the event's tickets. *)
Theorem stats_reads_and_partitions (eventId : string) (w : World) :
  exists r w',
    run (stats eventId) w = (inr r, w')
    /\ tickets w' = tickets w /\ users w' = users w /\ events w' = events w
    /\ match find_event eventId (events w) with
       | None =>
           r = Response.mk 404 (StatsError "Event not found")
           /\ queries w' = (queries w ++ [QEventFindUnique eventId])%list
       | Some event =>
           exists s,
             r = Response.mk 200 (StatsOk s)
             /\ AttendanceStats.eventId s = eventId
             /\ AttendanceStats.capacity s = Event.capacity event
             /\ (AttendanceStats.totalRegistered s + AttendanceStats.totalCheckedIn s
                 + AttendanceStats.totalWaitlisted s
                 + count_tickets eventId [CANCELLED] (tickets w))%nat
                = length (List.filter (fun t => bool_decide (Ticket.eventId t = eventId))
                            (tickets w))
             /\ queries w'
                = (queries w
                   ++ [QEventFindUnique eventId; QTicketCount eventId [REGISTERED];
                       QTicketCount eventId [CHECKED_IN];
                       QTicketCount eventId [WAITLISTED]])%list
       end.
Proof.
  rewrite stats_run.
  destruct (find_event eventId (events w)) as [event|] eqn:Hevent.
  - cbv zeta. eexists _, _. split; [done|]. do 3 (split; [done|]).
    eexists. split; [done|]. cbn.
    apply find_event_Some in Hevent as [_ Hid].
    split; [done|]. split; [done|]. split; [apply count_tickets_partition|].
    by rewrite <- !app_assoc.
  - eexists _, _. split; [done|]. by repeat split.
Qed.
End StatsProperties.

(** Evaluate the membership tests between concrete statuses in [H]. *)
Ltac decide_status_in H :=
  repeat match type of H with
    | context [bool_decide (?a ∈ ?l)] =>
        let b := eval vm_compute in (bool_decide (a ∈ l)) in
        change (bool_decide (a ∈ l)) with b in H
    end.

Ltac decide_status_goal :=
  repeat match goal with
    | |- context [bool_decide (?a ∈ ?l)] =>
        let b := eval vm_compute in (bool_decide (a ∈ l)) in
        change (bool_decide (a ∈ l)) with b
    end.

Section CheckInStats.
Context `{Platform} `{Numbers}.
Variable svc : JWTService.

(** X12: an accepted check-in shows in the statistics of the checked-in
    ticket's event as one REGISTERED ticket fewer and one CHECKED_IN
    ticket more, with the waiting list unchanged; the statistics of every
    other event are as before. *)
Theorem check_in_moves_one_ticket (body : ValidateTicketInput.t) (w w' : World)
    (r : Response.t ValidationResult.t) :
  run (validate svc body) w = (inr r, w') ->
  ValidationResult.valid (Response.body r) = true ->
  schema_holds w = true ->
  exists t',
    TicketWithDetails.ticket <$> ValidationResult.ticket (Response.body r) = Some t'
    /\ forall eventId, exists before after v v',
         run (stats eventId) w = (inr before, v)
         /\ run (stats eventId) w' = (inr after, v')
         /\ if bool_decide (eventId = Ticket.eventId t') then
              exists s s',
                Response.body before = StatsOk s /\ Response.body after = StatsOk s'
                /\ AttendanceStats.totalCheckedIn s'
                   = S (AttendanceStats.totalCheckedIn s)
                /\ S (AttendanceStats.totalRegistered s')
                   = AttendanceStats.totalRegistered s
                /\ AttendanceStats.totalWaitlisted s'
                   = AttendanceStats.totalWaitlisted s
            else
              match Response.body before, Response.body after with
              | StatsOk s, StatsOk s' =>
                  AttendanceStats.totalCheckedIn s' = AttendanceStats.totalCheckedIn s
                  /\ AttendanceStats.totalRegistered s'
                     = AttendanceStats.totalRegistered s
                  /\ AttendanceStats.totalWaitlisted s'
                     = AttendanceStats.totalWaitlisted s
              | StatsError a, StatsError b => a = b
              | _, _ => False
              end.
Proof.
  intros Hrun Hvalid Hschema.
  destruct (validate_accept_effect svc body w w' r Hrun Hvalid Hschema)
    as (t & n & Hin & Hn & Hst & Hts & _ & Hus & Hev & Hresp).
  cbv zeta in Hts, Hresp.
  set (t' := apply_update _ t) in *.
  exists t'. split; [done|]. intros eventId.
  apply schema_holds_elim in Hschema as (Hids & _ & Hfk).
  pose proof (find_ticket_by_id_In (tickets w) t Hids Hin) as Hfind.
  assert (forall ss,
            (count_tickets eventId ss (tickets w')
             + (if bool_decide (Ticket.eventId t = eventId)
                   && bool_decide (REGISTERED ∈ ss) then 1 else 0)
             = count_tickets eventId ss (tickets w)
               + (if bool_decide (Ticket.eventId t = eventId)
                     && bool_decide (CHECKED_IN ∈ ss) then 1 else 0))%nat) as Hcount.
  { intros ss. rewrite Hts.
    pose proof (count_tickets_replace eventId ss (Ticket.id t) t t' (tickets w) Hfind)
      as Hc.
    cbv beta zeta in Hc. rewrite Hst in Hc.
    change (Ticket.status t') with CHECKED_IN in Hc.
    change (Ticket.eventId t') with (Ticket.eventId t) in Hc. exact Hc. }
  pose proof (Hcount [REGISTERED]) as Hreg.
  pose proof (Hcount [CHECKED_IN]) as Hchk.
  pose proof (Hcount [WAITLISTED]) as Hwait.
  decide_status_in Hreg. decide_status_in Hchk. decide_status_in Hwait.
  rewrite !stats_run, Hev.
  change (Ticket.eventId t') with (Ticket.eventId t).
  destruct (find_event eventId (events w)) as [event|] eqn:Hevent; cbv zeta.
  - eexists _, _, _, _. split; [reflexivity|]. split; [reflexivity|].
    destruct (bool_decide (eventId = Ticket.eventId t)) eqn:Hg.
    + apply bool_decide_eq_true in Hg.
      rewrite (bool_decide_eq_true_2 (Ticket.eventId t = eventId)) in Hreg, Hchk, Hwait
        by done.
      eexists _, _. split; [done|]. split; [done|]. cbn in *. lia.
    + apply bool_decide_eq_false in Hg.
      rewrite (bool_decide_eq_false_2 (Ticket.eventId t = eventId)) in Hreg, Hchk, Hwait
        by done.
      cbn in *. lia.
  - eexists _, _, _, _. split; [reflexivity|]. split; [reflexivity|].
    destruct (bool_decide (eventId = Ticket.eventId t)) eqn:Hg; [|done].
    apply bool_decide_eq_true in Hg.
    subst eventId. destruct (Hfk t Hin) as [_ [event Hevent']]. congruence.
Qed.
(** X13: a registration answered 200 or 201 shows in the statistics of its
    event as one more ticket that is REGISTERED or WAITLISTED (REGISTERED
    when the answer was 200, the paid case), with the CHECKED_IN total
    unchanged. *)
Theorem registration_shows_in_stats (userId : string) (body : RegisterTicketInput.t)
    (w w' : World) (r : Response.t RegisterBody) :
  let eventId := RegisterTicketInput.eventId body in
  run (register svc userId body) w = (inr r, w') ->
  In (Response.code r) [200; 201]%nat ->
  exists s s' v v',
    run (stats eventId) w = (inr (Response.mk 200 (StatsOk s)), v)
    /\ run (stats eventId) w' = (inr (Response.mk 200 (StatsOk s')), v')
    /\ AttendanceStats.totalCheckedIn s' = AttendanceStats.totalCheckedIn s
    /\ (AttendanceStats.totalRegistered s' + AttendanceStats.totalWaitlisted s'
        = S (AttendanceStats.totalRegistered s + AttendanceStats.totalWaitlisted s))%nat
    /\ (Response.code r = 200%nat ->
        AttendanceStats.totalRegistered s' = S (AttendanceStats.totalRegistered s)).
Proof.
  intros eventId Hrun Hcode. apply register_exit_of_run in Hrun.
  rewrite !stats_run.
  assert (exists event t,
            find_event eventId (events w) = Some event
            /\ events w' = events w
            /\ tickets w' = (tickets w ++ [t])%list
            /\ Ticket.eventId t = eventId
            /\ In (Ticket.status t) [REGISTERED; WAITLISTED]
            /\ (Response.code r = 200%nat -> Ticket.status t = REGISTERED))
    as (event & t & Hevent & Hevents & Htickets & Hte & Hst & Hpaid).
  { destruct Hrun as [| | |event [err|c] w' eid Hevent _ _ _ Hcreate
                      |event [err|c] w' eid data Hevent _ _ _ Hcreate];
      cbn in Hcode; try (exfalso; by intuition).
    - apply ticket_create_inr in Hcreate as (_ & _ & _ & _ & _ & _ & _ & _ & ->).
      eexists event, _. split; [done|]. split; [done|]. split; [done|].
      cbn. by intuition.
    - apply ticket_create_inr in Hcreate as (_ & _ & _ & _ & _ & _ & _ & _ & ->).
      eexists event, _. split; [done|]. split; [done|]. split; [done|].
      cbn. split; [done|]. split; [|discriminate].
      destruct (_ <=? _)%Z; by intuition. }
  rewrite Hevents, Hevent, Htickets. cbv zeta.
  eexists _, _, _, _. split; [done|]. split; [done|]. cbn.
  rewrite !count_tickets_app, !count_tickets_one.
  rewrite (bool_decide_eq_true_2 _ Hte). cbn [andb].
  destruct Hst as [Hst|[Hst|[]]]; rewrite <- Hst;
    decide_status_goal; cbn; (split; [lia|]); (split; [lia|]).
  - intros _. lia.
  - intros Hc. specialize (Hpaid Hc). congruence.
Qed.
End CheckInStats.

(** Alice's check-in, seen on the dashboard of the gala. *)
Lemma check_in_moves_one_ticket_witness :
  exists s s' v v',
    run (stats (H := Tour.numbers) "e-gala") Demo.registered
    = (inr (Response.mk 200 (StatsOk s)), v)
    /\ run (stats (H := Tour.numbers) "e-gala") Demo.checked_in
       = (inr (Response.mk 200 (StatsOk s')), v')
    /\ AttendanceStats.totalRegistered s = 1%nat
    /\ AttendanceStats.totalCheckedIn s = 0%nat
    /\ AttendanceStats.totalRegistered s' = 0%nat
    /\ AttendanceStats.totalCheckedIn s' = 1%nat.
Proof.
  destruct (check_in_moves_one_ticket (H := Demo.platform) (H0 := Tour.numbers)
              Demo.svc (presented Demo.credential "e-gala") Demo.registered
              Demo.checked_in
              (accept_response
                 (TicketWithDetails.mk
                    (Ticket.mk "tkt-0" (Some "jwt.rnd-0") CHECKED_IN (Some "rnd-1")
                       (Some 1700000000123%Z) "u-alice" "e-gala")
                    (Some Demo.alice) (Some (EventSummary.of_event Demo.gala)))
                 Demo.alice))
    as (t' & Ht' & Hstats).
  - vm_compute. reflexivity.
  - vm_compute. reflexivity.
  - vm_compute. reflexivity.
  - injection Ht' as <-.
    destruct (Hstats "e-gala") as (before & after & v & v' & Hb & Ha & _).
    vm_compute in Hb, Ha. injection Hb as <- <-. injection Ha as <- <-.
    eexists _, _, _, _. repeat split.
Defined.

(** Alice's registration, seen on the dashboard of the gala. *)
Lemma registration_shows_in_stats_witness :
  exists s s' v v',
    run (stats (H := Tour.numbers) "e-gala") Demo.w0
    = (inr (Response.mk 200 (StatsOk s)), v)
    /\ run (stats (H := Tour.numbers) "e-gala") Demo.registered
       = (inr (Response.mk 200 (StatsOk s')), v')
    /\ AttendanceStats.totalCheckedIn s' = AttendanceStats.totalCheckedIn s
    /\ (AttendanceStats.totalRegistered s' + AttendanceStats.totalWaitlisted s'
        = S (AttendanceStats.totalRegistered s + AttendanceStats.totalWaitlisted s))%nat.
Proof.
  destruct (registration_shows_in_stats (H := Demo.platform) (H0 := Tour.numbers)
              Demo.svc "u-alice" Tour.for_gala Demo.w0 Demo.registered
              (Response.mk 201
                 (RegisterFree
                    (CreatedTicket.mk
                       (Ticket.mk "tkt-0" (Some "jwt.rnd-0") REGISTERED (Some "rnd-0")
                          None "u-alice" "e-gala")
                       (Some Demo.alice) (Some Demo.gala))
                    false)))
    as (s & s' & v & v' & Hb & Ha & Hc & Hsum & _).
  - vm_compute. reflexivity.
  - right. left. reflexivity.
  - exists s, s', v, v'. repeat split; assumption.
Defined.

(** ** Access tokens and the [authenticate] middleware *)

Lemma substring_whole (s : string) : String.substring 0 (String.length s) s = s.
Proof. induction s as [|c s IH]; [done|]. cbn. by rewrite IH. Qed.

Lemma substring_from_Bearer (token : string) :
  substring_from 7 ("Bearer " +:+ token) = token.
Proof.
  unfold substring_from. cbv [String.append]. cbn.
  rewrite Nat.sub_0_r. apply substring_whole.
Qed.

Lemma prefix_split (p h : string) :
  String.prefix p h = true -> exists rest, h = p +:+ rest.
Proof.
  revert h. induction p as [|c p IH]; intros h Hp.
  - by exists h.
  - destruct h as [|c' h]; [discriminate|]. cbn [String.prefix] in Hp.
    destruct (Ascii.ascii_dec c c') as [<-|]; [|discriminate].
    destruct (IH h Hp) as [rest ->]. by exists rest.
Qed.

Lemma prefix_append (p rest : string) : String.prefix p (p +:+ rest) = true.
Proof.
  induction p as [|c p IH].
  - by destruct rest.
  - cbv [String.append]. fold String.append. cbn [String.prefix].
    by destruct (Ascii.ascii_dec c c).
Qed.

Lemma prefix_Bearer (h : string) :
  String.prefix "Bearer " h = true <-> exists token, h = "Bearer " +:+ token.
Proof.
  split; [apply prefix_split|].
  intros [token ->]. apply prefix_append.
Qed.

Lemma falsy_Bearer (token : string) : falsy (Some ("Bearer " +:+ token)) = false.
Proof. by apply falsy_some. Qed.

Section Authenticate.
Context `{AccessTokens}.
Variable JWT_ACCESS_TOKEN_SECRET : option string.

Lemma authenticate_Bearer (token : string) (now : Z) :
  authenticate JWT_ACCESS_TOKEN_SECRET (Some ("Bearer " +:+ token)) now
  = match verifyAccessToken JWT_ACCESS_TOKEN_SECRET token now with
    | None =>
        Answered (Response.mk 401
                    (Refusal.mk "Unauthorized" "Invalid or expired token"))
    | Some payload =>
        Next (AuthUser.mk (UserAuthPayload.sub payload)
                (UserAuthPayload.email payload) (UserAuthPayload.role payload))
    end.
Proof.
  unfold authenticate. rewrite falsy_Bearer.
  cbn [from_option id orb]. rewrite prefix_append. cbn [negb].
  by rewrite substring_from_Bearer.
Qed.

Lemma authenticate_no_Bearer (authorization : option string) (now : Z) :
  (forall token, authorization <> Some ("Bearer " +:+ token)) ->
  authenticate JWT_ACCESS_TOKEN_SECRET authorization now
  = Answered (Response.mk 401 (Refusal.mk "Unauthorized" "No token provided")).
Proof.
  intros Hno. unfold authenticate.
  destruct authorization as [h|]; [|done].
  destruct (falsy (Some h)); [done|]. cbn [from_option id orb].
  destruct (String.prefix "Bearer " h) eqn:Hp; [|done].
  apply prefix_Bearer in Hp as [token ->]. by destruct (Hno token).
Qed.

(** X14: [authenticate] lets a request through exactly when its
    [Authorization] header is the word Bearer, a space and a token that
    [verifyAccessToken] accepts at that time; the user it puts on the
    request is the subject, email and role of the token's payload. *)
Theorem authenticate_passes_iff (authorization : option string) (now : Z)
    (user : AuthUser.t) :
  authenticate JWT_ACCESS_TOKEN_SECRET authorization now = Next user
  <-> exists token payload,
        authorization = Some ("Bearer " +:+ token)
        /\ verifyAccessToken JWT_ACCESS_TOKEN_SECRET token now = Some payload
        /\ user = AuthUser.mk (UserAuthPayload.sub payload)
                    (UserAuthPayload.email payload) (UserAuthPayload.role payload).
Proof.
  split.
  - intros Hpass.
    destruct authorization as [h|]; [|discriminate].
    destruct (String.prefix "Bearer " h) eqn:Hp.
    + apply prefix_Bearer in Hp as [token ->].
      rewrite authenticate_Bearer in Hpass.
      destruct (verifyAccessToken _ token now) as [payload|] eqn:Hv; [|discriminate].
      injection Hpass as <-. by exists token, payload.
    + rewrite authenticate_no_Bearer in Hpass; [discriminate|].
      intros token [= ->]. by rewrite prefix_append in Hp.
  - intros (token & payload & -> & Hv & ->).
    by rewrite authenticate_Bearer, Hv.
Qed.

(** X15: the token [generateAccessToken] makes for a user passes
    [authenticate] as that user, with the same email and role, at any time
    before 24 hours have passed on the clock read for [exp], whatever the
    environment's secret is (set, empty or missing).  This relies on
    jsonwebtoken verifying before its expiry what it signed with the same
    secret. *)
Theorem access_token_round_trip (userId email role : string) (issued expiry : Z) :
  let payload :=
    UserAuthPayload.mk userId email role (issued / 1000) (expiry / 1000 + 86400) in
  let secret := access_token_secret JWT_ACCESS_TOKEN_SECRET in
  (forall now, (now / 1000 < UserAuthPayload.exp payload)%Z ->
     jwt_verify_hs256 (jwt_sign_hs256 payload secret) secret now = Some payload) ->
  forall now, (now / 1000 < expiry / 1000 + 86400)%Z ->
    authenticate JWT_ACCESS_TOKEN_SECRET
      (Some ("Bearer "
             +:+ generateAccessToken JWT_ACCESS_TOKEN_SECRET userId email role
                   issued expiry)) now
    = Next (AuthUser.mk userId email role).
Proof.
  intros payload secret Hlib now Hnow.
  rewrite authenticate_Bearer. unfold verifyAccessToken, generateAccessToken.
  fold secret. change (24 * 60 * 60)%Z with 86400%Z. fold payload.
  by rewrite (Hlib now Hnow).
Qed.
End Authenticate.

(** Alice's access token still passes a millisecond before its 24 hours
    are over. *)
Lemma access_token_round_trip_witness :
  authenticate (H := Tour.access_tokens) Tour.secret
    (Some ("Bearer "
           +:+ generateAccessToken (H := Tour.access_tokens) Tour.secret "u-alice"
                 "alice@example.com" "ATTENDEE" 1700000000123 1700000000123))
    1700086399999
  = Next (AuthUser.mk "u-alice" "alice@example.com" "ATTENDEE").
Proof.
  apply (access_token_round_trip (H := Tour.access_tokens) Tour.secret "u-alice"
           "alice@example.com" "ATTENDEE" 1700000000123 1700000000123).
  - intros now Hnow. cbn in Hnow |- *.
    change (1700000000123 / 1000 + 86400)%Z with 1700086400%Z in Hnow |- *.
    apply Z.ltb_lt in Hnow. rewrite Hnow. reflexivity.
  - vm_compute. reflexivity.
Defined.

Section PostRegister.
Context `{Platform} `{AccessTokens}.
Variable JWT_ACCESS_TOKEN_SECRET : option string.
Variable svc : JWTService.

(** X16: a request to POST /api/tickets/register whose header carries no
    token that verifies is answered 401, and the world is exactly as
    before: no statement has reached the store. *)
Theorem unauthenticated_registration_touches_nothing
    (authorization : option string) (body : RegisterTicketInput.t) (w : World) :
  (forall token, authorization = Some ("Bearer " +:+ token) ->
     verifyAccessToken JWT_ACCESS_TOKEN_SECRET token (clock w) = None) ->
  exists message,
    run (post_register JWT_ACCESS_TOKEN_SECRET svc authorization body) w
    = (inr (Response.mk 401 (RegisterError "Unauthorized" (Some message) None)), w).
Proof.
  intros Hbad. unfold post_register. cbn.
  destruct (authenticate _ authorization (clock w)) as [r|user] eqn:Hauth.
  - destruct authorization as [h|].
    + destruct (String.prefix "Bearer " h) eqn:Hp.
      * apply prefix_Bearer in Hp as [token ->].
        rewrite authenticate_Bearer, (Hbad token eq_refl) in Hauth.
        injection Hauth as <-. by eexists.
      * rewrite authenticate_no_Bearer in Hauth.
        { injection Hauth as <-. by eexists. }
        intros token [= ->]. by rewrite prefix_append in Hp.
    + injection Hauth as <-. by eexists.
  - apply authenticate_passes_iff in Hauth as (token & payload & -> & Hv & _).
    rewrite (Hbad token eq_refl) in Hv. discriminate.
Qed.

Lemma post_register_Bearer (token : string) (payload : UserAuthPayload.t)
    (body : RegisterTicketInput.t) (w : World) :
  verifyAccessToken JWT_ACCESS_TOKEN_SECRET token (clock w) = Some payload ->
  run (post_register JWT_ACCESS_TOKEN_SECRET svc (Some ("Bearer " +:+ token)) body) w
  = run (register svc (UserAuthPayload.sub payload) body) w.
Proof.
  intros Hv. unfold post_register.
  cbn [bind perform run handle].
  by rewrite authenticate_Bearer, Hv.
Qed.

(** X17: a request to POST /api/tickets/register with a token that
    verifies is served as the registration of the token's subject: every
    ticket in the table afterwards was there before or belongs to that
    subject and the requested event. *)
Theorem tickets_go_to_the_token_subject (token : string)
    (payload : UserAuthPayload.t) (body : RegisterTicketInput.t) (w w' : World)
    (r : Response.t RegisterBody) :
  verifyAccessToken JWT_ACCESS_TOKEN_SECRET token (clock w) = Some payload ->
  run (post_register JWT_ACCESS_TOKEN_SECRET svc (Some ("Bearer " +:+ token)) body) w
  = (inr r, w') ->
  run (register svc (UserAuthPayload.sub payload) body) w = (inr r, w')
  /\ forall t, In t (tickets w') ->
               In t (tickets w)
               \/ (Ticket.userId t = UserAuthPayload.sub payload
                   /\ Ticket.eventId t = RegisterTicketInput.eventId body).
Proof.
  intros Hv Hrun. rewrite (post_register_Bearer token payload body w Hv) in Hrun.
  split; [done|]. intros t Hin.
  apply register_exit_of_run in Hrun.
  destruct Hrun as [| | |event result w' eventId _ _ _ _ Hcreate
                    |event result w' eventId data _ _ _ _ Hcreate];
    try (left; exact Hin).
  - destruct result as [err|c].
    + apply ticket_create_inl in Hcreate as [Hts _]. left. by rewrite Hts in Hin.
    + apply ticket_create_inr in Hcreate as (_ & _ & _ & _ & _ & _ & _ & _ & ->).
      cbn in Hin. apply in_app_or in Hin as [Hin|[<-|[]]]; [by left|by right].
  - destruct result as [err|c].
    + apply ticket_create_inl in Hcreate as [Hts _]. left. by rewrite Hts in Hin.
    + apply ticket_create_inr in Hcreate as (_ & _ & _ & _ & _ & _ & _ & _ & ->).
      cbn in Hin. apply in_app_or in Hin as [Hin|[<-|[]]]; [by left|by right].
Qed.
End PostRegister.

(** A request without a token does not reach the store. *)
Lemma unauthenticated_registration_touches_nothing_witness :
  exists message,
    run (post_register (H := Demo.platform) (H0 := Tour.access_tokens) Tour.secret
           Demo.svc None Tour.for_gala) Demo.w0
    = (inr (Response.mk 401 (RegisterError "Unauthorized" (Some message) None)),
       Demo.w0).
Proof.
  apply (unauthenticated_registration_touches_nothing (H := Demo.platform)
           (H0 := Tour.access_tokens) Tour.secret Demo.svc None Tour.for_gala Demo.w0).
  intros token Hheader. discriminate Hheader.
Defined.

(** With her access token Alice registers herself. *)
Lemma tickets_go_to_the_token_subject_witness :
  let ticket := Ticket.mk "tkt-0" (Some "jwt.rnd-0") REGISTERED (Some "rnd-0") None
                  "u-alice" "e-gala" in
  tickets Demo.registered = [ticket]
  /\ (In ticket (tickets Demo.w0)
      \/ (Ticket.userId ticket = "u-alice" /\ Ticket.eventId ticket = "e-gala")).
Proof.
  split; [reflexivity|].
  apply (tickets_go_to_the_token_subject (H := Demo.platform)
           (H0 := Tour.access_tokens) Tour.secret Demo.svc "hs256.s3cret.u-alice"
           Tour.alice_access Tour.for_gala Demo.w0 Demo.registered
           (Response.mk 201
              (RegisterFree
                 (CreatedTicket.mk
                    (Ticket.mk "tkt-0" (Some "jwt.rnd-0") REGISTERED (Some "rnd-0") None
                       "u-alice" "e-gala")
                    (Some Demo.alice) (Some Demo.gala))
                 false))).
  - vm_compute. reflexivity.
  - vm_compute. reflexivity.
  - left. reflexivity.
Defined.

(** ** Accounts *)

Lemma find_account_by_email_Some (email : string) (rows : list Account.t)
    (a : Account.t) :
  find_account_by_email email rows = Some a -> In a rows /\ Account.email a = email.
Proof.
  unfold find_account_by_email. intros Hf. apply find_some in Hf as [Hin Hb].
  by apply bool_decide_eq_true in Hb.
Qed.

Lemma find_account_by_email_None (email : string) (rows : list Account.t) :
  find_account_by_email email rows = None ->
  ~ In email (map Account.email rows).
Proof.
  unfold find_account_by_email. intros Hf [a [He Hin]]%in_map_iff.
  apply (find_none _ _ Hf) in Hin. by apply bool_decide_eq_false in Hin.
Qed.

Lemma find_account_by_id_None (id : string) (rows : list Account.t) :
  find_account_by_id id rows = None -> ~ In id (map Account.id rows).
Proof.
  unfold find_account_by_id. intros Hf [a [He Hin]]%in_map_iff.
  apply (find_none _ _ Hf) in Hin. by apply bool_decide_eq_false in Hin.
Qed.

Lemma find_account_by_email_new (email : string) (rows : list Account.t)
    (a : Account.t) :
  find_account_by_email email rows = None -> Account.email a = email ->
  find_account_by_email email (rows ++ [a]) = Some a.
Proof.
  unfold find_account_by_email. intros Hnone He.
  induction rows as [|x rows IH]; cbn in *.
  - by rewrite bool_decide_eq_true_2 by done.
  - destruct (bool_decide (Account.email x = email)); [discriminate|]. by apply IH.
Qed.

Lemma user_create_inv (email passwordHash fullName : string) (role : UserRole)
    (d d' : Directory.t) (result : PrismaError + Account.t) :
  user_create email passwordHash fullName role d = (result, d') ->
  Directory.clock d' = Directory.clock d
  /\ match result with
     | inl _ => Directory.accounts d' = Directory.accounts d
     | inr a =>
         a = Account.mk (Directory.keys d (Directory.created d)) email passwordHash
               fullName role (Directory.clock d) (Directory.clock d)
         /\ Directory.accounts d' = (Directory.accounts d ++ [a])%list
         /\ find_account_by_email email (Directory.accounts d) = None
         /\ find_account_by_id (Account.id a) (Directory.accounts d) = None
     end.
Proof.
  unfold user_create.
  destruct (find_account_by_email _ _) eqn:He; [by intros [= <- <-]|].
  destruct (find_account_by_id _ _) eqn:Hi; [by intros [= <- <-]|].
  by intros [= <- <-].
Qed.

Section Accounts.
Context `{AccessTokens} `{Bcrypt}.
Variable JWT_ACCESS_TOKEN_SECRET : option string.

(** What a request to register an account that was answered 201 did. *)
Lemma auth_register_inv (body : RegisterInput.t) (d d' : Directory.t)
    (r : Response.t AuthBody) :
  auth_register JWT_ACCESS_TOKEN_SECRET body d = (r, d') ->
  (exists email password fullName a,
     body = RegisterInput.mk (Some email) (Some password) (Some fullName)
     /\ email <> "" /\ password <> "" /\ fullName <> ""
     /\ (8 <= String.length password)%nat
     /\ find_account_by_email email (Directory.accounts d) = None
     /\ find_account_by_id (Account.id a) (Directory.accounts d) = None
     /\ a = Account.mk (Directory.keys d (Directory.created d)) email
              (bcrypt_hash password 10 (Directory.salts d (Directory.salted d)))
              fullName ATTENDEE (Directory.clock d) (Directory.clock d)
     /\ Directory.accounts d' = (Directory.accounts d ++ [a])%list
     /\ Directory.clock d' = Directory.clock d
     /\ r = Response.mk 201
              (AuthOk (generateAccessToken JWT_ACCESS_TOKEN_SECRET (Account.id a)
                         email "ATTENDEE" (Directory.clock d) (Directory.clock d))
                      (Profile.of_account a)))
  \/ (In (Response.code r) [400; 409; 500]%nat
      /\ Directory.accounts d' = Directory.accounts d
      /\ Directory.clock d' = Directory.clock d).
Proof.
  unfold auth_register.
  destruct body as [[email|] [password|] [fullName|]]; cbn [RegisterInput.email
    RegisterInput.password RegisterInput.fullName];
    try (rewrite ?orb_true_r; cbn; intros [= <- <-]; right; cbn; by intuition).
  destruct (falsy (Some email)) eqn:Hemail;
    [cbn; intros [= <- <-]; right; cbn; by intuition|].
  destruct (falsy (Some password)) eqn:Hpassword;
    [cbn; intros [= <- <-]; right; cbn; by intuition|].
  destruct (falsy (Some fullName)) eqn:HfullName;
    [cbn; intros [= <- <-]; right; cbn; by intuition|].
  cbn [orb from_option id].
  destruct (Nat.ltb_spec (String.length password) 8) as [Hshort|Hlong];
    [intros [= <- <-]; right; cbn; by intuition|].
  destruct (find_account_by_email email (Directory.accounts d)) eqn:Hfree;
    [intros [= <- <-]; right; cbn; by intuition|].
  cbn [next_salt].
  destruct (user_create _ _ _ _ _) as [result d2] eqn:Hcreate.
  apply user_create_inv in Hcreate as [Hclock Hresult].
  cbn in Hclock, Hresult.
  destruct result as [err|a].
  - intros [= <- <-]. right. cbn. by intuition.
  - intros [= <- <-]. left. destruct Hresult as (Ha & Hrows & _ & Hid).
    exists email, password, fullName, a.
    apply bool_decide_eq_false in Hemail, Hpassword, HfullName.
    do 6 (split; [done|]). split; [done|]. split; [done|].
    split; [done|]. split; [done|].
    rewrite Hclock. by rewrite Ha.
Qed.

(** X19: opening an account keeps the addresses and the ids of the
    accounts free of duplicates. *)
Theorem auth_register_keeps_keys_unique (body : RegisterInput.t) (d : Directory.t) :
  NoDup (map Account.email (Directory.accounts d)) ->
  NoDup (map Account.id (Directory.accounts d)) ->
  let d' := (auth_register JWT_ACCESS_TOKEN_SECRET body d).2 in
  NoDup (map Account.email (Directory.accounts d'))
  /\ NoDup (map Account.id (Directory.accounts d')).
Proof.
  intros Hemails Hids.
  destruct (auth_register JWT_ACCESS_TOKEN_SECRET body d) as [r d'] eqn:Hrun.
  cbn. apply auth_register_inv in Hrun
    as [(email & password & fullName & a & _ & _ & _ & _ & _ & Hfree & Hid & Ha
         & -> & _)|(_ & -> & _)]; [|done].
  rewrite !map_app. cbn.
  apply find_account_by_email_None in Hfree.
  apply find_account_by_id_None in Hid.
  split; apply NoDup_app; (split; [done|]); (split; [|apply NoDup_singleton]).
  - intros x Hx%list_elem_of_In [<-|[]]%list_elem_of_In. apply Hfree.
    by rewrite Ha in Hx.
  - by intros x Hx%list_elem_of_In [<-|[]]%list_elem_of_In.
Qed.

(** X20: after an account was opened, a login with the same address and
    password at any later time is answered 200 with the same profile and
    an access token for the same id, address and role.  This relies on
    bcrypt's [compare] accepting the hash it made of the password. *)
Theorem registered_account_can_log_in (email password fullName : string)
    (d d1 : Directory.t) (r : Response.t AuthBody) (dt : Z) :
  auth_register JWT_ACCESS_TOKEN_SECRET
    (RegisterInput.mk (Some email) (Some password) (Some fullName)) d = (r, d1) ->
  Response.code r = 201%nat ->
  bcrypt_compare password
    (bcrypt_hash password 10 (Directory.salts d (Directory.salted d))) = true ->
  exists a,
    Response.body r
    = AuthOk (generateAccessToken JWT_ACCESS_TOKEN_SECRET (Account.id a) email
                "ATTENDEE" (Directory.clock d) (Directory.clock d))
             (Profile.of_account a)
    /\ auth_login JWT_ACCESS_TOKEN_SECRET
         (LoginInput.mk (Some email) (Some password)) (later dt d1)
       = (Response.mk 200
            (AuthOk (generateAccessToken JWT_ACCESS_TOKEN_SECRET (Account.id a) email
                       "ATTENDEE" (Directory.clock d + dt) (Directory.clock d + dt))
                    (Profile.of_account a)),
          later dt d1).
Proof.
  intros Hrun Hcode Hbcrypt. apply auth_register_inv in Hrun
    as [(email' & password' & fullName' & a & [= <- <- <-] & Hemail & Hpassword & _ & _
         & Hfree & _ & Ha & Hrows & Hclock & ->)|(Hno & _)].
  2:{ rewrite Hcode in Hno. cbn in Hno. exfalso. by intuition. }
  exists a. split; [done|].
  unfold auth_login. cbn [LoginInput.email LoginInput.password].
  rewrite !falsy_some by done. cbn [orb from_option id later Directory.accounts
    Directory.clock].
  rewrite Hrows, (find_account_by_email_new email _ a Hfree) by (by rewrite Ha).
  rewrite Hclock. rewrite Ha at 1. cbn [Account.passwordHash].
  rewrite Hbcrypt. cbn [negb]. by rewrite Ha.
Qed.

(** X21: every login that is answered 401 gets the same answer, whether
    the address is unknown or the password is wrong. *)
Theorem login_failures_look_alike (body1 body2 : LoginInput.t)
    (d1 d2 : Directory.t) :
  let r1 := (auth_login JWT_ACCESS_TOKEN_SECRET body1 d1).1 in
  let r2 := (auth_login JWT_ACCESS_TOKEN_SECRET body2 d2).1 in
  Response.code r1 = 401%nat -> Response.code r2 = 401%nat ->
  r1 = r2 /\ r1 = Response.mk 401 (AuthError "Invalid credentials").
Proof.
  assert (forall body d,
            Response.code (auth_login JWT_ACCESS_TOKEN_SECRET body d).1 = 401%nat ->
            (auth_login JWT_ACCESS_TOKEN_SECRET body d).1
            = Response.mk 401 (AuthError "Invalid credentials")) as Hone.
  { intros body d. unfold auth_login.
    destruct (falsy _ || falsy _); [discriminate|].
    destruct (find_account_by_email _ _) as [user|]; [|done].
    by destruct (negb _). }
  intros r1 r2 H1 H2. subst r1 r2. by rewrite (Hone _ _ H1), (Hone _ _ H2).
Qed.
End Accounts.


(** The first account of a directory. *)
Lemma auth_register_keeps_keys_unique_witness :
  NoDup (map Account.email
           (Directory.accounts
              (auth_register (H := Tour.access_tokens) (H0 := Tour.bcrypt) Tour.secret
                 Tour.alice_signs_up Tour.empty_directory).2))
  /\ NoDup (map Account.id
              (Directory.accounts
                 (auth_register (H := Tour.access_tokens) (H0 := Tour.bcrypt)
                    Tour.secret Tour.alice_signs_up Tour.empty_directory).2)).
Proof.
  apply (auth_register_keeps_keys_unique (H := Tour.access_tokens) (H0 := Tour.bcrypt)
           Tour.secret Tour.alice_signs_up Tour.empty_directory).
  - apply NoDup_nil_2.
  - apply NoDup_nil_2.
Defined.

(** Alice logs in an hour after she opened her account. *)
Lemma registered_account_can_log_in_witness :
  exists a,
    auth_login (H := Tour.access_tokens) (H0 := Tour.bcrypt) Tour.secret
      (LoginInput.mk (Some "alice@example.com") (Some "correct horse"))
      (later 3600000
         (auth_register (H := Tour.access_tokens) (H0 := Tour.bcrypt) Tour.secret
            Tour.alice_signs_up Tour.empty_directory).2)
    = (Response.mk 200
         (AuthOk (generateAccessToken (H := Tour.access_tokens) Tour.secret
                    (Account.id a) "alice@example.com" "ATTENDEE"
                    (1700000000123 + 3600000) (1700000000123 + 3600000))
                 (Profile.of_account a)),
       later 3600000
         (auth_register (H := Tour.access_tokens) (H0 := Tour.bcrypt) Tour.secret
            Tour.alice_signs_up Tour.empty_directory).2).
Proof.
  destruct (registered_account_can_log_in (H := Tour.access_tokens)
              (H0 := Tour.bcrypt) Tour.secret "alice@example.com" "correct horse"
              "Alice" Tour.empty_directory
              (auth_register (H := Tour.access_tokens) (H0 := Tour.bcrypt) Tour.secret
                 Tour.alice_signs_up Tour.empty_directory).2
              (auth_register (H := Tour.access_tokens) (H0 := Tour.bcrypt) Tour.secret
                 Tour.alice_signs_up Tour.empty_directory).1
              3600000)
    as (a & _ & Hlogin).
  - vm_compute. reflexivity.
  - vm_compute. reflexivity.
  - vm_compute. reflexivity.
  - exists a. exact Hlogin.
Defined.

(** A wrong password for Alice and a login for an unknown address get
    the same answer. *)
Lemma login_failures_look_alike_witness :
  (auth_login (H := Tour.access_tokens) (H0 := Tour.bcrypt) Tour.secret
     (LoginInput.mk (Some "alice@example.com") (Some "wrong horse"))
     (auth_register (H := Tour.access_tokens) (H0 := Tour.bcrypt) Tour.secret
        Tour.alice_signs_up Tour.empty_directory).2).1
  = (auth_login (H := Tour.access_tokens) (H0 := Tour.bcrypt) Tour.secret
       (LoginInput.mk (Some "nobody@example.com") (Some "correct horse"))
       Tour.empty_directory).1.
Proof.
  apply (login_failures_look_alike (H := Tour.access_tokens) (H0 := Tour.bcrypt)
           Tour.secret
           (LoginInput.mk (Some "alice@example.com") (Some "wrong horse"))
           (LoginInput.mk (Some "nobody@example.com") (Some "correct horse"))
           (auth_register (H := Tour.access_tokens) (H0 := Tour.bcrypt) Tour.secret
              Tour.alice_signs_up Tour.empty_directory).2
           Tour.empty_directory).
  - vm_compute. reflexivity.
  - vm_compute. reflexivity.
Defined.

(** ** What an event page shows and what registration does *)

Section Availability.
Context `{Platform}.
Variable svc : JWTService.

(** X22: what GET /api/events/:id shows of an event agrees with what a
    free registration does in the same world: [isSoldOut] is true exactly
    when the new ticket is WAITLISTED and false exactly when it is
    REGISTERED, and then [spotsAvailable], the capacity less the tickets
    sold, is positive. *)
Theorem sold_out_means_waitlisted (userId : string) (body : RegisterTicketInput.t)
    (w v w' : World) (event : Event.t) (ticketsSold : nat) (spotsAvailable : Z)
    (isSoldOut : bool) (c : CreatedTicket.t) (b : bool) :
  run (get_event (RegisterTicketInput.eventId body)) w
  = (inr (Response.mk 200 (EventDetails event ticketsSold spotsAvailable isSoldOut)),
     v) ->
  run (register svc userId body) w = (inr (Response.mk 201 (RegisterFree c b)), w') ->
  (isSoldOut = true <-> Ticket.status (CreatedTicket.ticket c) = WAITLISTED)
  /\ (isSoldOut = false <-> Ticket.status (CreatedTicket.ticket c) = REGISTERED)
  /\ (isSoldOut = false <-> (0 < spotsAvailable)%Z)
  /\ spotsAvailable
     = (Event.capacity event
        - Z.of_nat (sold (RegisterTicketInput.eventId body) (tickets w)))%Z.
Proof.
  intros Hget Hreg.
  apply register_created_inv in Hreg
    as (event' & u & Hevent & _ & _ & _ & _ & _ & -> & _).
  unfold get_event in Hget. cbn in Hget. rewrite Hevent in Hget. cbn in Hget.
  destruct (Event.isPrivate event'); [discriminate|].
  injection Hget as <- <- <- <- _.
  cbn. fold (sold (RegisterTicketInput.eventId body) (tickets w)).
  destruct (Z.leb_spec (Event.capacity event')
              (Z.of_nat (sold (RegisterTicketInput.eventId body) (tickets w))));
    repeat split; try done; try lia.
Qed.
End Availability.

(** The page of the sold-out gala says so, and Alice is put on the
    waiting list. *)
Lemma sold_out_means_waitlisted_witness :
  (true = true
   <-> Ticket.status
         (Ticket.mk "tkt-0" (Some "jwt.rnd-0") WAITLISTED (Some "rnd-0") None
            "u-alice" "e-gala") = WAITLISTED)
  /\ (0 = Event.capacity Tour.gala_full
          - Z.of_nat (sold "e-gala" (tickets Tour.sold_out)))%Z.
Proof.
  destruct (sold_out_means_waitlisted (H := Demo.platform) Demo.svc "u-alice"
              Tour.for_gala Tour.sold_out
              (run (get_event "e-gala") Tour.sold_out).2
              (run (register (H := Demo.platform) Demo.svc "u-alice" Tour.for_gala)
                   Tour.sold_out).2
              Tour.gala_full 0 0 true
              (CreatedTicket.mk
                 (Ticket.mk "tkt-0" (Some "jwt.rnd-0") WAITLISTED (Some "rnd-0") None
                    "u-alice" "e-gala")
                 (Some Demo.alice) (Some Tour.gala_full))
              false)
    as (Hw & _ & _ & Hspots).
  - vm_compute. reflexivity.
  - vm_compute. reflexivity.
  - split; assumption.
Defined.
